(** * wsd: a command-line WebSocket client

    The repository holds two revisions of the same program:

    - [src/main.go], where the inbound reader and the outbound writer call
      [printError] and [printReceivedMessage] themselves (module [Direct]);
    - [src/unnamed/part_000], where the reader and the writer hand their
      results over unbuffered channels to two further goroutines,
      [printReceivedMessages] and [printErrors] (module [Channels]).

    Both are embedded as small-step machines over an explicit world
    (terminal streams and the WebSocket connection).  A step is attributed
    to one goroutine; a schedule is a list of goroutine names. *)

From Stdlib Require Import ZArith List String Ascii Lia.
From Stdlib.Strings Require Import Byte.
From stdpp Require Import base tactics option list strings.
Import ListNotations.

(** ** The Go runtime and library surface the program uses *)

Module Go.

Definition bytes := list byte.

(** [[]byte(s)] and [string(b)] *)
Definition to_bytes (s : string) : bytes := list_byte_of_string s.
Definition to_string (b : bytes) : string := string_of_list_byte b.

Definition CR : string := String (ascii_of_nat 13) EmptyString.
Definition LF : string := String (ascii_of_nat 10) EmptyString.

(** Error values.  [io_EOF] is the sentinel [io.EOF]; [err == io.EOF]
    compares identities, so [errors_New "EOF"] is a different error that
    merely prints the same. *)
Inductive error :=
| io_EOF
| io_ErrUnexpectedEOF
| errors_New (text : string).

#[global] Instance error_eq_dec : EqDecision error.
Proof. solve_decision. Defined.

(** [err.Error()] *)
Definition Error (e : error) : string :=
  match e with
  | io_EOF => "EOF"
  | io_ErrUnexpectedEOF => "unexpected EOF"
  | errors_New text => text
  end.

(** The attributes handed to [color.New] *)
Inductive colour := FgRed | FgMagenta | FgGreen | FgYellow | FgCyan.

(** Why a goroutine panicked *)
Inductive panic_value :=
| PanicError (e : error)       (* panic(err) *)
| NilDereference               (* method call through a nil *websocket.Conn *)
| MakesliceLenOutOfRange       (* make([]byte, n), n < 0 or beyond maxAlloc *)
| NegativeWaitGroupCounter     (* wg.Done() below zero *)
| SendOnClosedChannel.

(** How the process ended *)
Inductive outcome :=
| os_Exit (code : Z)
| go_panic (p : panic_value).

Definition exit_code (o : outcome) : Z :=
  match o with
  | os_Exit code => code
  | go_panic _ => 2
  end.

(** What becomes of a process in a given state: it runs on; or it has
    ended by itself; or every goroutine is blocked on a channel or on the
    wait group and none waits for the outside, so that nothing can happen
    any more: the Go runtime ends such a process when its deadlock
    detector finds it ("fatal error: all goroutines are asleep -
    deadlock!", exit status 2). *)
Inductive fate :=
| Runs
| Ends (o : outcome)
| Aborts.


(** The flag variables of the [var] block, as [flag.Parse] leaves them *)
Record flags := Flags {
  origin : string;
  url : string;
  protocol : string;
  userAgent : string;
  displayHelp : bool;
  displayVersion : bool;
  bufSize : Z;
  insecureSkipVerify : bool;
  raw : bool }.

(** The defaults registered by [init] *)
Definition default_flags : flags :=
  {| origin := "http://localhost/";
     url := "ws://localhost:1337/ws";
     protocol := "";
     userAgent := "";
     displayHelp := false;
     displayVersion := false;
     bufSize := 1024;
     insecureSkipVerify := false;
     raw := false |}.

(** [websocket.Config], the fields [dial] sets *)
Record ws_config := WsConfig {
  Location : string;
  Origin : string;
  Protocol : list string;
  Header : list (string * string);
  TlsInsecureSkipVerify : bool }.

(** A connection handle: [None] is the nil [*websocket.Conn]. *)
Definition Conn := option nat.

(** The world outside the program: the terminal and the remote end.

    - [stdin]: the lines [bufio.Scanner] will yield, in order;
    - [inbound]: what the remote presents to successive reads, a frame
      payload or an error;
    - [wresults]: the results of successive [ws.Write] calls (success once
      the list is used up);
    - [written], [delivered], [handshakes], [opened], [closed]: logs of what
      the program did to the connection. *)
Record world := World {
  stdin : list string;
  stdout : bytes;
  stderr : bytes;
  config_err : option error;
  dial_err : option error;
  handshakes : list ws_config;
  inbound : list (bytes + error);
  wresults : list (option error);
  written : list bytes;
  delivered : list bytes;
  opened : nat;
  closed : nat }.

(** [fmt.Printf], [fmt.Print] and [os.Stdout.Write]: append to standard output *)
Definition Stdout_Write (b : bytes) (w : world) : world :=
  World (stdin w) (stdout w ++ b) (stderr w) (config_err w) (dial_err w)
        (handshakes w) (inbound w) (wresults w) (written w) (delivered w)
        (opened w) (closed w).

Definition Printf (text : string) (w : world) : world :=
  Stdout_Write (to_bytes text) w.

(** [fmt.Fprintf(os.Stderr, ...)] *)
Definition Fprintf_Stderr (text : string) (w : world) : world :=
  World (stdin w) (stdout w) (stderr w ++ to_bytes text) (config_err w)
        (dial_err w) (handshakes w) (inbound w) (wresults w) (written w)
        (delivered w) (opened w) (closed w).

(** [scanner.Scan()] followed by [scanner.Text()]: [None] at end of input.
    The list [stdin] is all the operator will type.  How long [main] waits
    for the next line is the operator's affair: a [main] that stands at
    [scanner.Scan()] counts as waiting for the operator (see [at_rest]
    below), and the step is taken when the line, or the end of the input,
    is there. *)
Definition Scan (w : world) : option (string * world) :=
  match stdin w with
  | [] => None
  | line :: rest =>
      Some (line,
            World rest (stdout w) (stderr w) (config_err w) (dial_err w)
                  (handshakes w) (inbound w) (wresults w) (written w)
                  (delivered w) (opened w) (closed w))
  end.

(** The largest length [make([]byte, n)] accepts: the runtime's [maxAlloc],
    [1 << 48] bytes on the 64-bit platforms. *)
Definition maxAlloc : Z := 2 ^ 48.

(** [make([]byte, n)]: a zeroed slice, or the run-time panic
    "makeslice: len out of range" for a negative length and for a length
    beyond [maxAlloc].  The memory for a slice within the limit is taken
    to be there. *)
Definition make_bytes (n : Z) : option bytes :=
  if ((n <? 0) || (maxAlloc <? n))%Z then None
  else Some (replicate (Z.to_nat n) x00).

(** [ws.Read(msg)]: an error is returned as it is; frame data is copied into
    the front of [msg], as much as fits, and what does not fit stays for the
    next read.  [None] when nothing is pending (the call blocks).  The
    result is the count, the error, the buffer after the call and the
    world. *)
Definition ws_Read (msg : bytes) (w : world)
  : option (nat * option error * bytes * world) :=
  match inbound w with
  | [] => None
  | inr e :: rest =>
      Some (0, Some e, msg,
            World (stdin w) (stdout w) (stderr w) (config_err w) (dial_err w)
                  (handshakes w) rest (wresults w) (written w) (delivered w)
                  (opened w) (closed w))
  | inl data :: rest =>
      let chunk := take (length msg) data in
      let left := drop (length msg) data in
      Some (length chunk, None, chunk ++ drop (length chunk) msg,
            World (stdin w) (stdout w) (stderr w) (config_err w) (dial_err w)
                  (handshakes w)
                  (match left with [] => rest | _ => inl left :: rest end)
                  (wresults w) (written w) (delivered w ++ [chunk])
                  (opened w) (closed w))
  end.

(** [ws.Write(msg)] *)
Definition ws_Write (msg : bytes) (w : world) : option error * world :=
  (match wresults w with [] => None | r :: _ => r end,
   World (stdin w) (stdout w) (stderr w) (config_err w) (dial_err w)
         (handshakes w) (inbound w) (tail (wresults w)) (written w ++ [msg])
         (delivered w) (opened w) (closed w)).

(** [ws.Close()] on a live handle *)
Definition ws_Close (w : world) : world :=
  World (stdin w) (stdout w) (stderr w) (config_err w) (dial_err w)
        (handshakes w) (inbound w) (wresults w) (written w) (delivered w)
        (opened w) (S (closed w)).

(** [websocket.NewConfig(server, origin)] *)
Definition websocket_NewConfig (server origin_ : string) (w : world)
  : ws_config + error :=
  match config_err w with
  | Some e => inr e
  | None => inl (WsConfig server origin_ [] [] false)
  end.

(** [websocket.DialConfig(config)] *)
Definition websocket_DialConfig (config : ws_config) (w : world)
  : Conn * option error * world :=
  match dial_err w with
  | Some e =>
      (None, Some e,
       World (stdin w) (stdout w) (stderr w) (config_err w) (dial_err w)
             (handshakes w ++ [config]) (inbound w) (wresults w) (written w)
             (delivered w) (opened w) (closed w))
  | None =>
      (Some (opened w), None,
       World (stdin w) (stdout w) (stderr w) (config_err w) (dial_err w)
             (handshakes w ++ [config]) (inbound w) (wresults w) (written w)
             (delivered w) (S (opened w)) (closed w))
  end.

(** [w'] differs from [w] at most in the terminal output and the
    handshake log: input, remote and connection logs are those of [w]. *)
Definition same_wire (w w' : world) : Prop :=
  stdin w' = stdin w /\ inbound w' = inbound w /\ wresults w' = wresults w /\
  written w' = written w /\ delivered w' = delivered w /\ closed w' = closed w.

(** A remote that never reports [io.EOF], on reads or on writes *)
Definition quiet (w : world) : Prop :=
  Forall (fun x => x <> inr io_EOF) (inbound w) /\
  Forall (fun r => r <> Some io_EOF) (wresults w).

(** The program's components, in the vocabulary of the specification *)
Inductive component :=
| ErrorSink
| InboundReader
| MessagePresenter
| OutboundWriter
| OperatorInputLoop.

#[global] Instance component_eq_dec : EqDecision component.
Proof. solve_decision. Defined.

(** [const Version] *)
Definition Version : string := "0.1.0".

Section Dial.
Variable cfg : flags.

(** [func dial(url, protocol, origin string)] *)
Definition dial (url_ protocol_ origin_ : string) (w : world)
  : Conn * option error * world :=
  match websocket_NewConfig url_ origin_ w with
  | inr err => (None, Some err, w)
  | inl config =>
      let config :=
        if decide (protocol_ ≠ "") then
          WsConfig (Location config) (Origin config) [protocol_]
                   (Header config) (TlsInsecureSkipVerify config)
        else config in
      let config :=
        if decide (userAgent cfg ≠ "") then
          WsConfig (Location config) (Origin config) (Protocol config)
                   (Header config ++ [("User-Agent", userAgent cfg)])
                   (TlsInsecureSkipVerify config)
        else config in
      let config :=
        WsConfig (Location config) (Origin config) (Protocol config)
                 (Header config) (insecureSkipVerify cfg) in
      websocket_DialConfig config w
  end.
End Dial.

Section Reports.
Variable paint : colour -> string -> string.

(** The two lines the error sink can print: the notice for [io.EOF] and
    the report of any other error *)
Definition closure_notice : string :=
  CR +:+ "✝ " +:+ paint FgMagenta (Error io_EOF)
     +:+ " - connection closed by remote" +:+ LF.

Definition error_report (err : error) : string :=
  CR +:+ "err " +:+ paint FgRed (Error err) +:+ LF.
End Reports.

End Go.

(** ** [src/main.go]: reader and writer report by direct calls *)

Module Direct.
Import Go.

Inductive thread := Main | OutLoop | InLoop.

(** Where [main] stands *)
Inductive main_pc :=
| M_start                 (* entry, flags parsed *)
| M_scan                  (* at [scanner.Scan()] *)
| M_send (msg : bytes)    (* blocked at [out <- []byte(scanner.Text())] *)
| M_prompt                (* at the [fmt.Print] after the send *)
| M_spawn_in              (* at [wg.Add(1); go inLoop(ws)] *)
| M_wait                  (* at [wg.Wait()] *)
| M_returned.

(** Where [outLoop] stands *)
Inductive out_pc :=
| O_idle
| O_recv                  (* at [range out] *)
| O_write (msg : bytes)   (* at [ws.Write(msg)] *)
| O_returned.

(** Where [inLoop] stands *)
Inductive in_pc :=
| I_idle
| I_start                 (* at [make([]byte, bufSize)] *)
| I_read (msg : bytes)    (* at [ws.Read(msg)] *)
| I_returned.

(** The calls [main] defers *)
Inductive deferred_call :=
| Defer_ws_Close (ws : Conn)
| Defer_close_out.

Record state := State {
  env : world;
  pc_main : main_pc;
  pc_out : out_pc;
  pc_in : in_pc;
  wg : Z;                          (* the [sync.WaitGroup] counter *)
  out_closed : bool;               (* [close(out)] has run *)
  deferred : list deferred_call;   (* [main]'s deferred calls, last first *)
  started : list component;        (* tasks in the order [main] started them *)
  exited : option outcome }.

Definition init (w : world) : state :=
  State w M_start O_idle I_idle 0 false [] [] None.

Definition with_env (w : world) (s : state) : state :=
  State w (pc_main s) (pc_out s) (pc_in s) (wg s) (out_closed s)
        (deferred s) (started s) (exited s).
Definition with_pc_main (pc : main_pc) (s : state) : state :=
  State (env s) pc (pc_out s) (pc_in s) (wg s) (out_closed s)
        (deferred s) (started s) (exited s).
Definition with_pc_out (pc : out_pc) (s : state) : state :=
  State (env s) (pc_main s) pc (pc_in s) (wg s) (out_closed s)
        (deferred s) (started s) (exited s).
Definition with_pc_in (pc : in_pc) (s : state) : state :=
  State (env s) (pc_main s) (pc_out s) pc (wg s) (out_closed s)
        (deferred s) (started s) (exited s).
Definition with_wg (n : Z) (s : state) : state :=
  State (env s) (pc_main s) (pc_out s) (pc_in s) n (out_closed s)
        (deferred s) (started s) (exited s).
Definition with_out_closed (b : bool) (s : state) : state :=
  State (env s) (pc_main s) (pc_out s) (pc_in s) (wg s) b
        (deferred s) (started s) (exited s).
Definition with_deferred (ds : list deferred_call) (s : state) : state :=
  State (env s) (pc_main s) (pc_out s) (pc_in s) (wg s) (out_closed s)
        ds (started s) (exited s).
Definition with_started (cs : list component) (s : state) : state :=
  State (env s) (pc_main s) (pc_out s) (pc_in s) (wg s) (out_closed s)
        (deferred s) cs (exited s).
Definition with_exited (o : option outcome) (s : state) : state :=
  State (env s) (pc_main s) (pc_out s) (pc_in s) (wg s) (out_closed s)
        (deferred s) (started s) o.

(** [os.Exit] and an unrecovered panic end the process; the first one wins. *)
Definition finish (o : outcome) (s : state) : state :=
  match exited s with
  | Some _ => s
  | None => with_exited (Some o) s
  end.

(** [wg.Done()] *)
Definition wg_Done (s : state) : state :=
  if (wg s - 1 <? 0)%Z then finish (go_panic NegativeWaitGroupCounter) s
  else with_wg (wg s - 1) s.

(** One deferred call *)
Definition call_deferred (d : deferred_call) (s : state) : state :=
  match d with
  | Defer_ws_Close (Some _) => with_env (ws_Close (env s)) s
  | Defer_ws_Close None => finish (go_panic NilDereference) s
  | Defer_close_out => with_out_closed true s
  end.

(** The deferred calls run last-deferred first, on return and on panic alike. *)
Definition run_deferred (s : state) : state :=
  with_deferred [] (fold_left (fun s d => call_deferred d s) (deferred s) s).

Section Program.
Variable cfg : flags.
Variable paint : colour -> string -> string.
Variable arg0 : string.            (* [os.Args[0]] *)
Variable defaults_text : string.   (* what [flag.PrintDefaults] prints *)

Definition red := paint FgRed.
Definition magenta := paint FgMagenta.
Definition green := paint FgGreen.
Definition yellow := paint FgYellow.
Definition cyan := paint FgCyan.

(** [func printError(err error)]: the world after the call and, when the
    call ends the process, how. *)
Definition printError (err : error) (w : world) : world * option outcome :=
  if decide (err = io_EOF) then
    (Fprintf_Stderr
       (CR +:+ "✝ " +:+ magenta (Error err)
           +:+ " - connection closed by remote" +:+ LF) w,
     Some (os_Exit 0))
  else
    let w := Fprintf_Stderr (CR +:+ "err " +:+ red (Error err) +:+ LF) w in
    (if negb (raw cfg) then Printf "> " w else w, None).

(** [func printReceivedMessage(msg []byte)] *)
Definition printReceivedMessage (msg : bytes) (w : world) : world :=
  if raw cfg then Stdout_Write msg w
  else Printf (CR +:+ "< " +:+ cyan (to_string msg) +:+ LF +:+ "> ") w.

(** A call of [printError] from a goroutine *)
Definition report (err : error) (s : state) : state :=
  let '(w, o) := printError err (env s) in
  match o with
  | Some o => finish o (with_env w s)
  | None => with_env w s
  end.

(** One turn of the loop of [inLoop], from [ws.Read] on *)
Definition inLoop_turn (msg : bytes) (s : state) : option state :=
  match ws_Read msg (env s) with
  | None => None
  | Some (n, Some err, msg', w) =>
      Some (with_pc_in (I_read msg') (report err (with_env w s)))
  | Some (n, None, msg', w) =>
      Some (with_pc_in (I_read msg')
              (with_env (printReceivedMessage (take n msg') w) s))
  end.

(** One turn of the loop of [outLoop], from [ws.Write] on *)
Definition outLoop_turn (msg : bytes) (s : state) : state :=
  let '(err, w) := ws_Write msg (env s) in
  let s := with_env w s in
  with_pc_out O_recv
    (match err with
     | Some err => report err s
     | None => s
     end).

(** The line [main] prints around the dial, with or without the
    subprotocol, and the confirmation it prints after it *)
Definition connecting_line : string :=
  if decide (protocol cfg ≠ "") then
    "connecting to " +:+ yellow (url cfg) +:+ " via "
      +:+ yellow (protocol cfg) +:+ " from "
      +:+ yellow (origin cfg) +:+ "..." +:+ LF
  else
    "connecting to " +:+ yellow (url cfg) +:+ " from "
      +:+ yellow (origin cfg) +:+ "..." +:+ LF.

Definition connected_line : string :=
  "successfully connected to " +:+ green (url cfg) +:+ LF +:+ LF.

(** [main] from its entry to its first blocking statement *)
Definition main_start (s : state) : state :=
  if displayVersion cfg then
    finish (os_Exit 0)
      (with_env (Printf (arg0 +:+ " version " +:+ Version +:+ LF) (env s)) s)
  else if displayHelp cfg then
    finish (os_Exit 0)
      (with_env
         (Fprintf_Stderr defaults_text
            (Printf ("Usage of " +:+ arg0 +:+ ":" +:+ LF) (env s))) s)
  else
    let '(ws, err, w) := dial cfg (url cfg) (protocol cfg) (origin cfg) (env s) in
    let w := if negb (raw cfg) then Printf connecting_line w else w in
    let s := with_deferred (Defer_ws_Close ws :: deferred s) (with_env w s) in
    match err with
    | Some err =>
        finish (go_panic (PanicError err)) (run_deferred s)
    | None =>
        let s :=
          if negb (raw cfg) then
            with_env (Printf connected_line (env s)) s
          else s in
        if negb (raw cfg) then
          let s := with_deferred (Defer_close_out :: deferred s) s in
          let s := with_wg (wg s + 1) s in
          let s := with_started (started s ++ [OutboundWriter])
                     (with_pc_out O_recv s) in
          let s := with_started (started s ++ [OperatorInputLoop]) s in
          with_pc_main M_scan (with_env (Printf "> " (env s)) s)
        else
          with_pc_main M_spawn_in s
    end.

(** [main] comes back from [wg.Wait()] and returns. *)
Definition main_return (s : state) : state :=
  finish (os_Exit 0) (with_pc_main M_returned (run_deferred s)).

(** One step of one goroutine; [None] when it cannot move. *)
Definition step (t : thread) (s : state) : option state :=
  match exited s with
  | Some _ => None
  | None =>
      match t with
      | Main =>
          match pc_main s with
          | M_start => Some (main_start s)
          | M_scan =>
              match Scan (env s) with
              | Some (line, w) =>
                  Some (with_pc_main (M_send (to_bytes line)) (with_env w s))
              | None => Some (with_pc_main M_spawn_in s)
              end
          | M_send msg =>
              if out_closed s then
                Some (finish (go_panic SendOnClosedChannel) s)
              else
                match pc_out s with
                | O_recv =>
                    Some (with_pc_main M_prompt (with_pc_out (O_write msg) s))
                | _ => None
                end
          | M_prompt =>
              Some (with_pc_main M_scan (with_env (Printf "> " (env s)) s))
          | M_spawn_in =>
              let s := with_wg (wg s + 1) s in
              let s := with_started (started s ++ [InboundReader])
                         (with_pc_in I_start s) in
              Some (with_pc_main M_wait s)
          | M_wait =>
              if (wg s =? 0)%Z then Some (main_return s) else None
          | M_returned => None
          end
      | OutLoop =>
          match pc_out s with
          | O_recv =>
              if out_closed s then Some (with_pc_out O_returned (wg_Done s))
              else None
          | O_write msg => Some (outLoop_turn msg s)
          | _ => None
          end
      | InLoop =>
          match pc_in s with
          | I_start =>
              match make_bytes (bufSize cfg) with
              | Some msg => Some (with_pc_in (I_read msg) s)
              | None => Some (finish (go_panic MakesliceLenOutOfRange) s)
              end
          | I_read msg => inLoop_turn msg s
          | _ => None
          end
      end
  end.

(** A schedule names the goroutine to move next; a goroutine that cannot
    move leaves the state as it is. *)
Fixpoint run (sched : list thread) (s : state) : state :=
  match sched with
  | [] => s
  | t :: sched =>
      match step t s with
      | Some s' => run sched s'
      | None => run sched s
      end
  end.

(** No goroutine can move. *)
Definition stuck (s : state) : Prop := forall t, step t s = None.

(** The message each goroutine holds between the scanner and the connection *)
Definition main_holds (s : state) : list bytes :=
  match pc_main s with M_send msg => [msg] | _ => [] end.
Definition out_holds (s : state) : list bytes :=
  match pc_out s with O_write msg => [msg] | _ => [] end.

(** The order in which [main] starts its tasks *)
Definition start_order : list component :=
  (if raw cfg then [] else [OutboundWriter; OperatorInputLoop])
    ++ [InboundReader].

(** The ways [main_start] leaves a fresh state [s] *)
Inductive started_as (s : state) : state -> Prop :=
| start_version :
    displayVersion cfg = true ->
    started_as s
      (with_exited (Some (os_Exit 0))
         (with_env (Printf (arg0 +:+ " version " +:+ Version +:+ LF) (env s)) s))
| start_help :
    displayVersion cfg = false -> displayHelp cfg = true ->
    started_as s
      (with_exited (Some (os_Exit 0))
         (with_env (Fprintf_Stderr defaults_text
                      (Printf ("Usage of " +:+ arg0 +:+ ":" +:+ LF) (env s))) s))
| start_dial_failed w1 e :
    displayVersion cfg = false -> displayHelp cfg = false ->
    config_err (env s) = Some e \/ dial_err (env s) = Some e ->
    same_wire (env s) w1 -> opened w1 = opened (env s) ->
    stderr w1 = stderr (env s) ->
    stdout w1 = stdout (env s)
                  ++ (if raw cfg then [] else to_bytes connecting_line) ->
    started_as s
      (State w1 (pc_main s) (pc_out s) (pc_in s) (wg s) (out_closed s) []
             (started s) (Some (go_panic NilDereference)))
| start_raw w1 :
    displayVersion cfg = false -> displayHelp cfg = false ->
    config_err (env s) = None -> dial_err (env s) = None ->
    raw cfg = true ->
    same_wire (env s) w1 -> opened w1 = S (opened (env s)) ->
    stderr w1 = stderr (env s) -> stdout w1 = stdout (env s) ->
    started_as s
      (State w1 M_spawn_in (pc_out s) (pc_in s) (wg s) (out_closed s)
             [Defer_ws_Close (Some (opened (env s)))] (started s) None)
| start_interactive w1 :
    displayVersion cfg = false -> displayHelp cfg = false ->
    config_err (env s) = None -> dial_err (env s) = None ->
    raw cfg = false ->
    same_wire (env s) w1 -> opened w1 = S (opened (env s)) ->
    stderr w1 = stderr (env s) ->
    stdout w1 = stdout (env s) ++ to_bytes connecting_line
                  ++ to_bytes connected_line ++ to_bytes "> " ->
    started_as s
      (State w1 M_scan O_recv (pc_in s) (wg s + 1) (out_closed s)
             [Defer_close_out; Defer_ws_Close (Some (opened (env s)))]
             (started s ++ [OutboundWriter; OperatorInputLoop]) None).
(** *** Invariants of the reachable states *)

(** Until [main] has moved, the state is the initial one. *)
Definition fresh (w0 : world) (s : state) : Prop :=
  pc_main s = M_start -> exited s = None -> s = init w0.

(** [main] never gets past [wg.Wait()]: nothing is closed. *)
Definition lifecycle (w0 : world) (s : state) : Prop :=
  out_closed s = false /\ pc_main s <> M_returned /\ pc_out s <> O_returned /\
  closed (env s) = closed w0 /\ (0 <= wg s)%Z /\
  (pc_main s = M_wait -> (1 <= wg s)%Z) /\
  opened (env s) <= S (opened w0).

(** The buffer [inLoop] reads into has [bufSize] bytes. *)
Definition buffer_ok (s : state) : Prop :=
  match pc_in s with
  | I_read msg => length msg = Z.to_nat (bufSize cfg) /\ (0 <= bufSize cfg)%Z
  | _ => True
  end.

(** Every line typed is, in order, written, held by [outLoop], held by
    [main], or still to be scanned. *)
Definition lines_kept (w0 : world) (s : state) : Prop :=
  written w0 ++ (to_bytes <$> stdin w0)
  = written (env s) ++ out_holds s ++ main_holds s ++ (to_bytes <$> stdin (env s)).

(** What [main] prints before it starts anything *)
Definition banner : bytes :=
  if raw cfg then []
  else to_bytes connecting_line ++ to_bytes connected_line.

(** What [main] has started, by where it stands *)
Definition order_inv (w0 : world) (s : state) : Prop :=
  started s =
    match pc_main s with
    | M_start => []
    | M_scan | M_send _ | M_prompt => [OutboundWriter; OperatorInputLoop]
    | M_spawn_in => if raw cfg then [] else [OutboundWriter; OperatorInputLoop]
    | M_wait | M_returned => start_order
    end /\
  match pc_main s with
  | M_scan | M_send _ | M_prompt => raw cfg = false
  | _ => True
  end /\
  (pc_main s <> M_start -> (stdout w0 ++ banner) `prefix_of` stdout (env s)).

(** In raw mode standard output holds the chunks read, and nothing else. *)
Definition raw_out (w0 : world) (s : state) : Prop :=
  exists chunks,
    delivered (env s) = delivered w0 ++ chunks /\
    stdout (env s) = stdout w0 ++ concat chunks.

(** With a quiet remote the process never ends. *)
Definition alive (s : state) : Prop :=
  exited s = None /\ quiet (env s).

(** Once [main] has moved in an interactive session, the prompt is the
    last thing on standard output. *)
Definition prompted (w0 : world) (s : state) : Prop :=
  s = init w0 \/ to_bytes "> " `suffix_of` stdout (env s).

(** In raw mode nobody reads the operator input and [outLoop] does not
    exist. *)
Definition input_untouched (w0 : world) (s : state) : Prop :=
  stdin (env s) = stdin w0 /\ written (env s) = written w0 /\
  wresults (env s) = wresults w0 /\ pc_out s = O_idle.

(** In an interactive session [inLoop] does not exist before [main] has
    left its input loop, and [main] leaves it with the input used up. *)
Definition reader_waits (w0 : world) (s : state) : Prop :=
  match pc_main s with
  | M_start | M_scan | M_send _ | M_prompt =>
      pc_in s = I_idle /\ inbound (env s) = inbound w0 /\
      delivered (env s) = delivered w0
  | _ => stdin (env s) = []
  end.

(** With a [bufSize] that [make] refuses, [inLoop] does not get to a read. *)
Definition never_reads (w0 : world) (s : state) : Prop :=
  (pc_in s = I_idle \/ pc_in s = I_start) /\
  inbound (env s) = inbound w0 /\ delivered (env s) = delivered w0.

(** The ways the process ends, and what each of them takes: in the first
    step of [main] by [-version], [-help] or a failed dial; afterwards by
    an [io.EOF] from the remote, with the notice of [printError] the last
    thing on standard error, or by a buffer that cannot be made. *)
Definition outcomes (w0 : world) (s : state) : Prop :=
  (quiet w0 -> quiet (env s)) /\
  (pc_main s <> M_start ->
   displayVersion cfg = false /\ displayHelp cfg = false /\
   config_err w0 = None /\ dial_err w0 = None) /\
  match exited s with
  | None => True
  | Some (os_Exit code) =>
      code = 0%Z /\
      ((pc_main s = M_start /\
        (displayVersion cfg = true \/ displayHelp cfg = true)) \/
       (~ quiet w0 /\
        to_bytes (closure_notice paint) `suffix_of` stderr (env s)))
  | Some (go_panic NilDereference) =>
      pc_main s = M_start /\
      displayVersion cfg = false /\ displayHelp cfg = false /\
      (config_err w0 <> None \/ dial_err w0 <> None)
  | Some (go_panic MakesliceLenOutOfRange) =>
      make_bytes (bufSize cfg) = None
  | Some (go_panic _) => False
  end.

(** Who is there to take what: while [main] is in its input loop
    [outLoop] runs, and once [main] waits [inLoop] runs. *)
Definition paired (s : state) : Prop :=
  match pc_main s with
  | M_scan | M_send _ | M_prompt =>
      pc_out s = O_recv \/ exists msg, pc_out s = O_write msg
  | M_wait => pc_in s = I_start \/ exists msg, pc_in s = I_read msg
  | _ => True
  end.

(** [main] has left its input loop: [scanner.Scan()] has reported the end
    of the operator input (in raw mode there is no such loop). *)
Definition input_ended (s : state) : bool :=
  match pc_main s with
  | M_start | M_scan | M_send _ | M_prompt => false
  | _ => true
  end.

(** *** The process at rest, and the Go runtime's view of it *)

(** A goroutine that cannot move *)
Definition blocked (t : thread) (s : state) : bool :=
  match step t s with
  | None => true
  | Some _ => false
  end.

(** A goroutine waits for the outside: [main] for the operator at
    [scanner.Scan()], [inLoop] for the remote at [ws.Read]. *)
Definition awaits_input (s : state) : bool :=
  match pc_main s, pc_in s with
  | M_scan, _ => true
  | _, I_read _ => true
  | _, _ => false
  end.

(** "all goroutines are asleep": the process has not ended, no goroutine
    can move and none waits for the outside. *)
Definition asleep (s : state) : bool :=
  match exited s with
  | Some _ => false
  | None =>
      blocked Main s && blocked OutLoop s && blocked InLoop s
        && negb (awaits_input s)
  end.

Definition fate_of (s : state) : fate :=
  match exited s with
  | Some o => Ends o
  | None => if asleep s then Aborts else Runs
  end.

(** The process is at rest: it has not ended and nothing moves until the
    outside does something.  A [main] at [scanner.Scan()] is at rest
    while the operator types nothing. *)
Definition at_rest (s : state) : Prop :=
  exited s = None /\
  forall t, step t s = None \/ (t = Main /\ pc_main s = M_scan).
End Program.

End Direct.

(** ** [src/unnamed/part_000]: reader and writer report over channels *)

Module Channels.
Import Go.

Inductive thread := Main | OutLoop | InLoop | PrintReceivedMessages | PrintErrors.

(** Where [main] stands *)
Inductive main_pc :=
| M_start                 (* entry, flags parsed *)
| M_scan                  (* at [scanner.Scan()] *)
| M_send (msg : bytes)    (* blocked at [out <- []byte(scanner.Text())] *)
| M_prompt                (* at the [fmt.Print] after the send *)
| M_go_inLoop             (* at [go inLoop(ws, errors, in)] *)
| M_go_printReceivedMessages
| M_go_printErrors
| M_wait                  (* at [wg.Wait()] *)
| M_returned.

(** Where [outLoop] stands *)
Inductive out_pc :=
| O_idle
| O_recv                    (* at [range out] *)
| O_write (msg : bytes)     (* at [ws.Write(msg)] *)
| O_send_err (err : error)  (* blocked at [errors <- err] *)
| O_returned.

(** Where [inLoop] stands.  Its buffer [msg] is the field [buf] of the
    state: the slices it sends are views of that one array. *)
Inductive in_pc :=
| I_idle
| I_start                   (* at [make([]byte, bufSize)] *)
| I_read                    (* at [ws.Read(msg)] *)
| I_send_err (err : error)  (* blocked at [errors <- err] *)
| I_send_msg (n : nat).     (* blocked at [in <- msg[:n]] *)

(** Where [printReceivedMessages] stands *)
Inductive show_pc :=
| P_idle
| P_recv                    (* at [range in] *)
| P_print (n : nat)         (* holds [msg[:n]], at the [fmt.Printf] *)
| P_returned.

(** Where [printErrors] stands *)
Inductive sink_pc :=
| E_idle
| E_recv                    (* at [range errors] *)
| E_handle (err : error)    (* holds [err], at the [if] *)
| E_returned.

(** The calls [main] defers *)
Inductive deferred_call :=
| Defer_ws_Close (ws : Conn)
| Defer_close_in
| Defer_close_errors
| Defer_close_out.

Record state := State {
  env : world;
  pc_main : main_pc;
  pc_out : out_pc;
  pc_in : in_pc;
  pc_show : show_pc;
  pc_sink : sink_pc;
  buf : bytes;                     (* the array behind [inLoop]'s [msg] *)
  wg : Z;
  in_closed : bool;
  errors_closed : bool;
  out_closed : bool;
  deferred : list deferred_call;
  started : list component;
  exited : option outcome }.

Definition init (w : world) : state :=
  State w M_start O_idle I_idle P_idle E_idle [] 0 false false false [] [] None.

Definition with_env (w : world) (s : state) : state :=
  State w (pc_main s) (pc_out s) (pc_in s) (pc_show s) (pc_sink s) (buf s)
        (wg s) (in_closed s) (errors_closed s) (out_closed s) (deferred s)
        (started s) (exited s).
Definition with_pc_main (pc : main_pc) (s : state) : state :=
  State (env s) pc (pc_out s) (pc_in s) (pc_show s) (pc_sink s) (buf s)
        (wg s) (in_closed s) (errors_closed s) (out_closed s) (deferred s)
        (started s) (exited s).
Definition with_pc_out (pc : out_pc) (s : state) : state :=
  State (env s) (pc_main s) pc (pc_in s) (pc_show s) (pc_sink s) (buf s)
        (wg s) (in_closed s) (errors_closed s) (out_closed s) (deferred s)
        (started s) (exited s).
Definition with_pc_in (pc : in_pc) (s : state) : state :=
  State (env s) (pc_main s) (pc_out s) pc (pc_show s) (pc_sink s) (buf s)
        (wg s) (in_closed s) (errors_closed s) (out_closed s) (deferred s)
        (started s) (exited s).
Definition with_pc_show (pc : show_pc) (s : state) : state :=
  State (env s) (pc_main s) (pc_out s) (pc_in s) pc (pc_sink s) (buf s)
        (wg s) (in_closed s) (errors_closed s) (out_closed s) (deferred s)
        (started s) (exited s).
Definition with_pc_sink (pc : sink_pc) (s : state) : state :=
  State (env s) (pc_main s) (pc_out s) (pc_in s) (pc_show s) pc (buf s)
        (wg s) (in_closed s) (errors_closed s) (out_closed s) (deferred s)
        (started s) (exited s).
Definition with_buf (b : bytes) (s : state) : state :=
  State (env s) (pc_main s) (pc_out s) (pc_in s) (pc_show s) (pc_sink s) b
        (wg s) (in_closed s) (errors_closed s) (out_closed s) (deferred s)
        (started s) (exited s).
Definition with_wg (n : Z) (s : state) : state :=
  State (env s) (pc_main s) (pc_out s) (pc_in s) (pc_show s) (pc_sink s) (buf s)
        n (in_closed s) (errors_closed s) (out_closed s) (deferred s)
        (started s) (exited s).
Definition with_in_closed (b : bool) (s : state) : state :=
  State (env s) (pc_main s) (pc_out s) (pc_in s) (pc_show s) (pc_sink s) (buf s)
        (wg s) b (errors_closed s) (out_closed s) (deferred s)
        (started s) (exited s).
Definition with_errors_closed (b : bool) (s : state) : state :=
  State (env s) (pc_main s) (pc_out s) (pc_in s) (pc_show s) (pc_sink s) (buf s)
        (wg s) (in_closed s) b (out_closed s) (deferred s)
        (started s) (exited s).
Definition with_out_closed (b : bool) (s : state) : state :=
  State (env s) (pc_main s) (pc_out s) (pc_in s) (pc_show s) (pc_sink s) (buf s)
        (wg s) (in_closed s) (errors_closed s) b (deferred s)
        (started s) (exited s).
Definition with_deferred (ds : list deferred_call) (s : state) : state :=
  State (env s) (pc_main s) (pc_out s) (pc_in s) (pc_show s) (pc_sink s) (buf s)
        (wg s) (in_closed s) (errors_closed s) (out_closed s) ds
        (started s) (exited s).
Definition with_started (cs : list component) (s : state) : state :=
  State (env s) (pc_main s) (pc_out s) (pc_in s) (pc_show s) (pc_sink s) (buf s)
        (wg s) (in_closed s) (errors_closed s) (out_closed s) (deferred s)
        cs (exited s).
Definition with_exited (o : option outcome) (s : state) : state :=
  State (env s) (pc_main s) (pc_out s) (pc_in s) (pc_show s) (pc_sink s) (buf s)
        (wg s) (in_closed s) (errors_closed s) (out_closed s) (deferred s)
        (started s) o.

Definition finish (o : outcome) (s : state) : state :=
  match exited s with
  | Some _ => s
  | None => with_exited (Some o) s
  end.

(** One deferred call *)
Definition call_deferred (d : deferred_call) (s : state) : state :=
  match d with
  | Defer_ws_Close (Some _) => with_env (ws_Close (env s)) s
  | Defer_ws_Close None => finish (go_panic NilDereference) s
  | Defer_close_in => with_in_closed true s
  | Defer_close_errors => with_errors_closed true s
  | Defer_close_out => with_out_closed true s
  end.

Definition run_deferred (s : state) : state :=
  with_deferred [] (fold_left (fun s d => call_deferred d s) (deferred s) s).

(** The bytes a slice [msg[:n]] of [inLoop]'s buffer shows right now *)
Definition view (n : nat) (s : state) : bytes := take n (buf s).

Section Program.
Variable cfg : flags.
Variable paint : colour -> string -> string.
Variable arg0 : string.
Variable defaults_text : string.

Definition red := paint FgRed.
Definition magenta := paint FgMagenta.
Definition green := paint FgGreen.
Definition yellow := paint FgYellow.
Definition cyan := paint FgCyan.

(** The body of the loop of [func printErrors(errors <-chan error)] *)
Definition printErrors_turn (err : error) (w : world) : world * option outcome :=
  if decide (err = io_EOF) then
    (Fprintf_Stderr
       (CR +:+ "✝ " +:+ magenta (Error err)
           +:+ " - connection closed by remote" +:+ LF) w,
     Some (os_Exit 0))
  else
    let w := Fprintf_Stderr (CR +:+ "err " +:+ red (Error err) +:+ LF) w in
    (if negb (raw cfg) then Printf "> " w else w, None).

(** The body of the loop of [func printReceivedMessages(in <-chan []byte)] *)
Definition printReceivedMessages_turn (msg : bytes) (w : world) : world :=
  if raw cfg then Printf (to_string msg) w
  else Printf (CR +:+ "< " +:+ cyan (to_string msg) +:+ LF +:+ "> ") w.

(** The line [main] prints around the dial, with or without the
    subprotocol, and the confirmation it prints after it *)
Definition connecting_line : string :=
  if decide (protocol cfg ≠ "") then
    "connecting to " +:+ yellow (url cfg) +:+ " via "
      +:+ yellow (protocol cfg) +:+ " from "
      +:+ yellow (origin cfg) +:+ "..." +:+ LF
  else
    "connecting to " +:+ yellow (url cfg) +:+ " from "
      +:+ yellow (origin cfg) +:+ "..." +:+ LF.

Definition connected_line : string :=
  "successfully connected to " +:+ green (url cfg) +:+ LF +:+ LF.

(** [main] from its entry to its first blocking statement *)
Definition main_start (s : state) : state :=
  if displayVersion cfg then
    finish (os_Exit 0)
      (with_env (Printf (arg0 +:+ " version " +:+ Version +:+ LF) (env s)) s)
  else if displayHelp cfg then
    finish (os_Exit 0)
      (with_env
         (Fprintf_Stderr defaults_text
            (Printf ("Usage of " +:+ arg0 +:+ ":" +:+ LF) (env s))) s)
  else
    let '(ws, err, w) := dial cfg (url cfg) (protocol cfg) (origin cfg) (env s) in
    let w := if negb (raw cfg) then Printf connecting_line w else w in
    let s := with_deferred (Defer_ws_Close ws :: deferred s) (with_env w s) in
    match err with
    | Some err =>
        finish (go_panic (PanicError err)) (run_deferred s)
    | None =>
        let s :=
          if negb (raw cfg) then
            with_env (Printf connected_line (env s)) s
          else s in
        let s := with_deferred (Defer_close_in :: deferred s)
                   (with_wg (wg s + 1) s) in
        let s := with_deferred (Defer_close_errors :: deferred s)
                   (with_wg (wg s + 1) s) in
        if negb (raw cfg) then
          let s := with_deferred (Defer_close_out :: deferred s)
                     (with_wg (wg s + 1) s) in
          let s := with_started (started s ++ [OutboundWriter])
                     (with_pc_out O_recv s) in
          let s := with_started (started s ++ [OperatorInputLoop]) s in
          with_pc_main M_scan (with_env (Printf "> " (env s)) s)
        else
          with_pc_main M_go_inLoop s
    end.

Definition main_return (s : state) : state :=
  finish (os_Exit 0) (with_pc_main M_returned (run_deferred s)).

(** One step of one goroutine; [None] when it cannot move.  A send on an
    unbuffered channel is the sender's step and needs the receiver at
    its receive. *)
Definition step (t : thread) (s : state) : option state :=
  match exited s with
  | Some _ => None
  | None =>
      match t with
      | Main =>
          match pc_main s with
          | M_start => Some (main_start s)
          | M_scan =>
              match Scan (env s) with
              | Some (line, w) =>
                  Some (with_pc_main (M_send (to_bytes line)) (with_env w s))
              | None => Some (with_pc_main M_go_inLoop s)
              end
          | M_send msg =>
              if out_closed s then
                Some (finish (go_panic SendOnClosedChannel) s)
              else
                match pc_out s with
                | O_recv =>
                    Some (with_pc_main M_prompt (with_pc_out (O_write msg) s))
                | _ => None
                end
          | M_prompt =>
              Some (with_pc_main M_scan (with_env (Printf "> " (env s)) s))
          | M_go_inLoop =>
              Some (with_pc_main M_go_printReceivedMessages
                      (with_started (started s ++ [InboundReader])
                         (with_pc_in I_start s)))
          | M_go_printReceivedMessages =>
              Some (with_pc_main M_go_printErrors
                      (with_started (started s ++ [MessagePresenter])
                         (with_pc_show P_recv s)))
          | M_go_printErrors =>
              Some (with_pc_main M_wait
                      (with_started (started s ++ [ErrorSink])
                         (with_pc_sink E_recv s)))
          | M_wait =>
              if (wg s =? 0)%Z then Some (main_return s) else None
          | M_returned => None
          end
      | OutLoop =>
          match pc_out s with
          | O_recv =>
              if out_closed s then Some (with_pc_out O_returned s) else None
          | O_write msg =>
              let '(err, w) := ws_Write msg (env s) in
              match err with
              | Some err => Some (with_pc_out (O_send_err err) (with_env w s))
              | None => Some (with_pc_out O_recv (with_env w s))
              end
          | O_send_err err =>
              if errors_closed s then
                Some (finish (go_panic SendOnClosedChannel) s)
              else
                match pc_sink s with
                | E_recv =>
                    Some (with_pc_out O_recv (with_pc_sink (E_handle err) s))
                | _ => None
                end
          | _ => None
          end
      | InLoop =>
          match pc_in s with
          | I_start =>
              match make_bytes (bufSize cfg) with
              | Some msg => Some (with_pc_in I_read (with_buf msg s))
              | None => Some (finish (go_panic MakesliceLenOutOfRange) s)
              end
          | I_read =>
              match ws_Read (buf s) (env s) with
              | None => None
              | Some (n, Some err, msg, w) =>
                  Some (with_pc_in (I_send_err err) (with_buf msg (with_env w s)))
              | Some (n, None, msg, w) =>
                  Some (with_pc_in (I_send_msg n) (with_buf msg (with_env w s)))
              end
          | I_send_err err =>
              if errors_closed s then
                Some (finish (go_panic SendOnClosedChannel) s)
              else
                match pc_sink s with
                | E_recv =>
                    Some (with_pc_in I_read (with_pc_sink (E_handle err) s))
                | _ => None
                end
          | I_send_msg n =>
              if in_closed s then
                Some (finish (go_panic SendOnClosedChannel) s)
              else
                match pc_show s with
                | P_recv =>
                    Some (with_pc_in I_read (with_pc_show (P_print n) s))
                | _ => None
                end
          | I_idle => None
          end
      | PrintReceivedMessages =>
          match pc_show s with
          | P_recv =>
              if in_closed s then Some (with_pc_show P_returned s) else None
          | P_print n =>
              Some (with_pc_show P_recv
                      (with_env (printReceivedMessages_turn (view n s) (env s)) s))
          | _ => None
          end
      | PrintErrors =>
          match pc_sink s with
          | E_recv =>
              if errors_closed s then Some (with_pc_sink E_returned s) else None
          | E_handle err =>
              let '(w, o) := printErrors_turn err (env s) in
              let s := with_pc_sink E_recv (with_env w s) in
              Some (match o with Some o => finish o s | None => s end)
          | _ => None
          end
      end
  end.

Fixpoint run (sched : list thread) (s : state) : state :=
  match sched with
  | [] => s
  | t :: sched =>
      match step t s with
      | Some s' => run sched s'
      | None => run sched s
      end
  end.

Definition stuck (s : state) : Prop := forall t, step t s = None.

(** The message each goroutine holds between the scanner and the connection *)
Definition main_holds (s : state) : list bytes :=
  match pc_main s with M_send msg => [msg] | _ => [] end.
Definition out_holds (s : state) : list bytes :=
  match pc_out s with O_write msg => [msg] | _ => [] end.

(** The order in which [main] starts its tasks *)
Definition start_order : list component :=
  (if raw cfg then [] else [OutboundWriter; OperatorInputLoop])
    ++ [InboundReader; MessagePresenter; ErrorSink].

(** The messages [printReceivedMessages] renders along a schedule, each
    as its slice shows it when the [fmt.Printf] runs *)
Fixpoint shown (sched : list thread) (s : state) : list bytes :=
  match sched with
  | [] => []
  | t :: sched =>
      match step t s with
      | Some s' =>
          match t, pc_show s with
          | PrintReceivedMessages, P_print n => view n s :: shown sched s'
          | _, _ => shown sched s'
          end
      | None => shown sched s
      end
  end.

(** The ways [main_start] leaves a fresh state [s] *)
Inductive started_as (s : state) : state -> Prop :=
| start_version :
    displayVersion cfg = true ->
    started_as s
      (with_exited (Some (os_Exit 0))
         (with_env (Printf (arg0 +:+ " version " +:+ Version +:+ LF) (env s)) s))
| start_help :
    displayVersion cfg = false -> displayHelp cfg = true ->
    started_as s
      (with_exited (Some (os_Exit 0))
         (with_env (Fprintf_Stderr defaults_text
                      (Printf ("Usage of " +:+ arg0 +:+ ":" +:+ LF) (env s))) s))
| start_dial_failed w1 e :
    displayVersion cfg = false -> displayHelp cfg = false ->
    config_err (env s) = Some e \/ dial_err (env s) = Some e ->
    same_wire (env s) w1 -> opened w1 = opened (env s) ->
    stderr w1 = stderr (env s) ->
    stdout w1 = stdout (env s)
                  ++ (if raw cfg then [] else to_bytes connecting_line) ->
    started_as s
      (State w1 (pc_main s) (pc_out s) (pc_in s) (pc_show s) (pc_sink s)
             (buf s) (wg s) (in_closed s) (errors_closed s) (out_closed s) []
             (started s) (Some (go_panic NilDereference)))
| start_raw w1 :
    displayVersion cfg = false -> displayHelp cfg = false ->
    config_err (env s) = None -> dial_err (env s) = None ->
    raw cfg = true ->
    same_wire (env s) w1 -> opened w1 = S (opened (env s)) ->
    stderr w1 = stderr (env s) -> stdout w1 = stdout (env s) ->
    started_as s
      (State w1 M_go_inLoop (pc_out s) (pc_in s) (pc_show s) (pc_sink s)
             (buf s) (wg s + 1 + 1) (in_closed s) (errors_closed s)
             (out_closed s)
             [Defer_close_errors; Defer_close_in;
              Defer_ws_Close (Some (opened (env s)))]
             (started s) None)
| start_interactive w1 :
    displayVersion cfg = false -> displayHelp cfg = false ->
    config_err (env s) = None -> dial_err (env s) = None ->
    raw cfg = false ->
    same_wire (env s) w1 -> opened w1 = S (opened (env s)) ->
    stderr w1 = stderr (env s) ->
    stdout w1 = stdout (env s) ++ to_bytes connecting_line
                  ++ to_bytes connected_line ++ to_bytes "> " ->
    started_as s
      (State w1 M_scan O_recv (pc_in s) (pc_show s) (pc_sink s)
             (buf s) (wg s + 1 + 1 + 1) (in_closed s) (errors_closed s)
             (out_closed s)
             [Defer_close_out; Defer_close_errors; Defer_close_in;
              Defer_ws_Close (Some (opened (env s)))]
             (started s ++ [OutboundWriter; OperatorInputLoop]) None).

(** *** Invariants of the reachable states *)

(** Until [main] has moved, the state is the initial one. *)
Definition fresh (w0 : world) (s : state) : Prop :=
  pc_main s = M_start -> exited s = None -> s = init w0.

(** [main] never gets past [wg.Wait()]: nothing is closed, no loop ends. *)
Definition lifecycle (w0 : world) (s : state) : Prop :=
  in_closed s = false /\ errors_closed s = false /\ out_closed s = false /\
  pc_main s <> M_returned /\ pc_out s <> O_returned /\
  pc_show s <> P_returned /\ pc_sink s <> E_returned /\
  closed (env s) = closed w0 /\
  (pc_main s <> M_start -> (2 <= wg s)%Z) /\
  opened (env s) <= S (opened w0).

(** The buffer [inLoop] reads into has [bufSize] bytes, and the slice it
    sends lies within it. *)
Definition buffer_ok (s : state) : Prop :=
  match pc_in s with
  | I_read | I_send_err _ =>
      length (buf s) = Z.to_nat (bufSize cfg) /\ (0 <= bufSize cfg)%Z
  | I_send_msg n =>
      length (buf s) = Z.to_nat (bufSize cfg) /\ (0 <= bufSize cfg)%Z /\
      n <= length (buf s)
  | _ => True
  end.

(** Every line typed is, in order, written, held by [outLoop], held by
    [main], or still to be scanned. *)
Definition lines_kept (w0 : world) (s : state) : Prop :=
  written w0 ++ (to_bytes <$> stdin w0)
  = written (env s) ++ out_holds s ++ main_holds s ++ (to_bytes <$> stdin (env s)).

(** What [main] prints before it starts anything *)
Definition banner : bytes :=
  if raw cfg then []
  else to_bytes connecting_line ++ to_bytes connected_line.

(** What [main] has started, by where it stands *)
Definition order_inv (w0 : world) (s : state) : Prop :=
  started s =
    match pc_main s with
    | M_start => []
    | M_scan | M_send _ | M_prompt => [OutboundWriter; OperatorInputLoop]
    | M_go_inLoop =>
        if raw cfg then [] else [OutboundWriter; OperatorInputLoop]
    | M_go_printReceivedMessages =>
        (if raw cfg then [] else [OutboundWriter; OperatorInputLoop])
          ++ [InboundReader]
    | M_go_printErrors =>
        (if raw cfg then [] else [OutboundWriter; OperatorInputLoop])
          ++ [InboundReader; MessagePresenter]
    | M_wait | M_returned => start_order
    end /\
  match pc_main s with
  | M_scan | M_send _ | M_prompt => raw cfg = false
  | _ => True
  end /\
  (pc_main s <> M_start -> (stdout w0 ++ banner) `prefix_of` stdout (env s)).

(** While [main] is in its input loop the error sink does not exist yet. *)
Definition sink_dormant (w0 : world) (s : state) : Prop :=
  match pc_main s with
  | M_start => pc_sink s = E_idle
  | M_scan | M_send _ | M_prompt
  | M_go_inLoop | M_go_printReceivedMessages | M_go_printErrors =>
      pc_sink s = E_idle /\ stderr (env s) = stderr w0
  | _ => True
  end.

(** With a quiet remote the process never ends. *)
Definition alive (s : state) : Prop :=
  exited s = None /\ quiet (env s) /\
  pc_in s <> I_send_err io_EOF /\ pc_out s <> O_send_err io_EOF /\
  pc_sink s <> E_handle io_EOF.

(** Once [main] has moved in an interactive session, the prompt is the
    last thing on standard output. *)
Definition prompted (w0 : world) (s : state) : Prop :=
  s = init w0 \/ to_bytes "> " `suffix_of` stdout (env s).

(** In raw mode nobody reads the operator input and [outLoop] does not
    exist. *)
Definition input_untouched (w0 : world) (s : state) : Prop :=
  stdin (env s) = stdin w0 /\ written (env s) = written w0 /\
  wresults (env s) = wresults w0 /\ pc_out s = O_idle.

(** In an interactive session none of the inbound tasks exists before
    [main] has left its input loop, and [main] leaves it with the input
    used up. *)
Definition reader_waits (w0 : world) (s : state) : Prop :=
  match pc_main s with
  | M_start | M_scan | M_send _ | M_prompt =>
      pc_in s = I_idle /\ pc_show s = P_idle /\ pc_sink s = E_idle /\
      inbound (env s) = inbound w0 /\ delivered (env s) = delivered w0
  | _ => stdin (env s) = []
  end.

(** With a [bufSize] that [make] refuses, [inLoop] does not get to a read. *)
Definition never_reads (w0 : world) (s : state) : Prop :=
  (pc_in s = I_idle \/ pc_in s = I_start) /\
  pc_show s <> P_returned /\ (forall n, pc_show s <> P_print n) /\
  inbound (env s) = inbound w0 /\ delivered (env s) = delivered w0.

(** The ways the process ends by itself, and what each of them takes: in
    the first step of [main] by [-version], [-help] or a failed dial;
    afterwards by an [io.EOF] from the remote, with the notice of
    [printErrors] the last thing on standard error, or by a buffer that
    cannot be made.  An [io.EOF] on its way to the sink counts as reported
    by the remote. *)
Definition outcomes (w0 : world) (s : state) : Prop :=
  (quiet w0 ->
   quiet (env s) /\ pc_in s <> I_send_err io_EOF /\
   pc_out s <> O_send_err io_EOF /\ pc_sink s <> E_handle io_EOF) /\
  (pc_main s <> M_start ->
   displayVersion cfg = false /\ displayHelp cfg = false /\
   config_err w0 = None /\ dial_err w0 = None) /\
  match exited s with
  | None => True
  | Some (os_Exit code) =>
      code = 0%Z /\
      ((pc_main s = M_start /\
        (displayVersion cfg = true \/ displayHelp cfg = true)) \/
       (~ quiet w0 /\
        to_bytes (closure_notice paint) `suffix_of` stderr (env s)))
  | Some (go_panic NilDereference) =>
      pc_main s = M_start /\
      displayVersion cfg = false /\ displayHelp cfg = false /\
      (config_err w0 <> None \/ dial_err w0 <> None)
  | Some (go_panic MakesliceLenOutOfRange) =>
      make_bytes (bufSize cfg) = None
  | Some (go_panic _) => False
  end.

(** Who is there to take what: while [main] is in its input loop
    [outLoop] runs, and [main] starts the three inbound tasks one after
    the other before it waits. *)
Definition paired (s : state) : Prop :=
  match pc_main s with
  | M_scan | M_send _ | M_prompt =>
      pc_out s = O_recv \/ (exists msg, pc_out s = O_write msg) \/
      (exists err, pc_out s = O_send_err err)
  | M_go_printReceivedMessages => pc_in s <> I_idle
  | M_go_printErrors => pc_in s <> I_idle /\ pc_show s <> P_idle
  | M_wait | M_returned =>
      pc_in s <> I_idle /\ pc_show s <> P_idle /\ pc_sink s <> E_idle
  | _ => True
  end.

(** [main] has left its input loop: [scanner.Scan()] has reported the end
    of the operator input (in raw mode there is no such loop). *)
Definition input_ended (s : state) : bool :=
  match pc_main s with
  | M_start | M_scan | M_send _ | M_prompt => false
  | _ => true
  end.

(** *** The process at rest, and the Go runtime's view of it *)

(** A goroutine that cannot move *)
Definition blocked (t : thread) (s : state) : bool :=
  match step t s with
  | None => true
  | Some _ => false
  end.

(** A goroutine waits for the outside: [main] for the operator at
    [scanner.Scan()], [inLoop] for the remote at [ws.Read]. *)
Definition awaits_input (s : state) : bool :=
  match pc_main s, pc_in s with
  | M_scan, _ => true
  | _, I_read => true
  | _, _ => false
  end.

(** "all goroutines are asleep": the process has not ended, no goroutine
    can move and none waits for the outside. *)
Definition asleep (s : state) : bool :=
  match exited s with
  | Some _ => false
  | None =>
      blocked Main s && blocked OutLoop s && blocked InLoop s
        && blocked PrintReceivedMessages s && blocked PrintErrors s
        && negb (awaits_input s)
  end.

Definition fate_of (s : state) : fate :=
  match exited s with
  | Some o => Ends o
  | None => if asleep s then Aborts else Runs
  end.

(** The process is at rest: it has not ended and nothing moves until the
    outside does something.  A [main] at [scanner.Scan()] is at rest
    while the operator types nothing. *)
Definition at_rest (s : state) : Prop :=
  exited s = None /\
  forall t, step t s = None \/ (t = Main /\ pc_main s = M_scan).
End Program.

End Channels.

(** ** The order of task starts as the specification words it *)

Module Stated.
Import Go.

(** "starts, in order: the error sink, the inbound reader, the message
    presenter; if not raw mode, also the outbound writer and the operator
    input loop" *)
Definition start_order (cfg : flags) : list component :=
  [ErrorSink; InboundReader; MessagePresenter]
    ++ (if raw cfg then [] else [OutboundWriter; OperatorInputLoop]).

End Stated.

(** ** Concrete sessions *)

Module Scenario.
Import Go.

(** Colours switched off *)
Definition plain (c : colour) (text : string) : string := text.

(** The default flags, and the default flags with [-raw] *)
Definition interactive_flags : flags := default_flags.
Definition raw_flags : flags :=
  Flags (origin default_flags) (url default_flags) (protocol default_flags)
        (userAgent default_flags) false false (bufSize default_flags)
        (insecureSkipVerify default_flags) true.

(** A world where the dial succeeds, with the given operator input, remote
    behaviour and write results *)
Definition session (lines : list string) (remote : list (bytes + error))
    (results : list (option error)) : world :=
  World lines [] [] None None [] remote results [] [] 0 0.

(** Nothing typed, nothing received *)
Definition silent : world := session [] [] [].

(** The remote closes the connection right after the handshake. *)
Definition remote_closes : world := session [] [inr io_EOF] [].

(** Two frames arrive back to back. *)
Definition ping_pong : world :=
  session [] [inl (to_bytes "ping"); inl (to_bytes "pong")] [].

(** The operator types two lines and the first write fails. *)
Definition broken_pipe : error := errors_New "write: broken pipe".
Definition write_fails : world :=
  session ["a"; "b"] [] [Some broken_pipe].

(** A frame of nine bytes for a buffer of four *)
Definition small_raw_flags : flags :=
  Flags (origin default_flags) (url default_flags) (protocol default_flags)
        (userAgent default_flags) false false 4
        (insecureSkipVerify default_flags) true.
Definition long_frame : world :=
  session [] [inl (to_bytes "pingpong!")] [].

(** [-version] together with [-help], and [-help] alone *)
Definition version_flags : flags :=
  Flags (origin default_flags) (url default_flags) (protocol default_flags)
        (userAgent default_flags) true true (bufSize default_flags)
        (insecureSkipVerify default_flags) false.
Definition help_flags : flags :=
  Flags (origin default_flags) (url default_flags) (protocol default_flags)
        (userAgent default_flags) true false (bufSize default_flags)
        (insecureSkipVerify default_flags) false.

(** A subprotocol, a User-Agent and no certificate check *)
Definition custom_flags : flags :=
  Flags "https://example.org" "wss://example.org/ws" "chat" "wsd/0.1.0"
        false false 1024 true false.

(** Raw mode with a negative and with a zero buffer size *)
Definition negative_raw_flags : flags :=
  Flags (origin default_flags) (url default_flags) (protocol default_flags)
        (userAgent default_flags) false false (-1)
        (insecureSkipVerify default_flags) true.
Definition zero_raw_flags : flags :=
  Flags (origin default_flags) (url default_flags) (protocol default_flags)
        (userAgent default_flags) false false 0
        (insecureSkipVerify default_flags) true.

(** Nobody listens at the address. *)
Definition refused : world :=
  World [] [] [] None (Some (errors_New "connection refused")) [] [] [] [] []
        0 0.

(** A frame, a read error, a frame *)
Definition ping_error_pong : world :=
  session []
    [inl (to_bytes "ping"); inr broken_pipe; inl (to_bytes "pong")] [].

(** Two read errors, then a frame *)
Definition flaky : world :=
  session [] [inr broken_pipe; inr io_ErrUnexpectedEOF; inl (to_bytes "ping")]
    [].

(** The operator types two lines while a frame is pending. *)
Definition chat : world := session ["a"; "b"] [inl (to_bytes "ping")] [].

(** Schedules that bring the inbound path to its first read, the error
    sink of [Channels] to an error in hand, its presenter to a message in
    hand *)
Definition direct_to_read : list Direct.thread :=
  [Direct.Main; Direct.Main; Direct.InLoop].
Definition channels_to_read : list Channels.thread :=
  [Channels.Main; Channels.Main; Channels.Main; Channels.Main; Channels.InLoop].
Definition channels_to_handle : list Channels.thread :=
  channels_to_read ++ [Channels.InLoop; Channels.InLoop].
Definition channels_to_print : list Channels.thread :=
  channels_to_read ++ [Channels.InLoop; Channels.InLoop].

(** What the states of [Channels] on [write_fails] have in common: [main]
    is still in its input loop, no task but [outLoop] exists, and nothing
    was reported. *)
Definition jammed_out (s : Channels.state) : Prop :=
  (Channels.pc_out s = Channels.O_write (to_bytes "a") /\
   wresults (Channels.env s) = [Some broken_pipe] /\
   written (Channels.env s) = []) \/
  (Channels.pc_out s = Channels.O_send_err broken_pipe /\
   written (Channels.env s) = [to_bytes "a"]).

Definition before_write (s : Channels.state) : Prop :=
  Channels.pc_out s = Channels.O_recv /\
  wresults (Channels.env s) = [Some broken_pipe] /\
  written (Channels.env s) = [].

Definition write_error_jam (s : Channels.state) : Prop :=
  Channels.exited s = None /\ Channels.pc_sink s = Channels.E_idle /\
  Channels.pc_in s = Channels.I_idle /\ Channels.pc_show s = Channels.P_idle /\
  stderr (Channels.env s) = [] /\
  Channels.errors_closed s = false /\ Channels.out_closed s = false /\
  match Channels.pc_main s with
  | Channels.M_start => s = Channels.init write_fails
  | Channels.M_scan =>
      (stdin (Channels.env s) = ["a"; "b"] /\ before_write s) \/
      (stdin (Channels.env s) = ["b"] /\ jammed_out s)
  | Channels.M_send msg =>
      (msg = to_bytes "a" /\ stdin (Channels.env s) = ["b"] /\ before_write s) \/
      (msg = to_bytes "b" /\ stdin (Channels.env s) = [] /\ jammed_out s)
  | Channels.M_prompt => stdin (Channels.env s) = ["b"] /\ jammed_out s
  | _ => False
  end.

End Scenario.

(** * Properties *)

Import Go.

(** Turns boolean tests and trivially true premises into usable facts. *)
Ltac inv_facts :=
  destruct_and?;
  repeat match goal with
    | H : ?x = ?x -> _ |- _ => specialize (H eq_refl)
    | H : ?x <> ?y -> _ |- _ =>
        let D := fresh in
        assert (D : x <> y) by discriminate; specialize (H D); clear D
    | H : negb _ = true |- _ => apply negb_true_iff in H
    | H : negb _ = false |- _ => apply negb_false_iff in H
    | H : (_ =? _)%Z = true |- _ => apply Z.eqb_eq in H
    | H : (_ =? _)%Z = false |- _ => apply Z.eqb_neq in H
    | H : (_ <? _)%Z = true |- _ => apply Z.ltb_lt in H
    | H : (_ <? _)%Z = false |- _ => apply Z.ltb_ge in H
    end;
  destruct_and?.

Ltac inv_done :=
  destruct_and?; repeat split; intros; simplify_eq; inv_facts;
  try done; try lia; eauto.

(** ** The library surface *)

Lemma to_bytes_to_string (b : bytes) : to_bytes (to_string b) = b.
Proof. apply list_byte_of_string_of_list_byte. Qed.

Lemma to_bytes_app (a b : string) : to_bytes (a +:+ b) = to_bytes a ++ to_bytes b.
Proof.
  unfold to_bytes, list_byte_of_string. induction a as [|c a IH]; [done|].
  change (String c a +:+ b) with (String c (a +:+ b)). simpl. by rewrite IH.
Qed.

#[local] Opaque to_bytes.
#[local] Arguments String.app : simpl never.
#[local] Arguments decide : simpl never.

Lemma same_wire_refl w : same_wire w w.
Proof. by repeat split. Qed.

Lemma dial_spec cfg u p o w ws err w' :
  dial cfg u p o w = (ws, err, w') ->
  same_wire w w' /\ stdout w' = stdout w /\ stderr w' = stderr w /\
  ((err = None /\ ws = Some (opened w) /\ opened w' = S (opened w) /\
    config_err w = None /\ dial_err w = None) \/
   (exists e, err = Some e /\ ws = None /\ opened w' = opened w /\
      (config_err w = Some e \/ dial_err w = Some e))).
Proof.
  unfold dial, websocket_NewConfig, websocket_DialConfig, same_wire. intros H.
  destruct (config_err w) eqn:Ec.
  - simplify_eq. repeat split; try done. right. eauto 10.
  - destruct (dial_err w) eqn:Ed; simplify_eq; simpl; repeat split; try done.
    + right. eauto 10.
    + left. done.
Qed.

(** What [ws.Read] returns for pending frame data: the first bytes of the
    data, as many as the buffer has, in the front of the buffer. *)
Lemma ws_Read_data msg data rest w :
  inbound w = inl data :: rest ->
  exists w',
    ws_Read msg w
    = Some (length (take (length msg) data), None,
            take (length msg) data ++ drop (length (take (length msg) data)) msg, w') /\
    stdout w' = stdout w /\ stderr w' = stderr w /\ stdin w' = stdin w /\
    wresults w' = wresults w /\ written w' = written w /\
    closed w' = closed w /\ opened w' = opened w /\
    delivered w' = delivered w ++ [take (length msg) data] /\
    inbound w' = match drop (length msg) data with
                 | [] => rest
                 | _ :: _ => inl (drop (length msg) data) :: rest
                 end.
Proof.
  intros E. unfold ws_Read. rewrite E. eexists. split; [done|]. simpl.
  repeat split; try done.
Qed.

Lemma ws_Read_error msg e rest w :
  inbound w = inr e :: rest ->
  exists w',
    ws_Read msg w = Some (0, Some e, msg, w') /\
    stdout w' = stdout w /\ stderr w' = stderr w /\ stdin w' = stdin w /\
    wresults w' = wresults w /\ written w' = written w /\
    closed w' = closed w /\ opened w' = opened w /\
    delivered w' = delivered w /\ inbound w' = rest.
Proof.
  intros E. unfold ws_Read. rewrite E. eexists. split; [done|]. by simpl.
Qed.

(** The buffer keeps its length, and the slice [msg[:n]] is the chunk. *)
Lemma read_into_length (msg data : bytes) :
  length (take (length msg) data ++ drop (length (take (length msg) data)) msg)
  = length msg.
Proof.
  rewrite length_app, length_drop, length_take. lia.
Qed.

Lemma read_into_slice (msg data : bytes) :
  take (length (take (length msg) data))
       (take (length msg) data ++ drop (length (take (length msg) data)) msg)
  = take (length msg) data.
Proof. by rewrite take_app_length. Qed.

Lemma make_bytes_length n msg :
  make_bytes n = Some msg -> length msg = Z.to_nat n /\ (0 <= n)%Z.
Proof.
  unfold make_bytes. destruct (Z.ltb_spec n 0); [done|].
  destruct (maxAlloc <? n)%Z; [done|].
  intros [= <-]. by rewrite length_replicate.
Qed.

(** [make] refuses a length exactly when it is negative or beyond the
    limit. *)
Lemma make_bytes_refuses n :
  make_bytes n = None <-> (n < 0 \/ maxAlloc < n)%Z.
Proof.
  unfold make_bytes.
  destruct (Z.ltb_spec n 0), (Z.ltb_spec maxAlloc n); simpl;
    split; try done; try tauto; intros [?|?]; lia.
Qed.


(** ** [src/main.go] *)

Section DirectStart.
Import Direct.
Variable cfg : flags.
Variable paint : colour -> string -> string.
Variables arg0 defaults_text : string.

#[local] Abbreviation step := (Direct.step cfg paint arg0 defaults_text).
#[local] Abbreviation run := (Direct.run cfg paint arg0 defaults_text).
#[local] Abbreviation main_start := (Direct.main_start cfg paint arg0 defaults_text).
#[local] Abbreviation started_as := (Direct.started_as cfg paint arg0 defaults_text).

Lemma direct_run_invariant (P : state -> Prop) :
  (forall t s s', P s -> step t s = Some s' -> P s') ->
  forall sched s, P s -> P (run sched s).
Proof.
  intros Hstep sched.
  induction sched as [|t sched IH]; intros s Hs; simpl; [done|].
  destruct (step t s) as [s'|] eqn:E; eauto.
Qed.

Lemma direct_run_app sched1 sched2 s :
  run (sched1 ++ sched2) s = run sched2 (run sched1 s).
Proof.
  revert s. induction sched1 as [|t sched1 IH]; intros s; simpl; [done|].
  by destruct (step t s).
Qed.

Lemma direct_main_start_cases s :
  deferred s = [] -> exited s = None -> started_as s (main_start s).
Proof.
  intros Hd He. unfold Direct.main_start.
  destruct (displayVersion cfg) eqn:EV.
  { unfold finish. simpl. rewrite He. by constructor. }
  destruct (displayHelp cfg) eqn:EH.
  { unfold finish. simpl. rewrite He. by constructor. }
  destruct (dial _ _ _ _ _) as [[ws err] w'] eqn:Hdial.
  apply dial_spec in Hdial.
  destruct Hdial as (Hw & Ho & He' & [(->&->&?&?&?)|(e&->&->&?&?)]).
  - destruct (raw cfg) eqn:ER; simpl.
    + destruct s; simpl in *. subst.
      match goal with |- Direct.started_as _ _ _ _ ?s _ =>
        by apply (start_raw _ _ _ _ s w') end.
    + destruct s; simpl in *. subst. rewrite <- app_assoc.
      match goal with |- Direct.started_as _ _ _ _ ?s _ =>
        apply (start_interactive _ _ _ _ s
                 (Printf "> " (Printf (connected_line cfg paint)
                                 (Printf (connecting_line cfg paint) w'))))
      end; try done.
      simpl. rewrite Ho. by rewrite <- !app_assoc.
  - unfold finish, run_deferred. destruct s; simpl in *. subst. simpl.
    match goal with |- Direct.started_as _ _ _ _ ?s _ =>
      apply (start_dial_failed _ _ _ _ s
               (if negb (raw cfg) then Printf (connecting_line cfg paint) w'
                else w') e)
    end; try done; destruct (raw cfg); simpl; try done.
    all: rewrite Ho; by rewrite ?app_nil_r.
Qed.

End DirectStart.

(** Unfolds one step of a destructed state into its cases. *)
Ltac direct_step Hs :=
  unfold Direct.step in Hs; simpl in Hs;
  unfold Direct.outLoop_turn, Direct.inLoop_turn, Direct.report,
    Direct.printError, Direct.printReceivedMessage,
    ws_Read, ws_Write, Scan, Direct.wg_Done, Direct.main_return,
    Direct.finish in Hs;
  simpl in Hs;
  repeat match type of Hs with
    | context [match ?x with _ => _ end] =>
        lazymatch x with
        | context [match _ with _ => _ end] => fail
        | _ => destruct x eqn:?; simpl in Hs
        end
    end;
  simplify_eq.

(** Case analysis of one step for an invariant proof: the first step of
    [main] by [direct_main_start_cases], the others by computation. *)
Ltac direct_inv w0 Hf Hs :=
  let Hex := fresh "Hex" in
  let Hpm := fresh "Hpm" in
  let Hw := fresh "Hw" in
  match type of Hs with
  | Direct.step ?cfg ?paint ?arg0 ?defaults_text ?t ?s = Some _ =>
      destruct (Direct.exited s) eqn:Hex;
      [by unfold Direct.step in Hs; rewrite Hex in Hs|];
      destruct t; [destruct (Direct.pc_main s) eqn:Hpm|..];
      [ specialize (Hf eq_refl eq_refl); subst s;
        unfold Direct.step in Hs; simpl in Hs; injection Hs as <-;
        destruct (direct_main_start_cases cfg paint arg0 defaults_text
                    (Direct.init w0) eq_refl eq_refl)
          as [?|? ?|? ? ? ? ? Hw ? ? ?|? ? ? ? ? ? Hw ? ? ?|? ? ? ? ? ? Hw ? ? ?];
        try destruct Hw as (?&?&?&?&?&?); simpl in *
      | destruct s; direct_step Hs .. ]
  end.

Section DirectInvariants.
Import Direct.
Variable cfg : flags.
Variable paint : colour -> string -> string.
Variables arg0 defaults_text : string.

#[local] Abbreviation step := (Direct.step cfg paint arg0 defaults_text).
#[local] Abbreviation run := (Direct.run cfg paint arg0 defaults_text).
#[local] Abbreviation main_start := (Direct.main_start cfg paint arg0 defaults_text).
#[local] Abbreviation started_as := (Direct.started_as cfg paint arg0 defaults_text).

Lemma direct_fresh_step w0 t s s' :
  fresh w0 s -> step t s = Some s' -> fresh w0 s'.
Proof.
  intros Hf Hs. unfold fresh in Hf.
  direct_inv w0 Hf Hs; unfold fresh, init in *; simpl in *; inv_done.
Qed.

(** [main] never returns from [wg.Wait()], so no deferred call ever runs
    after a successful dial. *)
Lemma direct_lifecycle_step w0 t s s' :
  fresh w0 s -> lifecycle w0 s -> step t s = Some s' -> lifecycle w0 s'.
Proof.
  intros Hf H Hs. unfold fresh in Hf.
  direct_inv w0 Hf Hs; unfold lifecycle, init in *; simpl in *; inv_done.
Qed.

Lemma direct_buffer_step w0 t s s' :
  fresh w0 s -> lifecycle w0 s -> buffer_ok cfg s ->
  step t s = Some s' -> buffer_ok cfg s'.
Proof.
  intros Hf Hl H Hs. unfold fresh in Hf.
  direct_inv w0 Hf Hs; unfold lifecycle, buffer_ok, init in *; simpl in *;
    inv_done.
  all: rewrite ?read_into_length; try done.
  all: match goal with H : make_bytes _ = Some _ |- _ =>
         apply make_bytes_length in H end; inv_done.
Qed.

Lemma direct_lines_step w0 t s s' :
  fresh w0 s -> lifecycle w0 s -> lines_kept w0 s ->
  step t s = Some s' -> lines_kept w0 s'.
Proof.
  intros Hf Hl H Hs. unfold fresh in Hf.
  direct_inv w0 Hf Hs;
    unfold lifecycle, lines_kept, main_holds, out_holds, init in *;
    simpl in *; simplify_eq; inv_facts; simplify_eq; simpl in *;
    rewrite ?app_nil_r in *; try done; try lia; try congruence.
  all: repeat match goal with E : stdin _ = _ |- _ => rewrite E in * end.
  all: try (rewrite H; simpl; by rewrite <- ?app_assoc).
Qed.
Lemma direct_order_step w0 t s s' :
  fresh w0 s -> lifecycle w0 s -> order_inv cfg paint w0 s ->
  step t s = Some s' -> order_inv cfg paint w0 s'.
Proof.
  intros Hf Hl H Hs. unfold fresh in Hf.
  direct_inv w0 Hf Hs;
    unfold lifecycle, order_inv, start_order, init in *;
    simpl in *; simplify_eq; inv_facts; simplify_eq; simpl in *; try lia.
  all: repeat match goal with E : raw cfg = _ |- _ => rewrite E in * end.
  all: repeat split; intros; simplify_eq; inv_facts; try done.
  all: try (by auto using prefix_app_r).
  all: unfold banner;
    repeat match goal with E : raw cfg = _ |- _ => rewrite E in * end.
  all: match goal with E : stdout _ = _ |- _ => rewrite E end.
  all: rewrite ?app_nil_r; try done.
  apply prefix_app, prefix_app, prefix_app_r. done.
Qed.

Lemma direct_raw_out_step w0 t s s' :
  raw cfg = true -> displayVersion cfg = false -> displayHelp cfg = false ->
  fresh w0 s -> lifecycle w0 s -> order_inv cfg paint w0 s -> raw_out w0 s ->
  step t s = Some s' -> raw_out w0 s'.
Proof.
  intros Hraw HV HH Hf Hl Ho [chunks [Hd Hout]] Hs. unfold fresh in Hf.
  direct_inv w0 Hf Hs;
    unfold lifecycle, order_inv, raw_out, init in *;
    simpl in *; simplify_eq; inv_facts; simplify_eq; simpl in *; try lia;
    try congruence.
  all: try (by exists chunks).
  all: try (exists []; rewrite !app_nil_r; split; [congruence|]; try done).
  all: try match goal with
         | |- context [take (length ?m) ?d] =>
             exists (chunks ++ [take (length m) d]);
             rewrite read_into_slice, concat_app, Hd, Hout; simpl;
             by rewrite !app_nil_r, <- !app_assoc
         end.
  match goal with E : stdout _ = _ |- _ => rewrite E end.
  by rewrite Hraw, app_nil_r.
Qed.

(** Every state a schedule leads to from the initial one *)
Lemma direct_reachable w0 sched :
  let s := run sched (init w0) in
  fresh w0 s /\ lifecycle w0 s /\ buffer_ok cfg s /\ lines_kept w0 s /\
  order_inv cfg paint w0 s.
Proof.
  apply (direct_run_invariant cfg paint arg0 defaults_text
           (fun s => fresh w0 s /\ lifecycle w0 s /\ buffer_ok cfg s /\
                     lines_kept w0 s /\ order_inv cfg paint w0 s)).
  - intros t s s' (Hf & Hl & Hb & Hk & Ho) Hs.
    eauto 10 using direct_fresh_step, direct_lifecycle_step,
      direct_buffer_step, direct_lines_step, direct_order_step.
  - repeat split; simpl; try done; try lia.
Qed.

Lemma direct_raw_reachable w0 sched :
  raw cfg = true -> displayVersion cfg = false -> displayHelp cfg = false ->
  raw_out w0 (run sched (init w0)).
Proof.
  intros Hraw HV HH.
  assert (fresh w0 (run sched (init w0)) /\ lifecycle w0 (run sched (init w0)) /\
          order_inv cfg paint w0 (run sched (init w0)) /\
          raw_out w0 (run sched (init w0))) as (_ & _ & _ & H); [|done].
  apply (direct_run_invariant cfg paint arg0 defaults_text
           (fun s => fresh w0 s /\ lifecycle w0 s /\ order_inv cfg paint w0 s /\
                     raw_out w0 s)).
  - intros t s s' (Hf & Hl & Ho & Hr) Hs.
    eauto 10 using direct_fresh_step, direct_lifecycle_step,
      direct_order_step, direct_raw_out_step.
  - repeat split; simpl; try done; try lia.
    exists []. by rewrite !app_nil_r.
Qed.

End DirectInvariants.

(** ** [src/unnamed/part_000] *)

Section ChannelsStart.
Import Channels.
Variable cfg : flags.
Variable paint : colour -> string -> string.
Variables arg0 defaults_text : string.

#[local] Abbreviation cstep := (Channels.step cfg paint arg0 defaults_text).
#[local] Abbreviation crun := (Channels.run cfg paint arg0 defaults_text).
#[local] Abbreviation cmain_start :=
  (Channels.main_start cfg paint arg0 defaults_text).
#[local] Abbreviation cstarted_as :=
  (Channels.started_as cfg paint arg0 defaults_text).

Lemma channels_run_invariant (P : state -> Prop) :
  (forall t s s', P s -> cstep t s = Some s' -> P s') ->
  forall sched s, P s -> P (crun sched s).
Proof.
  intros Hstep sched.
  induction sched as [|t sched IH]; intros s Hs; simpl; [done|].
  destruct (cstep t s) as [s'|] eqn:E; eauto.
Qed.

Lemma channels_run_app sched1 sched2 s :
  crun (sched1 ++ sched2) s = crun sched2 (crun sched1 s).
Proof.
  revert s. induction sched1 as [|t sched1 IH]; intros s; simpl; [done|].
  by destruct (cstep t s).
Qed.

Lemma channels_main_start_cases s :
  deferred s = [] -> exited s = None -> cstarted_as s (cmain_start s).
Proof.
  intros Hd He. unfold Channels.main_start.
  destruct (displayVersion cfg) eqn:EV.
  { unfold finish. simpl. rewrite He. by constructor. }
  destruct (displayHelp cfg) eqn:EH.
  { unfold finish. simpl. rewrite He. by constructor. }
  destruct (dial _ _ _ _ _) as [[ws err] w'] eqn:Hdial.
  apply dial_spec in Hdial.
  destruct Hdial as (Hw & Ho & He' & [(->&->&?&?&?)|(e&->&->&?&?)]).
  - destruct (raw cfg) eqn:ER; simpl.
    + destruct s; simpl in *. subst.
      match goal with |- Channels.started_as _ _ _ _ ?s _ =>
        by apply (start_raw _ _ _ _ s w') end.
    + destruct s; simpl in *. subst. rewrite <- app_assoc.
      match goal with |- Channels.started_as _ _ _ _ ?s _ =>
        apply (start_interactive _ _ _ _ s
                 (Printf "> " (Printf (connected_line cfg paint)
                                 (Printf (connecting_line cfg paint) w'))))
      end; try done.
      simpl. rewrite Ho. by rewrite <- !app_assoc.
  - unfold finish, run_deferred. destruct s; simpl in *. subst. simpl.
    match goal with |- Channels.started_as _ _ _ _ ?s _ =>
      apply (start_dial_failed _ _ _ _ s
               (if negb (raw cfg) then Printf (connecting_line cfg paint) w'
                else w') e)
    end; try done; destruct (raw cfg); simpl; try done.
    all: rewrite Ho; by rewrite ?app_nil_r.
Qed.

End ChannelsStart.

(** Unfolds one step of a destructed state into its cases. *)
Ltac channels_step Hs :=
  unfold Channels.step in Hs; simpl in Hs;
  unfold Channels.printErrors_turn, Channels.printReceivedMessages_turn,
    Channels.view,
    ws_Read, ws_Write, Scan, Channels.main_return, Channels.finish in Hs;
  simpl in Hs;
  repeat match type of Hs with
    | context [match ?x with _ => _ end] =>
        lazymatch x with
        | context [match _ with _ => _ end] => fail
        | _ => destruct x eqn:?; simpl in Hs
        end
    end;
  simplify_eq.

Ltac channels_inv w0 Hf Hs :=
  let Hex := fresh "Hex" in
  let Hpm := fresh "Hpm" in
  let Hw := fresh "Hw" in
  match type of Hs with
  | Channels.step ?cfg ?paint ?arg0 ?defaults_text ?t ?s = Some _ =>
      destruct (Channels.exited s) eqn:Hex;
      [by unfold Channels.step in Hs; rewrite Hex in Hs|];
      destruct t; [destruct (Channels.pc_main s) eqn:Hpm|..];
      [ specialize (Hf eq_refl eq_refl); subst s;
        unfold Channels.step in Hs; simpl in Hs; injection Hs as <-;
        destruct (channels_main_start_cases cfg paint arg0 defaults_text
                    (Channels.init w0) eq_refl eq_refl)
          as [?|? ?|? ? ? ? ? Hw ? ? ?|? ? ? ? ? ? Hw ? ? ?|? ? ? ? ? ? Hw ? ? ?];
        try destruct Hw as (?&?&?&?&?&?); simpl in *
      | destruct s; channels_step Hs .. ]
  end.

Section ChannelsInvariants.
Import Channels.
Variable cfg : flags.
Variable paint : colour -> string -> string.
Variables arg0 defaults_text : string.

#[local] Abbreviation cstep := (Channels.step cfg paint arg0 defaults_text).
#[local] Abbreviation crun := (Channels.run cfg paint arg0 defaults_text).
#[local] Abbreviation cmain_start :=
  (Channels.main_start cfg paint arg0 defaults_text).
#[local] Abbreviation cstarted_as :=
  (Channels.started_as cfg paint arg0 defaults_text).

Lemma channels_fresh_step w0 t s s' :
  fresh w0 s -> cstep t s = Some s' -> fresh w0 s'.
Proof.
  intros Hf Hs. unfold fresh in Hf.
  channels_inv w0 Hf Hs; unfold fresh, init in *; simpl in *; inv_done.
Qed.

Lemma channels_lifecycle_step w0 t s s' :
  fresh w0 s -> lifecycle w0 s -> cstep t s = Some s' -> lifecycle w0 s'.
Proof.
  intros Hf H Hs. unfold fresh in Hf.
  channels_inv w0 Hf Hs; unfold lifecycle, init in *; simpl in *; inv_done.
Qed.

Lemma channels_buffer_step w0 t s s' :
  fresh w0 s -> lifecycle w0 s -> buffer_ok cfg s ->
  cstep t s = Some s' -> buffer_ok cfg s'.
Proof.
  intros Hf Hl H Hs. unfold fresh in Hf.
  channels_inv w0 Hf Hs; unfold lifecycle, buffer_ok, init in *; simpl in *;
    inv_done.
  all: rewrite ?read_into_length, ?length_take; try done; try lia.
  all: match goal with H : make_bytes _ = Some _ |- _ =>
         apply make_bytes_length in H end; inv_done.
Qed.

Lemma channels_lines_step w0 t s s' :
  fresh w0 s -> lifecycle w0 s -> lines_kept w0 s ->
  cstep t s = Some s' -> lines_kept w0 s'.
Proof.
  intros Hf Hl H Hs. unfold fresh in Hf.
  channels_inv w0 Hf Hs;
    unfold lifecycle, lines_kept, main_holds, out_holds, init in *;
    simpl in *; simplify_eq; inv_facts; simplify_eq; simpl in *;
    rewrite ?app_nil_r in *; try done; try lia; try congruence.
  all: repeat match goal with E : stdin _ = _ |- _ => rewrite E in * end.
  all: try (rewrite H; simpl; by rewrite <- ?app_assoc).
Qed.
Lemma channels_order_step w0 t s s' :
  fresh w0 s -> lifecycle w0 s -> order_inv cfg paint w0 s ->
  cstep t s = Some s' -> order_inv cfg paint w0 s'.
Proof.
  intros Hf Hl H Hs. unfold fresh in Hf.
  channels_inv w0 Hf Hs;
    unfold lifecycle, order_inv, start_order, init in *;
    simpl in *; simplify_eq; inv_facts; simplify_eq; simpl in *; try lia.
  all: repeat match goal with E : raw cfg = _ |- _ => rewrite E in * end.
  all: repeat split; intros; simplify_eq; inv_facts; try done.
  all: try (by auto using prefix_app_r).
  all: try (rewrite <- app_assoc; simpl; congruence).
  all: unfold banner;
    repeat match goal with E : raw cfg = _ |- _ => rewrite E in * end.
  all: match goal with E : stdout _ = _ |- _ => rewrite E end.
  all: rewrite ?app_nil_r; try done.
  apply prefix_app, prefix_app, prefix_app_r. done.
Qed.

Lemma channels_dormant_step w0 t s s' :
  displayHelp cfg = false ->
  fresh w0 s -> lifecycle w0 s -> sink_dormant w0 s ->
  cstep t s = Some s' -> sink_dormant w0 s'.
Proof.
  intros HH Hf Hl H Hs. unfold fresh in Hf.
  channels_inv w0 Hf Hs;
    unfold lifecycle, sink_dormant, init in *;
    simpl in *; simplify_eq; inv_facts; simplify_eq; simpl in *; try lia;
    try congruence; try done.
  all: try (destruct pc_main0; inv_facts; simplify_eq; done).
Qed.

(** In raw mode a step adds to standard output only when it is the
    presenter's [fmt.Printf], and then exactly what its slice shows. *)
Lemma channels_raw_step_out w0 t s s' :
  raw cfg = true -> displayVersion cfg = false -> displayHelp cfg = false ->
  fresh w0 s -> lifecycle w0 s -> order_inv cfg paint w0 s ->
  cstep t s = Some s' ->
  stdout (env s')
  = stdout (env s)
      ++ match t, pc_show s with
         | PrintReceivedMessages, P_print n => view n s
         | _, _ => []
         end.
Proof.
  intros Hraw HV HH Hf Hl Ho Hs. unfold fresh in Hf.
  channels_inv w0 Hf Hs;
    unfold lifecycle, order_inv, view, init in *;
    simpl in *; simplify_eq; inv_facts; simplify_eq; simpl in *;
    rewrite ?app_nil_r; try done; try congruence; try lia.
  all: try (by destruct pc_show0; rewrite ?app_nil_r).
  all: try (by rewrite to_bytes_to_string).
  match goal with E : stdout _ = _ |- _ => rewrite E end.
  by rewrite ?Hraw, ?app_nil_r.
Qed.

(** Every state a schedule leads to from the initial one *)
Lemma channels_reachable w0 sched :
  let s := crun sched (init w0) in
  fresh w0 s /\ lifecycle w0 s /\ buffer_ok cfg s /\ lines_kept w0 s /\
  order_inv cfg paint w0 s.
Proof.
  apply (channels_run_invariant cfg paint arg0 defaults_text
           (fun s => fresh w0 s /\ lifecycle w0 s /\ buffer_ok cfg s /\
                     lines_kept w0 s /\ order_inv cfg paint w0 s)).
  - intros t s s' (Hf & Hl & Hb & Hk & Ho) Hs.
    eauto 10 using channels_fresh_step, channels_lifecycle_step,
      channels_buffer_step, channels_lines_step, channels_order_step.
  - repeat split; simpl; try done; try lia.
Qed.

Lemma channels_dormant_reachable w0 sched :
  displayHelp cfg = false -> sink_dormant w0 (crun sched (init w0)).
Proof.
  intros HH.
  assert (fresh w0 (crun sched (init w0)) /\
          lifecycle w0 (crun sched (init w0)) /\
          sink_dormant w0 (crun sched (init w0))) as (_ & _ & H); [|done].
  apply (channels_run_invariant cfg paint arg0 defaults_text
           (fun s => fresh w0 s /\ lifecycle w0 s /\ sink_dormant w0 s)).
  - intros t s s' (Hf & Hl & Hd) Hs.
    eauto 10 using channels_fresh_step, channels_lifecycle_step,
      channels_dormant_step.
  - repeat split; simpl; try done; try lia.
Qed.

(** In raw mode standard output is what the presenter rendered, message
    after message, and nothing else. *)
Lemma channels_raw_reachable w0 sched s :
  raw cfg = true -> displayVersion cfg = false -> displayHelp cfg = false ->
  fresh w0 s -> lifecycle w0 s -> order_inv cfg paint w0 s ->
  stdout (env (crun sched s))
  = stdout (env s) ++ concat (shown cfg paint arg0 defaults_text sched s).
Proof.
  intros Hraw HV HH. revert s.
  induction sched as [|t sched IH]; intros s Hf Hl Ho; simpl.
  { by rewrite app_nil_r. }
  destruct (cstep t s) as [s'|] eqn:Hs; [|by apply IH].
  rewrite IH by eauto using channels_fresh_step, channels_lifecycle_step,
    channels_order_step.
  rewrite (channels_raw_step_out w0 t s s') by done.
  destruct t, (pc_show s); simpl; by rewrite ?app_nil_r, <- ?app_assoc.
Qed.

End ChannelsInvariants.

(** ** Invariants of a whole session *)

Lemma direct_prompted_step cfg paint arg0 defaults_text w0 t s s' :
  raw cfg = false -> displayVersion cfg = false -> displayHelp cfg = false ->
  config_err w0 = None -> dial_err w0 = None ->
  Direct.fresh w0 s -> Direct.lifecycle w0 s -> Direct.prompted w0 s ->
  Direct.step cfg paint arg0 defaults_text t s = Some s' ->
  Direct.prompted w0 s'.
Proof.
  intros Hraw HV HH Hc Hd Hf Hl Hinv Hs. unfold Direct.fresh in Hf.
  direct_inv w0 Hf Hs; right;
    unfold Direct.lifecycle, Direct.prompted, Direct.init in *; simpl in *;
    try congruence; inv_facts; try lia.
  all: try (by match goal with H : _ \/ _ |- _ => destruct H; congruence end).
  all: try (destruct Hinv as [?|Hinv]; simplify_eq; []).
  all: try done.
  all: try (by apply suffix_app_r).
  all: try (rewrite !app_assoc; by apply suffix_app_r).
  all: try (rewrite !to_bytes_app, !app_assoc; by apply suffix_app_r).
  all: try (match goal with E : stdout _ = _ |- _ => rewrite E end;
            rewrite !app_assoc; by apply suffix_app_r).
Qed.

Lemma direct_input_untouched_step cfg paint arg0 defaults_text w0 t s s' :
  raw cfg = true ->
  Direct.fresh w0 s -> Direct.lifecycle w0 s -> Direct.order_inv cfg paint w0 s ->
  Direct.input_untouched w0 s ->
  Direct.step cfg paint arg0 defaults_text t s = Some s' ->
  Direct.input_untouched w0 s'.
Proof.
  intros Hraw Hf Hl Ho Hinv Hs. unfold Direct.fresh in Hf.
  direct_inv w0 Hf Hs;
    unfold Direct.lifecycle, Direct.order_inv, Direct.input_untouched,
      Direct.init in *; simpl in *;
    try congruence; inv_facts; simplify_eq; try lia; try congruence;
    try done.
Qed.

Lemma direct_reader_waits_step cfg paint arg0 defaults_text w0 t s s' :
  raw cfg = false ->
  Direct.fresh w0 s -> Direct.lifecycle w0 s -> Direct.reader_waits w0 s ->
  Direct.step cfg paint arg0 defaults_text t s = Some s' ->
  Direct.reader_waits w0 s'.
Proof.
  intros Hraw Hf Hl Hinv Hs. unfold Direct.fresh in Hf.
  direct_inv w0 Hf Hs;
    unfold Direct.lifecycle, Direct.reader_waits, Direct.init in *;
    simpl in *;
    try congruence; inv_facts; simplify_eq; try lia; try congruence;
    try done.
  all: try (destruct pc_main; inv_facts; simplify_eq; done).
Qed.

Lemma direct_never_reads_step cfg paint arg0 defaults_text w0 t s s' :
  make_bytes (bufSize cfg) = None ->
  Direct.fresh w0 s -> Direct.lifecycle w0 s -> Direct.never_reads w0 s ->
  Direct.step cfg paint arg0 defaults_text t s = Some s' ->
  Direct.never_reads w0 s'.
Proof.
  intros Hneg Hf Hl Hinv Hs. unfold Direct.fresh in Hf.
  direct_inv w0 Hf Hs;
    unfold Direct.lifecycle, Direct.never_reads, Direct.init in *;
    simpl in *;
    try congruence; inv_facts; simplify_eq; try lia; try congruence;
    try done.
  all: try (by repeat split; auto).
  all: try (by match goal with H : _ \/ _ |- _ => destruct H end).
Qed.

(** A remote that was quiet stays quiet when its next item is taken. *)
Ltac quiet_rest Hq :=
  let Hq0 := fresh in
  intros Hq0; specialize (Hq Hq0); destruct_and?;
  repeat match goal with
    | H : Forall _ (_ :: _) |- _ => apply Forall_cons in H as [? ?]
    end;
  repeat split; try done; try congruence;
  repeat (constructor; try done).

Lemma direct_outcomes_step cfg paint arg0 defaults_text w0 t s s' :
  Direct.fresh w0 s -> Direct.lifecycle w0 s -> Direct.outcomes cfg paint w0 s ->
  Direct.step cfg paint arg0 defaults_text t s = Some s' ->
  Direct.outcomes cfg paint w0 s'.
Proof.
  intros Hf Hl (Hq & Hfl & Hinv) Hs. unfold Direct.fresh in Hf.
  direct_inv w0 Hf Hs;
    unfold Direct.lifecycle, Direct.outcomes, quiet, closure_notice,
      Direct.magenta, Direct.init in *;
    simpl in *; inv_facts; simplify_eq; try lia.
  all: repeat match goal with
         | E : inbound _ = _ |- _ => rewrite E in *
         | E : wresults _ = _ |- _ => rewrite E in *
         | E : stdin _ = _ |- _ => rewrite E in *
         end; simpl in *.
  all: (split; [by quiet_rest Hq|]).
  all: (split; [by intros; repeat split; first [done|by apply Hfl]|]).
  all: try done; try lia.
  all: try (split; [done|]).
  all: try (by left; auto).
  all: try (by repeat (split; [done|]);
            match goal with H : _ \/ _ |- _ =>
              destruct H; [left|right]; congruence end).
  all: try (right; split; [by quiet_rest Hq|by apply suffix_app_r]).
Qed.

Lemma direct_paired_step cfg paint arg0 defaults_text w0 t s s' :
  Direct.fresh w0 s -> Direct.lifecycle w0 s -> Direct.paired s ->
  Direct.step cfg paint arg0 defaults_text t s = Some s' ->
  Direct.paired s'.
Proof.
  intros Hf Hl Hinv Hs. unfold Direct.fresh in Hf.
  direct_inv w0 Hf Hs;
    unfold Direct.lifecycle, Direct.paired, Direct.init in *; simpl in *;
    try done; inv_facts; simplify_eq; try lia; eauto.
  all: try (destruct pc_main; try done; destruct Hinv as [?|[? ?]];
            simplify_eq; eauto).
Qed.

Lemma channels_prompted_step cfg paint arg0 defaults_text w0 t s s' :
  raw cfg = false -> displayVersion cfg = false -> displayHelp cfg = false ->
  config_err w0 = None -> dial_err w0 = None ->
  Channels.fresh w0 s -> Channels.lifecycle w0 s -> Channels.prompted w0 s ->
  Channels.step cfg paint arg0 defaults_text t s = Some s' ->
  Channels.prompted w0 s'.
Proof.
  intros Hraw HV HH Hc Hd Hf Hl Hinv Hs. unfold Channels.fresh in Hf.
  channels_inv w0 Hf Hs; right;
    unfold Channels.lifecycle, Channels.prompted, Channels.init in *;
    simpl in *;
    try congruence; inv_facts; try lia.
  all: try (by match goal with H : _ \/ _ |- _ => destruct H; congruence end).
  all: try (destruct Hinv as [?|Hinv]; simplify_eq; []).
  all: try done.
  all: try (by apply suffix_app_r).
  all: try (rewrite !app_assoc; by apply suffix_app_r).
  all: try (rewrite !to_bytes_app, !app_assoc; by apply suffix_app_r).
  all: try (match goal with E : stdout _ = _ |- _ => rewrite E end;
            rewrite !app_assoc; by apply suffix_app_r).
Qed.

Lemma channels_input_untouched_step cfg paint arg0 defaults_text w0 t s s' :
  raw cfg = true ->
  Channels.fresh w0 s -> Channels.lifecycle w0 s ->
  Channels.order_inv cfg paint w0 s -> Channels.input_untouched w0 s ->
  Channels.step cfg paint arg0 defaults_text t s = Some s' ->
  Channels.input_untouched w0 s'.
Proof.
  intros Hraw Hf Hl Ho Hinv Hs. unfold Channels.fresh in Hf.
  channels_inv w0 Hf Hs;
    unfold Channels.lifecycle, Channels.order_inv, Channels.input_untouched,
      Channels.init in *; simpl in *;
    try congruence; inv_facts; simplify_eq; try lia; try congruence;
    try done.
Qed.

Lemma channels_reader_waits_step cfg paint arg0 defaults_text w0 t s s' :
  raw cfg = false ->
  Channels.fresh w0 s -> Channels.lifecycle w0 s -> Channels.reader_waits w0 s ->
  Channels.step cfg paint arg0 defaults_text t s = Some s' ->
  Channels.reader_waits w0 s'.
Proof.
  intros Hraw Hf Hl Hinv Hs. unfold Channels.fresh in Hf.
  channels_inv w0 Hf Hs;
    unfold Channels.lifecycle, Channels.reader_waits, Channels.init in *;
    simpl in *;
    try congruence; inv_facts; simplify_eq; try lia; try congruence;
    try done.
  all: try (destruct pc_main; inv_facts; simplify_eq; done).
Qed.

Lemma channels_never_reads_step cfg paint arg0 defaults_text w0 t s s' :
  make_bytes (bufSize cfg) = None ->
  Channels.fresh w0 s -> Channels.lifecycle w0 s -> Channels.never_reads w0 s ->
  Channels.step cfg paint arg0 defaults_text t s = Some s' ->
  Channels.never_reads w0 s'.
Proof.
  intros Hneg Hf Hl Hinv Hs. unfold Channels.fresh in Hf.
  channels_inv w0 Hf Hs;
    unfold Channels.lifecycle, Channels.never_reads, Channels.init in *;
    simpl in *;
    try congruence; inv_facts; simplify_eq; try lia; try congruence;
    try done.
  all: try (by repeat split; auto).
  all: try (by match goal with H : _ \/ _ |- _ => destruct H end).
  all: try (by match goal with H : forall n, _ <> _ |- _ => edestruct H end).
Qed.

Lemma channels_outcomes_step cfg paint arg0 defaults_text w0 t s s' :
  Channels.fresh w0 s -> Channels.lifecycle w0 s ->
  Channels.outcomes cfg paint w0 s ->
  Channels.step cfg paint arg0 defaults_text t s = Some s' ->
  Channels.outcomes cfg paint w0 s'.
Proof.
  intros Hf Hl (Hq & Hfl & Hinv) Hs. unfold Channels.fresh in Hf.
  channels_inv w0 Hf Hs;
    unfold Channels.lifecycle, Channels.outcomes, quiet, closure_notice,
      Channels.magenta, Channels.init in *;
    simpl in *; inv_facts; simplify_eq; try lia.
  all: repeat match goal with
         | E : inbound _ = _ |- _ => rewrite E in *
         | E : wresults _ = _ |- _ => rewrite E in *
         | E : stdin _ = _ |- _ => rewrite E in *
         end; simpl in *.
  all: (split; [by quiet_rest Hq|]).
  all: (split; [by intros; repeat split; first [done|by apply Hfl]|]).
  all: try done; try lia.
  all: try (split; [done|]).
  all: try (by left; auto).
  all: try (by repeat (split; [done|]);
            match goal with H : _ \/ _ |- _ =>
              destruct H; [left|right]; congruence end).
  all: try (right; split; [by quiet_rest Hq|by apply suffix_app_r]).
Qed.

Lemma channels_paired_step cfg paint arg0 defaults_text w0 t s s' :
  Channels.fresh w0 s -> Channels.lifecycle w0 s -> Channels.paired s ->
  Channels.step cfg paint arg0 defaults_text t s = Some s' ->
  Channels.paired s'.
Proof.
  intros Hf Hl Hinv Hs. unfold Channels.fresh in Hf.
  channels_inv w0 Hf Hs;
    unfold Channels.lifecycle, Channels.paired, Channels.init in *;
    simpl in *;
    try done; inv_facts; simplify_eq; try lia; eauto 10.
  all: try (destruct pc_main; try done; destruct_and?; repeat split;
            try done; destruct_or?; destruct_and?; simplify_eq; eauto 10).
Qed.

(** Every state a schedule leads to from the initial one, continued *)
Lemma direct_session_reachable cfg paint arg0 defaults_text w0 sched :
  let s := Direct.run cfg paint arg0 defaults_text sched (Direct.init w0) in
  Direct.outcomes cfg paint w0 s /\
  (raw cfg = true -> Direct.input_untouched w0 s) /\
  (raw cfg = false -> Direct.reader_waits w0 s) /\
  (make_bytes (bufSize cfg) = None -> Direct.never_reads w0 s) /\
  (raw cfg = false -> displayVersion cfg = false -> displayHelp cfg = false ->
   config_err w0 = None -> dial_err w0 = None -> Direct.prompted w0 s).
Proof.
  simpl.
  set (P := fun s =>
    (Direct.fresh w0 s /\ Direct.lifecycle w0 s /\
     Direct.order_inv cfg paint w0 s) /\
    Direct.outcomes cfg paint w0 s /\
    (raw cfg = true -> Direct.input_untouched w0 s) /\
    (raw cfg = false -> Direct.reader_waits w0 s) /\
    (make_bytes (bufSize cfg) = None -> Direct.never_reads w0 s) /\
    (raw cfg = false -> displayVersion cfg = false -> displayHelp cfg = false ->
     config_err w0 = None -> dial_err w0 = None -> Direct.prompted w0 s)).
  assert (H : P (Direct.run cfg paint arg0 defaults_text sched (Direct.init w0)));
    [|by destruct H].
  apply (direct_run_invariant cfg paint arg0 defaults_text P).
  - intros t s s' ((Hf & Hl & Ho) & Hout & Hraw & Hint & Hneg & Hpr) Hs.
    split; [|split; [|split; [|split; [|split]]]].
    + eauto 10 using direct_fresh_step, direct_lifecycle_step,
        direct_order_step.
    + eauto using direct_outcomes_step.
    + intros. eauto using direct_input_untouched_step.
    + intros. eauto using direct_reader_waits_step.
    + intros. eauto using direct_never_reads_step.
    + intros. eapply direct_prompted_step; eauto.
  - unfold P, Direct.outcomes, Direct.input_untouched, Direct.reader_waits,
      Direct.never_reads, Direct.prompted.
    repeat split; simpl; try done; try lia; auto. all: by apply H.
Qed.

Lemma channels_session_reachable cfg paint arg0 defaults_text w0 sched :
  let c := Channels.run cfg paint arg0 defaults_text sched (Channels.init w0) in
  Channels.outcomes cfg paint w0 c /\
  (raw cfg = true -> Channels.input_untouched w0 c) /\
  (raw cfg = false -> Channels.reader_waits w0 c) /\
  (make_bytes (bufSize cfg) = None -> Channels.never_reads w0 c) /\
  (raw cfg = false -> displayVersion cfg = false -> displayHelp cfg = false ->
   config_err w0 = None -> dial_err w0 = None -> Channels.prompted w0 c).
Proof.
  simpl.
  set (P := fun s =>
    (Channels.fresh w0 s /\ Channels.lifecycle w0 s /\
     Channels.order_inv cfg paint w0 s) /\
    Channels.outcomes cfg paint w0 s /\
    (raw cfg = true -> Channels.input_untouched w0 s) /\
    (raw cfg = false -> Channels.reader_waits w0 s) /\
    (make_bytes (bufSize cfg) = None -> Channels.never_reads w0 s) /\
    (raw cfg = false -> displayVersion cfg = false -> displayHelp cfg = false ->
     config_err w0 = None -> dial_err w0 = None -> Channels.prompted w0 s)).
  assert (H : P (Channels.run cfg paint arg0 defaults_text sched
                   (Channels.init w0)));
    [|by destruct H].
  apply (channels_run_invariant cfg paint arg0 defaults_text P).
  - intros t s s' ((Hf & Hl & Ho) & Hout & Hraw & Hint & Hneg & Hpr) Hs.
    split; [|split; [|split; [|split; [|split]]]].
    + eauto 10 using channels_fresh_step, channels_lifecycle_step,
        channels_order_step.
    + eauto using channels_outcomes_step.
    + intros. eauto using channels_input_untouched_step.
    + intros. eauto using channels_reader_waits_step.
    + intros. eauto using channels_never_reads_step.
    + intros. eapply channels_prompted_step; eauto.
  - unfold P, Channels.outcomes, Channels.input_untouched,
      Channels.reader_waits, Channels.never_reads, Channels.prompted.
    repeat split; simpl; try done; try lia; auto. all: by apply H.
Qed.

Lemma direct_paired_reachable cfg paint arg0 defaults_text w0 sched :
  Direct.paired (Direct.run cfg paint arg0 defaults_text sched (Direct.init w0)).
Proof.
  set (P := fun s => Direct.fresh w0 s /\ Direct.lifecycle w0 s /\
                     Direct.paired s).
  assert (H : P (Direct.run cfg paint arg0 defaults_text sched (Direct.init w0)));
    [|apply H].
  apply (direct_run_invariant cfg paint arg0 defaults_text P).
  - intros t s s' (Hf & Hl & Hp) Hs.
    unfold P. eauto 10 using direct_fresh_step, direct_lifecycle_step,
      direct_paired_step.
  - repeat split; simpl; try done; lia.
Qed.

Lemma channels_paired_reachable cfg paint arg0 defaults_text w0 sched :
  Channels.paired
    (Channels.run cfg paint arg0 defaults_text sched (Channels.init w0)).
Proof.
  set (P := fun s => Channels.fresh w0 s /\ Channels.lifecycle w0 s /\
                     Channels.paired s).
  assert (H : P (Channels.run cfg paint arg0 defaults_text sched
                   (Channels.init w0)));
    [|apply H].
  apply (channels_run_invariant cfg paint arg0 defaults_text P).
  - intros t s s' (Hf & Hl & Hp) Hs.
    unfold P. eauto 10 using channels_fresh_step, channels_lifecycle_step,
      channels_paired_step.
  - repeat split; simpl; try done; lia.
Qed.

(** ** The process at rest *)

(** Asleep is at rest with nobody waiting for the outside. *)
Lemma direct_asleep_at_rest cfg paint arg0 defaults_text s :
  Direct.asleep cfg paint arg0 defaults_text s = true ->
  Direct.at_rest cfg paint arg0 defaults_text s /\
  Direct.awaits_input s = false.
Proof.
  unfold Direct.asleep, Direct.at_rest, Direct.blocked. intros H.
  destruct (Direct.exited s); [done|].
  destruct (Direct.step _ _ _ _ Direct.Main s) eqn:Hm; [done|].
  destruct (Direct.step _ _ _ _ Direct.OutLoop s) eqn:Ho; [done|].
  destruct (Direct.step _ _ _ _ Direct.InLoop s) eqn:Hi; [done|].
  simpl in H. apply negb_true_iff in H.
  split; [|done]. split; [done|]. intros []; by left.
Qed.

Lemma channels_asleep_at_rest cfg paint arg0 defaults_text s :
  Channels.asleep cfg paint arg0 defaults_text s = true ->
  Channels.at_rest cfg paint arg0 defaults_text s /\
  Channels.awaits_input s = false.
Proof.
  unfold Channels.asleep, Channels.at_rest, Channels.blocked. intros H.
  destruct (Channels.exited s); [done|].
  destruct (Channels.step _ _ _ _ Channels.Main s) eqn:Hm; [done|].
  destruct (Channels.step _ _ _ _ Channels.OutLoop s) eqn:Ho; [done|].
  destruct (Channels.step _ _ _ _ Channels.InLoop s) eqn:Hi; [done|].
  destruct (Channels.step _ _ _ _ Channels.PrintReceivedMessages s) eqn:Hp;
    [done|].
  destruct (Channels.step _ _ _ _ Channels.PrintErrors s) eqn:He; [done|].
  simpl in H. apply negb_true_iff in H.
  split; [|done]. split; [done|]. intros []; by left.
Qed.

(** The states in which [src/main.go] is at rest: [main] waits for the
    operator with [outLoop] at its receive, or [main] is in [wg.Wait()]
    and [inLoop] in a [ws.Read] with nothing pending. *)
Lemma direct_at_rest_cases cfg paint arg0 defaults_text w0 sched :
  let s := Direct.run cfg paint arg0 defaults_text sched (Direct.init w0) in
  Direct.at_rest cfg paint arg0 defaults_text s ->
  (raw cfg = false /\ Direct.pc_main s = Direct.M_scan /\
   Direct.pc_out s = Direct.O_recv /\ Direct.pc_in s = Direct.I_idle) \/
  (Direct.pc_main s = Direct.M_wait /\
   (exists msg, Direct.pc_in s = Direct.I_read msg) /\
   inbound (Direct.env s) = [] /\
   (Direct.pc_out s = Direct.O_idle \/ Direct.pc_out s = Direct.O_recv)).
Proof.
  intros s [Hex Hst].
  pose proof (direct_paired_reachable cfg paint arg0 defaults_text w0 sched)
    as Hp.
  destruct (direct_reachable cfg paint arg0 defaults_text w0 sched)
    as (_ & Hl & _ & _ & Hord).
  destruct (direct_session_reachable cfg paint arg0 defaults_text w0 sched)
    as (_ & _ & Hrw & _).
  fold s in Hp, Hl, Hord, Hrw. destruct Hl as (Hoc & Hmr & Hor & _).
  destruct Hord as (_ & Hraw & _).
  assert (Ho : Direct.step cfg paint arg0 defaults_text Direct.OutLoop s = None).
  { by destruct (Hst Direct.OutLoop) as [?|[? _]]. }
  assert (Hi : Direct.step cfg paint arg0 defaults_text Direct.InLoop s = None).
  { by destruct (Hst Direct.InLoop) as [?|[? _]]. }
  pose proof (Hst Direct.Main) as Hm.
  unfold Direct.step in Hm, Ho, Hi. rewrite Hex in Hm, Ho, Hi.
  rewrite Hoc in Hm, Ho.
  unfold Direct.paired in Hp. unfold Direct.reader_waits in Hrw.
  destruct (Direct.pc_main s) eqn:Hpm; try done.
  - by destruct Hm as [?|[_ ?]].
  - left. specialize (Hrw Hraw). destruct Hrw as (Hidle & _).
    repeat split; try done.
    destruct Hp as [Hp|[m Hp]]; [done|]. by rewrite Hp in Ho.
  - destruct Hp as [Hp|[m Hp]]; rewrite Hp in Hm, Ho; [|done].
    by destruct Hm as [?|[_ ?]].
  - by destruct Hm as [?|[_ ?]].
  - by destruct Hm as [?|[_ ?]].
  - right. destruct Hp as [Hp|[m Hp]]; rewrite Hp in Hi;
      [by destruct (make_bytes (bufSize cfg))|].
    split; [done|]. split; [by exists m|]. split.
    + unfold Direct.inLoop_turn, ws_Read in Hi.
      destruct (inbound (Direct.env s)) as [|[?|?] ?]; done.
    + destruct (Direct.pc_out s); try done; auto.
Qed.

(** [src/main.go] never has all its goroutines asleep: when nothing
    moves, [main] waits for the operator or [inLoop] for the remote. *)
Lemma direct_never_asleep cfg paint arg0 defaults_text w0 sched :
  Direct.asleep cfg paint arg0 defaults_text
    (Direct.run cfg paint arg0 defaults_text sched (Direct.init w0)) = false.
Proof.
  destruct (Direct.asleep _ _ _ _ _) eqn:Ha; [|done].
  apply direct_asleep_at_rest in Ha as [Hr Hw].
  apply direct_at_rest_cases in Hr.
  unfold Direct.awaits_input in Hw.
  destruct Hr as [(_ & Hm & _)|(Hm & [m Hi] & _)].
  - by rewrite Hm in Hw.
  - by rewrite Hm, Hi in Hw.
Qed.

(** The states in which [src/unnamed/part_000] is at rest: [main] waits
    for the operator, or [main] is in [wg.Wait()] with the three inbound
    tasks waiting and nothing pending, or [main] is blocked at its send to
    [outLoop] while [outLoop] is blocked at its send to the error sink,
    which does not exist yet. *)
Lemma channels_at_rest_cases cfg paint arg0 defaults_text w0 sched :
  let c := Channels.run cfg paint arg0 defaults_text sched (Channels.init w0) in
  Channels.at_rest cfg paint arg0 defaults_text c ->
  (raw cfg = false /\ Channels.pc_main c = Channels.M_scan /\
   (Channels.pc_out c = Channels.O_recv \/
    exists err, Channels.pc_out c = Channels.O_send_err err) /\
   Channels.pc_in c = Channels.I_idle /\
   Channels.pc_show c = Channels.P_idle /\
   Channels.pc_sink c = Channels.E_idle) \/
  (Channels.pc_main c = Channels.M_wait /\
   Channels.pc_in c = Channels.I_read /\
   Channels.pc_show c = Channels.P_recv /\
   Channels.pc_sink c = Channels.E_recv /\
   inbound (Channels.env c) = [] /\
   (Channels.pc_out c = Channels.O_idle \/
    Channels.pc_out c = Channels.O_recv)) \/
  (raw cfg = false /\
   exists msg err,
     Channels.pc_main c = Channels.M_send msg /\
     Channels.pc_out c = Channels.O_send_err err /\
     Channels.pc_in c = Channels.I_idle /\
     Channels.pc_show c = Channels.P_idle /\
     Channels.pc_sink c = Channels.E_idle).
Proof.
  intros c [Hex Hst].
  pose proof (channels_paired_reachable cfg paint arg0 defaults_text w0 sched)
    as Hp.
  destruct (channels_reachable cfg paint arg0 defaults_text w0 sched)
    as (_ & Hl & _ & _ & Hord).
  destruct (channels_session_reachable cfg paint arg0 defaults_text w0 sched)
    as (_ & _ & Hrw & _).
  fold c in Hp, Hl, Hord, Hrw.
  destruct Hl as (Hic & Hec & Hoc & Hmr & Hor & Hpr & Her & _).
  destruct Hord as (_ & Hraw & _).
  assert (Ho : Channels.step cfg paint arg0 defaults_text Channels.OutLoop c
               = None).
  { by destruct (Hst Channels.OutLoop) as [?|[? _]]. }
  assert (Hi : Channels.step cfg paint arg0 defaults_text Channels.InLoop c
               = None).
  { by destruct (Hst Channels.InLoop) as [?|[? _]]. }
  assert (Hsh : Channels.step cfg paint arg0 defaults_text
                  Channels.PrintReceivedMessages c = None).
  { by destruct (Hst Channels.PrintReceivedMessages) as [?|[? _]]. }
  assert (Hsk : Channels.step cfg paint arg0 defaults_text
                  Channels.PrintErrors c = None).
  { by destruct (Hst Channels.PrintErrors) as [?|[? _]]. }
  pose proof (Hst Channels.Main) as Hm.
  unfold Channels.step in Hm, Ho, Hi, Hsh, Hsk.
  rewrite Hex in Hm, Ho, Hi, Hsh, Hsk.
  rewrite ?Hoc in Hm. rewrite ?Hoc in Ho. rewrite ?Hec in Ho.
  rewrite ?Hec in Hi. rewrite ?Hic in Hi. rewrite ?Hic in Hsh.
  rewrite ?Hec in Hsk.
  unfold Channels.paired in Hp. unfold Channels.reader_waits in Hrw.
  destruct (Channels.pc_main c) eqn:Hpm; try done.
  - by destruct Hm as [?|[_ ?]].
  - left. specialize (Hrw Hraw). destruct Hrw as (Hidle & Hpidle & Hsidle & _).
    repeat split; try done.
    destruct Hp as [Hp|[[m Hp]|[err Hp]]]; [by left| |by right; exists err].
    rewrite Hp in Ho. unfold ws_Write in Ho.
    by destruct (wresults (Channels.env c)) as [|[?|] ?].
  - right. right. specialize (Hrw Hraw).
    destruct Hrw as (Hidle & Hpidle & Hsidle & _). split; [done|].
    destruct Hp as [Hp|[[m Hp]|[err Hp]]]; rewrite Hp in Hm, Ho.
    + by destruct Hm as [?|[_ ?]].
    + unfold ws_Write in Ho.
      by destruct (wresults (Channels.env c)) as [|[?|] ?].
    + by exists msg, err.
  - by destruct Hm as [?|[_ ?]].
  - by destruct Hm as [?|[_ ?]].
  - by destruct Hm as [?|[_ ?]].
  - by destruct Hm as [?|[_ ?]].
  - right. left. destruct Hp as (Hpi & Hps & Hpk).
    assert (Hshow : Channels.pc_show c = Channels.P_recv).
    { destruct (Channels.pc_show c); done. }
    assert (Hsink : Channels.pc_sink c = Channels.E_recv).
    { destruct (Channels.pc_sink c); try done.
      unfold Channels.printErrors_turn in Hsk.
      by destruct (decide (_ = io_EOF)). }
    rewrite Hshow, Hsink in Hi. rewrite Hsink in Ho.
    destruct (Channels.pc_in c) eqn:Hpin; try done.
    + by destruct (make_bytes (bufSize cfg)).
    + repeat split; try done.
      * unfold ws_Read in Hi.
        destruct (inbound (Channels.env c)) as [|[?|?] ?]; done.
      * destruct (Channels.pc_out c); try done; auto.
        unfold ws_Write in Ho.
        by destruct (wresults (Channels.env c)) as [|[?|] ?].
Qed.

(** All goroutines of [src/unnamed/part_000] are asleep in one case only:
    [main] blocked at its send to [outLoop], [outLoop] blocked at its send
    to the error sink. *)
Lemma channels_asleep_iff_jam cfg paint arg0 defaults_text w0 sched :
  let c := Channels.run cfg paint arg0 defaults_text sched (Channels.init w0) in
  Channels.asleep cfg paint arg0 defaults_text c = true <->
  Channels.exited c = None /\
  exists msg err,
    Channels.pc_main c = Channels.M_send msg /\
    Channels.pc_out c = Channels.O_send_err err.
Proof.
  intros c. split.
  - intros Ha. apply channels_asleep_at_rest in Ha as [Hr Hw].
    split; [apply Hr|].
    apply channels_at_rest_cases in Hr. fold c in Hr.
    unfold Channels.awaits_input in Hw.
    destruct Hr as [(_ & Hm & _)|[(Hm & Hi & _)|(_ & m & e & Hm & Ho & _)]].
    + by rewrite Hm in Hw.
    + by rewrite Hm, Hi in Hw.
    + by exists m, e.
  - intros (Hex & m & e & Hm & Ho).
    destruct (channels_reachable cfg paint arg0 defaults_text w0 sched)
      as (_ & Hl & _ & _ & Hord).
    destruct (channels_session_reachable cfg paint arg0 defaults_text w0 sched)
      as (_ & _ & Hrw & _).
    fold c in Hl, Hord, Hrw.
    destruct Hl as (Hic & Hec & Hoc & _). destruct Hord as (_ & Hraw & _).
    unfold Channels.reader_waits in Hrw. rewrite Hm in Hrw, Hraw.
    destruct (Hrw Hraw) as (Hi & Hp & Hs & _).
    unfold Channels.asleep, Channels.blocked, Channels.awaits_input,
      Channels.step.
    by rewrite Hex, Hm, Ho, Hi, Hp, Hs, Hoc, Hec.
Qed.

(** ** How a session ends *)



(** ** After the end of the operator input *)



(** A process whose goroutines are all asleep stays as it is. *)
Lemma channels_asleep_is_final cfg paint arg0 defaults_text s sched :
  Channels.asleep cfg paint arg0 defaults_text s = true ->
  Channels.run cfg paint arg0 defaults_text sched s = s.
Proof.
  intros Ha. apply channels_asleep_at_rest in Ha as [[_ Hr] Hw].
  induction sched as [|t sched IH]; [done|]. cbn [Channels.run].
  destruct (Hr t) as [->|[_ Hm]]; [done|].
  unfold Channels.awaits_input in Hw. by rewrite Hm in Hw.
Qed.

(** ** The error sink and the presenter, call by call *)

Lemma direct_printError_EOF cfg paint w :
  Direct.printError cfg paint io_EOF w
  = (Fprintf_Stderr (closure_notice paint) w, Some (os_Exit 0)).
Proof. unfold Direct.printError. by destruct (decide (io_EOF = io_EOF)). Qed.

Lemma direct_printError_other cfg paint err w :
  err <> io_EOF ->
  Direct.printError cfg paint err w
  = (if negb (raw cfg)
     then Printf "> " (Fprintf_Stderr (error_report paint err) w)
     else Fprintf_Stderr (error_report paint err) w, None).
Proof.
  intros H. unfold Direct.printError. by destruct (decide (err = io_EOF)).
Qed.

Lemma channels_printErrors_EOF cfg paint w :
  Channels.printErrors_turn cfg paint io_EOF w
  = (Fprintf_Stderr (closure_notice paint) w, Some (os_Exit 0)).
Proof.
  unfold Channels.printErrors_turn. by destruct (decide (io_EOF = io_EOF)).
Qed.

Lemma channels_printErrors_other cfg paint err w :
  err <> io_EOF ->
  Channels.printErrors_turn cfg paint err w
  = (if negb (raw cfg)
     then Printf "> " (Fprintf_Stderr (error_report paint err) w)
     else Fprintf_Stderr (error_report paint err) w, None).
Proof.
  intros H. unfold Channels.printErrors_turn.
  by destruct (decide (err = io_EOF)).
Qed.

(** The notice starts with a cross, a report with [err]. *)
Lemma notice_is_no_report paint err :
  closure_notice paint <> error_report paint err.
Proof.
  unfold closure_notice, error_report. intros H.
  apply (f_equal (String.get 1)) in H. by vm_compute in H.
Qed.

(** C3: for a transport error equal to [io.EOF] the error sink prints the
    "connection closed by remote" notice on standard error and ends the
    process with exit code 0, whatever [main] and [outLoop] still hold.
    In [src/main.go] the sink is [printError], called by the reader on the
    spot; in [src/unnamed/part_000] it is [printErrors] handling the error
    it has received. *)
Theorem C3_remote_close_exits_zero cfg paint arg0 defaults_text
    (s : Direct.state) (c : Channels.state) msg rest :
  Direct.exited s = None ->
  Direct.pc_in s = Direct.I_read msg ->
  inbound (Direct.env s) = inr io_EOF :: rest ->
  Channels.exited c = None ->
  Channels.pc_sink c = Channels.E_handle io_EOF ->
  (exists s',
     Direct.step cfg paint arg0 defaults_text Direct.InLoop s = Some s' /\
     Direct.exited s' = Some (os_Exit 0) /\
     exit_code (os_Exit 0) = 0%Z /\
     stderr (Direct.env s')
     = stderr (Direct.env s) ++ to_bytes (closure_notice paint) /\
     stdout (Direct.env s') = stdout (Direct.env s) /\
     written (Direct.env s') = written (Direct.env s) /\
     Direct.pc_main s' = Direct.pc_main s /\
     Direct.pc_out s' = Direct.pc_out s) /\
  (exists c',
     Channels.step cfg paint arg0 defaults_text Channels.PrintErrors c = Some c' /\
     Channels.exited c' = Some (os_Exit 0) /\
     stderr (Channels.env c')
     = stderr (Channels.env c) ++ to_bytes (closure_notice paint) /\
     stdout (Channels.env c') = stdout (Channels.env c) /\
     written (Channels.env c') = written (Channels.env c) /\
     Channels.pc_main c' = Channels.pc_main c /\
     Channels.pc_out c' = Channels.pc_out c) /\
  (forall err, closure_notice paint <> error_report paint err).
Proof.
  intros Hex Hpc Hin Hcex Hcpc. split; [|split].
  - unfold Direct.step, Direct.inLoop_turn, Direct.report.
    rewrite Hex, Hpc.
    destruct (ws_Read_error msg io_EOF rest _ Hin)
      as (w' & -> & ? & ? & ? & ? & ? & ? & ? & ? & ?).
    rewrite direct_printError_EOF. eexists. split; [done|].
    destruct s; simpl in *. subst. simpl. repeat split; congruence.
  - unfold Channels.step. rewrite Hcex, Hcpc, channels_printErrors_EOF.
    eexists. split; [done|].
    destruct c; simpl in *. subst. simpl. repeat split; congruence.
  - intros err. apply notice_is_no_report.
Qed.

(** C9: the sink ends the process exactly when the error is the value
    [io.EOF]; every other error, even one that reads "EOF" or reports
    another kind of connection failure, is reported and survived. *)
Theorem C9_terminal_iff_io_EOF cfg paint (err : error) (w : world) :
  (snd (Direct.printError cfg paint err w) = Some (os_Exit 0) <-> err = io_EOF) /\
  (snd (Direct.printError cfg paint err w) = None <-> err <> io_EOF) /\
  (snd (Channels.printErrors_turn cfg paint err w) = Some (os_Exit 0)
   <-> err = io_EOF) /\
  (snd (Channels.printErrors_turn cfg paint err w) = None <-> err <> io_EOF) /\
  Error (errors_New "EOF") = Error io_EOF /\
  snd (Direct.printError cfg paint (errors_New "EOF") w) = None /\
  snd (Direct.printError cfg paint io_ErrUnexpectedEOF w) = None /\
  snd (Channels.printErrors_turn cfg paint (errors_New "EOF") w) = None /\
  snd (Channels.printErrors_turn cfg paint io_ErrUnexpectedEOF w) = None.
Proof.
  rewrite (direct_printError_other _ _ (errors_New "EOF")),
    (direct_printError_other _ _ io_ErrUnexpectedEOF),
    (channels_printErrors_other _ _ (errors_New "EOF")),
    (channels_printErrors_other _ _ io_ErrUnexpectedEOF) by done.
  destruct (decide (err = io_EOF)) as [->|Hne].
  - rewrite direct_printError_EOF, channels_printErrors_EOF.
    simpl. repeat split; try done.
  - rewrite ?direct_printError_other, ?channels_printErrors_other by done.
    simpl. repeat split; try done.
Qed.

Lemma direct_printReceivedMessage_out cfg paint msg w :
  stdout (Direct.printReceivedMessage cfg paint msg w)
  = stdout w
      ++ (if raw cfg then msg
          else to_bytes (CR +:+ "< " +:+ paint FgCyan (to_string msg)
                            +:+ LF +:+ "> ")) /\
  stderr (Direct.printReceivedMessage cfg paint msg w) = stderr w /\
  inbound (Direct.printReceivedMessage cfg paint msg w) = inbound w /\
  delivered (Direct.printReceivedMessage cfg paint msg w) = delivered w.
Proof. unfold Direct.printReceivedMessage. by destruct (raw cfg). Qed.

Lemma channels_printReceivedMessages_out cfg paint msg w :
  stdout (Channels.printReceivedMessages_turn cfg paint msg w)
  = stdout w
      ++ (if raw cfg then msg
          else to_bytes (CR +:+ "< " +:+ paint FgCyan (to_string msg)
                            +:+ LF +:+ "> ")) /\
  stderr (Channels.printReceivedMessages_turn cfg paint msg w) = stderr w /\
  inbound (Channels.printReceivedMessages_turn cfg paint msg w) = inbound w.
Proof.
  unfold Channels.printReceivedMessages_turn.
  destruct (raw cfg); simpl; by rewrite ?to_bytes_to_string.
Qed.


(** ** What does hold for transient errors *)

(** In [src/main.go] a transient read error is printed in the very step
    that reads it, and the reader stands at its next read. *)
Lemma direct_read_error_reported cfg paint arg0 defaults_text
    (s : Direct.state) msg err rest :
  Direct.exited s = None -> Direct.pc_in s = Direct.I_read msg ->
  inbound (Direct.env s) = inr err :: rest -> err <> io_EOF ->
  exists s',
    Direct.step cfg paint arg0 defaults_text Direct.InLoop s = Some s' /\
    stderr (Direct.env s')
    = stderr (Direct.env s) ++ to_bytes (error_report paint err) /\
    delivered (Direct.env s') = delivered (Direct.env s) /\
    inbound (Direct.env s') = rest /\
    Direct.exited s' = None /\ Direct.pc_in s' = Direct.I_read msg.
Proof.
  intros Hex Hpc Hin Hne.
  unfold Direct.step, Direct.inLoop_turn, Direct.report. rewrite Hex, Hpc.
  destruct (ws_Read_error msg err rest _ Hin)
    as (w' & -> & ? & ? & ? & ? & ? & ? & ? & ? & ?).
  rewrite direct_printError_other by done. eexists. split; [done|].
  destruct s; simpl in *. subst.
  destruct (raw cfg); simpl; repeat split; congruence.
Qed.

(** So is a transient write error, by [outLoop]. *)
Lemma direct_write_error_reported cfg paint arg0 defaults_text
    (s : Direct.state) msg err results :
  Direct.exited s = None -> Direct.pc_out s = Direct.O_write msg ->
  wresults (Direct.env s) = Some err :: results -> err <> io_EOF ->
  exists s',
    Direct.step cfg paint arg0 defaults_text Direct.OutLoop s = Some s' /\
    stderr (Direct.env s')
    = stderr (Direct.env s) ++ to_bytes (error_report paint err) /\
    Direct.exited s' = None /\ Direct.pc_out s' = Direct.O_recv.
Proof.
  intros Hex Hpc Hw Hne.
  unfold Direct.step, Direct.outLoop_turn, Direct.report, ws_Write.
  rewrite Hex, Hpc, Hw. rewrite direct_printError_other by done.
  eexists. split; [done|].
  destruct s; simpl in *. subst.
  destruct (raw cfg); simpl; repeat split; congruence.
Qed.

(** After any number of transient read errors in a row the reader of
    [src/main.go] still delivers the frame behind them. *)
Lemma direct_reader_survives_errors cfg paint arg0 defaults_text errs :
  forall (s : Direct.state) msg data rest,
  Forall (fun err => err <> io_EOF) errs ->
  Direct.exited s = None -> Direct.pc_in s = Direct.I_read msg ->
  inbound (Direct.env s) = (inr <$> errs) ++ inl data :: rest ->
  length data <= length msg ->
  let s' :=
    Direct.run cfg paint arg0 defaults_text
      (replicate (S (length errs)) Direct.InLoop) s in
  Direct.exited s' = None /\
  delivered (Direct.env s') = delivered (Direct.env s) ++ [data] /\
  stderr (Direct.env s')
  = stderr (Direct.env s)
      ++ concat ((fun err => to_bytes (error_report paint err)) <$> errs).
Proof.
  induction errs as [|err errs IH]; intros s msg data rest Hq Hex Hpc Hin Hlen.
  - simpl in *. unfold Direct.step, Direct.inLoop_turn. rewrite Hex, Hpc.
    destruct (ws_Read_data msg data rest _ Hin)
      as (w' & -> & Ho & He & _ & _ & _ & _ & _ & Hd & Hi).
    rewrite read_into_slice, (take_ge data) in * by lia.
    destruct (direct_printReceivedMessage_out cfg paint data w')
      as (Hpo & Hpe & Hpi & Hpd).
    destruct s; simpl in *. rewrite Hpe, Hpd, He, Hd, app_nil_r. done.
  - apply Forall_cons in Hq as [Hne Hq].
    destruct (direct_read_error_reported cfg paint arg0 defaults_text
                s msg err _ Hex Hpc Hin Hne)
      as (s1 & Hs1 & He1 & Hd1 & Hi1 & Hex1 & Hpc1).
    change (replicate (S (length (err :: errs))) Direct.InLoop)
      with (Direct.InLoop :: replicate (S (length errs)) Direct.InLoop).
    cbn [Direct.run]. rewrite Hs1.
    destruct (IH s1 msg data rest Hq Hex1 Hpc1 Hi1 Hlen) as (Ha & Hb & Hc).
    rewrite Ha, Hb, Hc, He1, Hd1. simpl. by rewrite <- app_assoc.
Qed.

(** The steps of the inbound path of [src/unnamed/part_000], one by one *)
Lemma channels_step_read_error cfg paint arg0 defaults_text
    (c : Channels.state) err rest :
  Channels.exited c = None -> Channels.pc_in c = Channels.I_read ->
  inbound (Channels.env c) = inr err :: rest ->
  exists c1,
    Channels.step cfg paint arg0 defaults_text Channels.InLoop c = Some c1 /\
    Channels.pc_in c1 = Channels.I_send_err err /\
    inbound (Channels.env c1) = rest /\
    delivered (Channels.env c1) = delivered (Channels.env c) /\
    stderr (Channels.env c1) = stderr (Channels.env c) /\
    Channels.buf c1 = Channels.buf c /\
    Channels.exited c1 = None /\
    Channels.pc_sink c1 = Channels.pc_sink c /\
    Channels.pc_show c1 = Channels.pc_show c /\
    Channels.errors_closed c1 = Channels.errors_closed c /\
    Channels.in_closed c1 = Channels.in_closed c.
Proof.
  intros Hex Hpc Hin. unfold Channels.step. rewrite Hex, Hpc.
  destruct (ws_Read_error (Channels.buf c) err rest _ Hin)
    as (w' & -> & ? & ? & ? & ? & ? & ? & ? & ? & ?).
  eexists. split; [done|]. destruct c; simpl in *. by repeat split.
Qed.

Lemma channels_step_send_error cfg paint arg0 defaults_text
    (c : Channels.state) err :
  Channels.exited c = None -> Channels.pc_in c = Channels.I_send_err err ->
  Channels.errors_closed c = false -> Channels.pc_sink c = Channels.E_recv ->
  exists c1,
    Channels.step cfg paint arg0 defaults_text Channels.InLoop c = Some c1 /\
    Channels.pc_in c1 = Channels.I_read /\
    Channels.pc_sink c1 = Channels.E_handle err /\
    Channels.env c1 = Channels.env c /\
    Channels.buf c1 = Channels.buf c /\
    Channels.exited c1 = None /\
    Channels.pc_show c1 = Channels.pc_show c /\
    Channels.errors_closed c1 = false /\
    Channels.in_closed c1 = Channels.in_closed c.
Proof.
  intros Hex Hpc Hec Hsk. unfold Channels.step. rewrite Hex, Hpc, Hec, Hsk.
  eexists. split; [done|]. destruct c; simpl in *. by repeat split.
Qed.

Lemma channels_step_handle_error cfg paint arg0 defaults_text
    (c : Channels.state) err :
  Channels.exited c = None -> Channels.pc_sink c = Channels.E_handle err ->
  err <> io_EOF ->
  exists c1,
    Channels.step cfg paint arg0 defaults_text Channels.PrintErrors c = Some c1 /\
    Channels.pc_sink c1 = Channels.E_recv /\
    stderr (Channels.env c1)
    = stderr (Channels.env c) ++ to_bytes (error_report paint err) /\
    inbound (Channels.env c1) = inbound (Channels.env c) /\
    delivered (Channels.env c1) = delivered (Channels.env c) /\
    Channels.buf c1 = Channels.buf c /\
    Channels.exited c1 = None /\
    Channels.pc_in c1 = Channels.pc_in c /\
    Channels.pc_show c1 = Channels.pc_show c /\
    Channels.errors_closed c1 = Channels.errors_closed c /\
    Channels.in_closed c1 = Channels.in_closed c.
Proof.
  intros Hex Hsk Hne. unfold Channels.step. rewrite Hex, Hsk.
  rewrite channels_printErrors_other by done.
  eexists. split; [done|].
  destruct c; simpl in *. destruct (raw cfg); by repeat split.
Qed.

Lemma channels_step_read_data cfg paint arg0 defaults_text
    (c : Channels.state) data rest :
  Channels.exited c = None -> Channels.pc_in c = Channels.I_read ->
  inbound (Channels.env c) = inl data :: rest ->
  length data <= length (Channels.buf c) ->
  exists c1,
    Channels.step cfg paint arg0 defaults_text Channels.InLoop c = Some c1 /\
    Channels.pc_in c1 = Channels.I_send_msg (length data) /\
    Channels.view (length data) c1 = data /\
    inbound (Channels.env c1) = rest /\
    delivered (Channels.env c1) = delivered (Channels.env c) ++ [data] /\
    stderr (Channels.env c1) = stderr (Channels.env c) /\
    stdout (Channels.env c1) = stdout (Channels.env c) /\
    Channels.exited c1 = None /\
    Channels.pc_show c1 = Channels.pc_show c /\
    Channels.in_closed c1 = Channels.in_closed c.
Proof.
  intros Hex Hpc Hin Hlen. unfold Channels.step. rewrite Hex, Hpc.
  destruct (ws_Read_data (Channels.buf c) data rest _ Hin)
    as (w' & -> & Ho & He & _ & _ & _ & _ & _ & Hd & Hi).
  rewrite (take_ge data), (drop_ge data) in * by lia.
  eexists. split; [done|].
  destruct c; simpl in *. unfold Channels.view. simpl.
  by rewrite take_app_length.
Qed.

Lemma channels_step_send_msg cfg paint arg0 defaults_text
    (c : Channels.state) n :
  Channels.exited c = None -> Channels.pc_in c = Channels.I_send_msg n ->
  Channels.in_closed c = false -> Channels.pc_show c = Channels.P_recv ->
  exists c1,
    Channels.step cfg paint arg0 defaults_text Channels.InLoop c = Some c1 /\
    Channels.pc_in c1 = Channels.I_read /\
    Channels.pc_show c1 = Channels.P_print n /\
    Channels.env c1 = Channels.env c /\
    Channels.buf c1 = Channels.buf c /\
    Channels.exited c1 = None.
Proof.
  intros Hex Hpc Hic Hsh. unfold Channels.step. rewrite Hex, Hpc, Hic, Hsh.
  eexists. split; [done|]. destruct c; simpl in *. by repeat split.
Qed.

(** In [src/unnamed/part_000] the same holds once the three tasks of the
    inbound path run and are scheduled in turn: an error takes a read, a
    hand-over to the sink and the sink's report. *)
Lemma channels_reader_survives_errors cfg paint arg0 defaults_text errs :
  forall (c : Channels.state) data rest,
  Forall (fun err => err <> io_EOF) errs ->
  Channels.exited c = None -> Channels.pc_in c = Channels.I_read ->
  Channels.pc_sink c = Channels.E_recv -> Channels.pc_show c = Channels.P_recv ->
  Channels.errors_closed c = false -> Channels.in_closed c = false ->
  inbound (Channels.env c) = (inr <$> errs) ++ inl data :: rest ->
  length data <= length (Channels.buf c) ->
  let c' :=
    Channels.run cfg paint arg0 defaults_text
      (concat (replicate (length errs)
                 [Channels.InLoop; Channels.InLoop; Channels.PrintErrors])
         ++ [Channels.InLoop; Channels.InLoop]) c in
  Channels.exited c' = None /\
  Channels.pc_show c' = Channels.P_print (length data) /\
  Channels.view (length data) c' = data /\
  delivered (Channels.env c') = delivered (Channels.env c) ++ [data] /\
  stderr (Channels.env c')
  = stderr (Channels.env c)
      ++ concat ((fun err => to_bytes (error_report paint err)) <$> errs).
Proof.
  induction errs as [|err errs IH];
    intros c data rest Hq Hex Hpc Hsk Hsh Hec Hic Hin Hlen.
  - destruct (channels_step_read_data cfg paint arg0 defaults_text
                c data rest Hex Hpc Hin Hlen)
      as (c1 & Hs1 & Hp1 & Hv1 & _ & Hd1 & He1 & _ & Hx1 & Hsh1 & Hic1).
    rewrite Hsh in Hsh1. rewrite Hic in Hic1.
    destruct (channels_step_send_msg cfg paint arg0 defaults_text
                c1 (length data) Hx1 Hp1 Hic1 Hsh1)
      as (c2 & Hs2 & _ & Hsh2 & Hen2 & Hb2 & Hx2).
    simpl. rewrite Hs1, Hs2. unfold Channels.view in *.
    rewrite Hen2, Hb2, Hd1, He1, app_nil_r. done.
  - apply Forall_cons in Hq as [Hne Hq].
    destruct (channels_step_read_error cfg paint arg0 defaults_text
                c err _ Hex Hpc Hin)
      as (c1 & Hs1 & Hp1 & Hi1 & Hd1 & He1 & Hb1 & Hx1 & Hsk1 & Hsh1 & Hec1 & Hic1).
    rewrite Hsk in Hsk1. rewrite Hec in Hec1.
    destruct (channels_step_send_error cfg paint arg0 defaults_text
                c1 err Hx1 Hp1 Hec1 Hsk1)
      as (c2 & Hs2 & Hp2 & Hsk2 & Hen2 & Hb2 & Hx2 & Hsh2 & Hec2 & Hic2).
    destruct (channels_step_handle_error cfg paint arg0 defaults_text
                c2 err Hx2 Hsk2 Hne)
      as (c3 & Hs3 & Hsk3 & He3 & Hi3 & Hd3 & Hb3 & Hx3 & Hp3 & Hsh3 & Hec3 & Hic3).
    change (concat (replicate (length (err :: errs))
                      [Channels.InLoop; Channels.InLoop; Channels.PrintErrors])
            ++ [Channels.InLoop; Channels.InLoop])
      with (Channels.InLoop :: Channels.InLoop :: Channels.PrintErrors
            :: (concat (replicate (length errs)
                          [Channels.InLoop; Channels.InLoop; Channels.PrintErrors])
                ++ [Channels.InLoop; Channels.InLoop])).
    cbn [Channels.run]. rewrite Hs1, Hs2, Hs3.
    assert (Hin3 : inbound (Channels.env c3)
                   = (inr <$> errs) ++ inl data :: rest).
    { by rewrite Hi3, Hen2, Hi1. }
    assert (Hlen3 : length data <= length (Channels.buf c3)) by congruence.
    destruct (IH c3 data rest Hq Hx3 ltac:(congruence) Hsk3 ltac:(congruence)
                ltac:(congruence) ltac:(congruence) Hin3 Hlen3)
      as (Ha & Hb & Hc & Hdd & Hee).
    rewrite Ha, Hb, Hc, Hdd, Hee, He3, Hd3, Hen2, Hd1, He1. simpl.
    by rewrite <- app_assoc.
Qed.
(** ** Raw output

    In raw mode a frame that fits the buffer reaches standard output byte
    for byte when the presenter prints it before the next read.  In
    [src/main.go] that is one step of the reader, which calls
    [printReceivedMessage] itself.  In [src/unnamed/part_000] it takes
    the read, the hand-over of the slice to the waiting presenter and the
    presenter's [fmt.Printf], in this order. *)
Lemma raw_frame_printed_in_turn cfg paint arg0 defaults_text
    w0 sched buffer data rest w0' sched' data' rest' (msg : bytes) (w : world) :
  let s := Direct.run cfg paint arg0 defaults_text sched (Direct.init w0) in
  let c := Channels.run cfg paint arg0 defaults_text sched' (Channels.init w0') in
  raw cfg = true ->
  Direct.exited s = None ->
  Direct.pc_in s = Direct.I_read buffer ->
  inbound (Direct.env s) = inl data :: rest ->
  (Z.of_nat (length data) <= bufSize cfg)%Z ->
  Channels.exited c = None ->
  Channels.pc_in c = Channels.I_read ->
  Channels.pc_show c = Channels.P_recv ->
  inbound (Channels.env c) = inl data' :: rest' ->
  (Z.of_nat (length data') <= bufSize cfg)%Z ->
  (exists s',
     Direct.step cfg paint arg0 defaults_text Direct.InLoop s = Some s' /\
     stdout (Direct.env s') = stdout (Direct.env s) ++ data /\
     stderr (Direct.env s') = stderr (Direct.env s) /\
     inbound (Direct.env s') = rest) /\
  (let c' :=
     Channels.run cfg paint arg0 defaults_text
       [Channels.InLoop; Channels.InLoop; Channels.PrintReceivedMessages] c in
   stdout (Channels.env c') = stdout (Channels.env c) ++ data' /\
   stderr (Channels.env c') = stderr (Channels.env c) /\
   inbound (Channels.env c') = rest') /\
  stdout (Direct.printReceivedMessage cfg paint msg w) = stdout w ++ msg /\
  stdout (Channels.printReceivedMessages_turn cfg paint msg w) = stdout w ++ msg.
Proof.
  intros s c Hraw Hex Hpc Hin Hlen Hcex Hcpc Hcsh Hcin Hclen.
  destruct (direct_reachable cfg paint arg0 defaults_text w0 sched)
    as (_ & _ & Hb & _).
  fold s in Hb. unfold Direct.buffer_ok in Hb. rewrite Hpc in Hb.
  destruct Hb as [Hm Hn].
  destruct (channels_reachable cfg paint arg0 defaults_text w0' sched')
    as (_ & Hcl & Hcb & _).
  fold c in Hcl, Hcb. unfold Channels.buffer_ok in Hcb. rewrite Hcpc in Hcb.
  destruct Hcb as [Hcm _]. destruct Hcl as (Hic & _).
  assert (Hfit : take (length buffer) data = data).
  { apply take_ge. lia. }
  assert (Hnone : drop (length buffer) data = []).
  { apply drop_ge. lia. }
  split; [|split; [|split]].
  - unfold Direct.step, Direct.inLoop_turn. rewrite Hex, Hpc.
    destruct (ws_Read_data buffer data rest _ Hin)
      as (w' & -> & Ho & He & _ & _ & _ & _ & _ & Hd & Hi).
    eexists. split; [done|].
    rewrite read_into_slice, Hfit, Hnone in *.
    destruct (direct_printReceivedMessage_out cfg paint data w')
      as (Hpo & Hpe & Hpi & Hpd).
    destruct s; simpl in *.
    rewrite Hpo, Hpe, Hpi, Hraw, Ho, He, Hi. done.
  - destruct (channels_step_read_data cfg paint arg0 defaults_text
                c data' rest' Hcex Hcpc Hcin ltac:(lia))
      as (c1 & Hs1 & Hp1 & Hv1 & Hi1 & _ & He1 & Ho1 & Hx1 & Hsh1 & Hic1).
    rewrite Hcsh in Hsh1. rewrite Hic in Hic1.
    destruct (channels_step_send_msg cfg paint arg0 defaults_text
                c1 (length data') Hx1 Hp1 Hic1 Hsh1)
      as (c2 & Hs2 & _ & Hsh2 & Hen2 & Hb2 & Hx2).
    cbn [Channels.run]. rewrite Hs1, Hs2.
    unfold Channels.step. rewrite Hx2, Hsh2.
    destruct (channels_printReceivedMessages_out cfg paint
                (Channels.view (length data') c2) (Channels.env c2))
      as (Hpo & Hpe & Hpi).
    assert (Hv2 : Channels.view (length data') c2 = data').
    { unfold Channels.view in *. by rewrite Hb2. }
    destruct c2; simpl in *.
    rewrite Hpo, Hpe, Hpi, Hraw, Hv2, Hen2, Ho1, He1, Hi1. done.
  - destruct (direct_printReceivedMessage_out cfg paint msg w) as (-> & _).
    by rewrite Hraw.
  - destruct (channels_printReceivedMessages_out cfg paint msg w) as (-> & _).
    by rewrite Hraw.
Qed.

(** C7 (the code does not do this): raw mode of [src/unnamed/part_000],
    the frames "ping" and "pong" arrive back to back, each well within
    [bufSize].  [inLoop] hands the presenter a slice of its one buffer and
    goes on to its next read.  When that read runs before the presenter's
    [fmt.Printf], the presenter prints what the slice shows by then:
    what was read is "ping" and "pong", what standard output gets is
    "pongpong".  When the presenter prints before the next read the
    output is "pingpong"; and in [src/main.go], where the reader prints
    each message itself, standard output is what was read under every
    schedule. *)
Theorem C7_raw_presenter_prints_overwritten_slice :
  let frames := [to_bytes "ping"; to_bytes "pong"] in
  let run_c sched :=
    Channels.run Scenario.raw_flags Scenario.plain "wsd" "" sched
      (Channels.init Scenario.ping_pong) in
  let c :=
    run_c (Scenario.channels_to_read
             ++ [Channels.InLoop; Channels.InLoop; Channels.InLoop;
                 Channels.PrintReceivedMessages; Channels.InLoop;
                 Channels.PrintReceivedMessages]) in
  let c_in_turn :=
    run_c (Scenario.channels_to_read
             ++ [Channels.InLoop; Channels.InLoop;
                 Channels.PrintReceivedMessages; Channels.InLoop;
                 Channels.InLoop; Channels.PrintReceivedMessages]) in
  let s_end :=
    Direct.run Scenario.raw_flags Scenario.plain "wsd" ""
      (Scenario.direct_to_read ++ [Direct.InLoop; Direct.InLoop])
      (Direct.init Scenario.ping_pong) in
  (raw Scenario.raw_flags = true /\
   inbound Scenario.ping_pong = inl <$> frames /\
   Forall (fun frame =>
             (Z.of_nat (length frame) <= bufSize Scenario.raw_flags)%Z)
          frames) /\
  (Channels.exited c = None /\ stderr (Channels.env c) = [] /\
   delivered (Channels.env c) = frames /\
   stdout (Channels.env c) = to_bytes "pongpong" /\
   stdout (Channels.env c) <> concat frames) /\
  (delivered (Channels.env c_in_turn) = frames /\
   stdout (Channels.env c_in_turn) = concat frames) /\
  (delivered (Direct.env s_end) = frames /\
   stdout (Direct.env s_end) = concat frames) /\
  (forall sched,
     let s :=
       Direct.run Scenario.raw_flags Scenario.plain "wsd" "" sched
         (Direct.init Scenario.ping_pong) in
     stdout (Direct.env s) = concat (delivered (Direct.env s))).
Proof.
  intros frames run_c c c_in_turn s_end.
  split; [|split; [|split; [|split]]].
  - split; [done|]. split; [by vm_compute|].
    repeat constructor; by vm_compute.
  - repeat split; by vm_compute.
  - split; by vm_compute.
  - split; by vm_compute.
  - intros sched s.
    destruct (direct_raw_reachable Scenario.raw_flags Scenario.plain "wsd" ""
                Scenario.ping_pong sched eq_refl eq_refl eq_refl)
      as (chunks & Hd & Ho).
    fold s in Hd, Ho. simpl in Hd, Ho. by rewrite Ho, Hd.
Qed.

(** ** Lines on their way out

    At every moment of every schedule, whatever arrives from the remote,
    the lines typed are exactly: the messages handed to [ws.Write], then
    the one [outLoop] holds, then the one [main] holds, then the lines not
    yet scanned.  So the writes are a prefix of the typed lines. *)
Lemma typed_lines_kept_in_order cfg paint arg0 defaults_text
    w sched w' sched' :
  let s := Direct.run cfg paint arg0 defaults_text sched (Direct.init w) in
  let c := Channels.run cfg paint arg0 defaults_text sched' (Channels.init w') in
  (written w ++ (to_bytes <$> stdin w)
   = written (Direct.env s) ++ Direct.out_holds s ++ Direct.main_holds s
       ++ (to_bytes <$> stdin (Direct.env s))) /\
  written (Direct.env s) `prefix_of` written w ++ (to_bytes <$> stdin w) /\
  (written w' ++ (to_bytes <$> stdin w')
   = written (Channels.env c) ++ Channels.out_holds c ++ Channels.main_holds c
       ++ (to_bytes <$> stdin (Channels.env c))) /\
  written (Channels.env c) `prefix_of` written w' ++ (to_bytes <$> stdin w').
Proof.
  intros s c.
  destruct (direct_reachable cfg paint arg0 defaults_text w sched)
    as (_ & _ & _ & Hk & _).
  destruct (channels_reachable cfg paint arg0 defaults_text w' sched')
    as (_ & _ & _ & Hck & _).
  fold s in Hk. fold c in Hck. unfold Direct.lines_kept in Hk.
  unfold Channels.lines_kept in Hck.
  repeat split; try done.
  - rewrite Hk. by apply prefix_app_r.
  - rewrite Hck. by apply prefix_app_r.
Qed.

(** Whenever [outLoop] holds a message it can hand it to [ws.Write]. *)
Lemma direct_writer_progress cfg paint arg0 defaults_text (s : Direct.state) msg :
  Direct.exited s = None -> Direct.pc_out s = Direct.O_write msg ->
  exists s',
    Direct.step cfg paint arg0 defaults_text Direct.OutLoop s = Some s' /\
    written (Direct.env s') = written (Direct.env s) ++ [msg] /\
    Direct.pc_out s' = Direct.O_recv.
Proof.
  intros Hex Hpc. unfold Direct.step, Direct.outLoop_turn, Direct.report.
  rewrite Hex, Hpc. eexists. split; [done|].
  unfold ws_Write, Direct.printError, Direct.finish.
  destruct s; simpl in *.
  repeat (case_match; simplify_eq; simpl in *); done.
Qed.

Lemma channels_writer_progress cfg paint arg0 defaults_text (c : Channels.state) msg :
  Channels.exited c = None -> Channels.pc_out c = Channels.O_write msg ->
  exists c',
    Channels.step cfg paint arg0 defaults_text Channels.OutLoop c = Some c' /\
    written (Channels.env c') = written (Channels.env c) ++ [msg].
Proof.
  intros Hex Hpc. unfold Channels.step. rewrite Hex, Hpc.
  unfold ws_Write. destruct c; simpl in *.
  repeat (case_match; simplify_eq; simpl in *); eexists; split; done.
Qed.

(** ** Where the reports go

    The sink writes the notice or the report to standard error; to
    standard output it writes at most the prompt, and in raw mode nothing.
    So in raw mode, errors or not, standard output of
    [src/unnamed/part_000] is the concatenation of the messages as
    [printReceivedMessages] rendered them, and standard output of
    [src/main.go] the concatenation of the chunks read. *)
Lemma reports_go_to_stderr cfg paint arg0 defaults_text
    (any : flags) (err : error) (w : world) w0 sched w0' sched' :
  raw cfg = true -> displayVersion cfg = false -> displayHelp cfg = false ->
  let report :=
    if decide (err = io_EOF) then closure_notice paint
    else error_report paint err in
  let prompt :=
    if decide (err = io_EOF) then []
    else if raw any then [] else to_bytes "> " in
  (stderr (fst (Channels.printErrors_turn any paint err w))
   = stderr w ++ to_bytes report /\
   stdout (fst (Channels.printErrors_turn any paint err w))
   = stdout w ++ prompt /\
   stdout (fst (Channels.printErrors_turn cfg paint err w)) = stdout w) /\
  (stderr (fst (Direct.printError any paint err w)) = stderr w ++ to_bytes report /\
   stdout (fst (Direct.printError any paint err w)) = stdout w ++ prompt /\
   stdout (fst (Direct.printError cfg paint err w)) = stdout w) /\
  stdout (Channels.env
            (Channels.run cfg paint arg0 defaults_text sched (Channels.init w0)))
  = stdout w0
      ++ concat (Channels.shown cfg paint arg0 defaults_text sched
                   (Channels.init w0)) /\
  (exists chunks,
     delivered (Direct.env
                  (Direct.run cfg paint arg0 defaults_text sched' (Direct.init w0')))
     = delivered w0' ++ chunks /\
     stdout (Direct.env
               (Direct.run cfg paint arg0 defaults_text sched' (Direct.init w0')))
     = stdout w0' ++ concat chunks).
Proof.
  intros Hraw HV HH report prompt. unfold report, prompt.
  repeat split.
  - destruct (decide (err = io_EOF)) as [->|Hne].
    + by rewrite channels_printErrors_EOF.
    + rewrite channels_printErrors_other by done. by destruct (raw any).
  - destruct (decide (err = io_EOF)) as [->|Hne].
    + rewrite channels_printErrors_EOF. simpl. by rewrite app_nil_r.
    + rewrite channels_printErrors_other by done.
      destruct (raw any); simpl; by rewrite ?app_nil_r.
  - destruct (decide (err = io_EOF)) as [->|Hne].
    + by rewrite channels_printErrors_EOF.
    + rewrite channels_printErrors_other by done. by rewrite Hraw.
  - destruct (decide (err = io_EOF)) as [->|Hne].
    + by rewrite direct_printError_EOF.
    + rewrite direct_printError_other by done. by destruct (raw any).
  - destruct (decide (err = io_EOF)) as [->|Hne].
    + rewrite direct_printError_EOF. simpl. by rewrite app_nil_r.
    + rewrite direct_printError_other by done.
      destruct (raw any); simpl; by rewrite ?app_nil_r.
  - destruct (decide (err = io_EOF)) as [->|Hne].
    + by rewrite direct_printError_EOF.
    + rewrite direct_printError_other by done. by rewrite Hraw.
  - apply (channels_raw_reachable cfg paint arg0 defaults_text w0); try done.
    all: repeat split; simpl; try done; try lia.
  - apply (direct_raw_reachable cfg paint arg0 defaults_text w0' sched'); done.
Qed.

(** C10 (the code does not do this): raw mode of [src/unnamed/part_000],
    the remote sends "ping", then a read fails, then it sends "pong".
    The error path does what the claim says of it: in raw mode the sink
    writes its report to standard error and nothing to standard output,
    whatever the error.  But standard output is not the concatenation of
    the messages received: the presenter prints its slice of the
    reader's buffer after the reader has read "pong" into it, so what was
    received is "ping", "pong" and standard output holds "pongpong".
    In [src/main.go] standard output is the concatenation of what was
    read, under every schedule. *)
Theorem C10_raw_output_is_not_what_was_received :
  let frames := [to_bytes "ping"; to_bytes "pong"] in
  let c :=
    Channels.run Scenario.raw_flags Scenario.plain "wsd" ""
      (Scenario.channels_to_read
         ++ [Channels.InLoop; Channels.InLoop; Channels.InLoop;
             Channels.InLoop; Channels.PrintErrors; Channels.InLoop;
             Channels.PrintReceivedMessages; Channels.InLoop;
             Channels.PrintReceivedMessages])
      (Channels.init Scenario.ping_error_pong) in
  let s_end :=
    Direct.run Scenario.raw_flags Scenario.plain "wsd" ""
      (Scenario.direct_to_read
         ++ [Direct.InLoop; Direct.InLoop; Direct.InLoop])
      (Direct.init Scenario.ping_error_pong) in
  (raw Scenario.raw_flags = true /\
   inbound Scenario.ping_error_pong
   = [inl (to_bytes "ping"); inr Scenario.broken_pipe;
      inl (to_bytes "pong")] /\
   Scenario.broken_pipe <> io_EOF) /\
  (forall cfg paint err w,
     raw cfg = true ->
     stdout (fst (Channels.printErrors_turn cfg paint err w)) = stdout w /\
     stderr (fst (Channels.printErrors_turn cfg paint err w))
     = stderr w
         ++ to_bytes (if decide (err = io_EOF) then closure_notice paint
                      else error_report paint err)) /\
  (Channels.exited c = None /\
   stderr (Channels.env c)
   = to_bytes (error_report Scenario.plain Scenario.broken_pipe) /\
   delivered (Channels.env c) = frames /\
   stdout (Channels.env c) = to_bytes "pongpong" /\
   stdout (Channels.env c) <> concat (delivered (Channels.env c))) /\
  (stderr (Direct.env s_end)
   = to_bytes (error_report Scenario.plain Scenario.broken_pipe) /\
   delivered (Direct.env s_end) = frames /\
   stdout (Direct.env s_end) = concat frames) /\
  (forall sched,
     let s :=
       Direct.run Scenario.raw_flags Scenario.plain "wsd" "" sched
         (Direct.init Scenario.ping_error_pong) in
     stdout (Direct.env s) = concat (delivered (Direct.env s))).
Proof.
  intros frames c s_end.
  split; [|split; [|split; [|split]]].
  - by repeat split.
  - intros cfg paint err w Hraw.
    destruct (decide (err = io_EOF)) as [->|Hne].
    + by rewrite channels_printErrors_EOF.
    + rewrite channels_printErrors_other by done. by rewrite Hraw.
  - repeat split; by vm_compute.
  - repeat split; by vm_compute.
  - intros sched s.
    destruct (direct_raw_reachable Scenario.raw_flags Scenario.plain "wsd" ""
                Scenario.ping_error_pong sched eq_refl eq_refl eq_refl)
      as (chunks & Hd & Ho).
    fold s in Hd, Ho. simpl in Hd, Ho. by rewrite Ho, Hd.
Qed.

(** ** Sessions that do not end as the specification says *)



(** C1 (the code does not do this): the remote closes the connection
    right after the handshake.  The process ends through [os.Exit(0)]
    with the connection opened once and closed never; the deferred
    [ws.Close()] is still pending. *)
Theorem C1_remote_close_leaves_connection_open :
  let s :=
    Direct.run Scenario.raw_flags Scenario.plain "wsd" ""
      [Direct.Main; Direct.Main; Direct.InLoop; Direct.InLoop]
      (Direct.init Scenario.remote_closes) in
  let c :=
    Channels.run Scenario.raw_flags Scenario.plain "wsd" ""
      [Channels.Main; Channels.Main; Channels.Main; Channels.Main;
       Channels.InLoop; Channels.InLoop; Channels.InLoop; Channels.PrintErrors]
      (Channels.init Scenario.remote_closes) in
  (Direct.exited s = Some (os_Exit 0) /\
   opened (Direct.env s) = 1 /\ closed (Direct.env s) = 0 /\
   Direct.deferred s = [Direct.Defer_ws_Close (Some 0)]) /\
  (Channels.exited c = Some (os_Exit 0) /\
   opened (Channels.env c) = 1 /\ closed (Channels.env c) = 0 /\
   Channels.deferred c
   = [Channels.Defer_close_errors; Channels.Defer_close_in;
      Channels.Defer_ws_Close (Some 0)]).
Proof. vm_compute. repeat split. Qed.





(** On [Scenario.write_fails] the states of [src/unnamed/part_000] never
    leave the input loop. *)
Lemma write_error_jam_step cfg paint arg0 defaults_text t s s' :
  raw cfg = false -> displayVersion cfg = false -> displayHelp cfg = false ->
  Scenario.write_error_jam s ->
  Channels.step cfg paint arg0 defaults_text t s = Some s' ->
  Scenario.write_error_jam s'.
Proof.
  intros Hraw HV HH Hj Hs.
  assert (Hf : Channels.pc_main s = Channels.M_start ->
               Channels.exited s = None -> s = Channels.init Scenario.write_fails).
  { intros Hp _. destruct Hj as (_ & _ & _ & _ & _ & _ & _ & Hm).
    by rewrite Hp in Hm. }
  destruct Hj as (Hex & Hsink & Hin & Hshow & Herr & Hec & Hoc & Hm).
  channels_inv Scenario.write_fails Hf Hs;
    unfold Scenario.write_error_jam, Scenario.jammed_out,
      Scenario.before_write, Channels.init in *;
    simpl in *; try done; try congruence.
  all: destruct_and?; simplify_eq; simpl in *; try done.
  all: try (repeat split; try done; try congruence;
            intuition (simplify_eq; simpl in *; eauto; congruence)).
  all: match goal with
       | H : match ?p with Channels.M_start => _ | _ => _ end |- _ =>
           destruct p
       end; try done.
  all: repeat split; try done.
  all: repeat match goal with
         | H : _ \/ _ |- _ => destruct H
         | H : _ /\ _ |- _ => destruct H
         end; simplify_eq.
  all: repeat match goal with
         | E : written _ = _ |- _ => rewrite E in *
         | E : wresults _ = _ |- _ => rewrite E in *
         | E : stdin _ = _ |- _ => rewrite E in *
         end; simplify_eq; simpl; eauto 10.
Qed.

Lemma write_error_jam_reachable sched :
  Scenario.write_error_jam
    (Channels.run Scenario.interactive_flags Scenario.plain "wsd" "" sched
       (Channels.init Scenario.write_fails)).
Proof.
  apply channels_run_invariant.
  - intros t s s'. by apply write_error_jam_step.
  - by repeat split.
Qed.

(** C4 (the code does not do this): interactive mode of
    [src/unnamed/part_000], the operator types two lines and the first
    write fails with a transient error.  Under every schedule the error is
    never printed, the second line is never written and [main] never
    leaves its input loop; the session ends up with every goroutine
    blocked, [outLoop] still holding the error for a sink that was not
    started. *)
Theorem C4_write_error_jams_the_session sched :
  let c :=
    Channels.run Scenario.interactive_flags Scenario.plain "wsd" "" sched
      (Channels.init Scenario.write_fails) in
  let c_end :=
    Channels.run Scenario.interactive_flags Scenario.plain "wsd" ""
      [Channels.Main; Channels.Main; Channels.Main; Channels.OutLoop;
       Channels.Main; Channels.Main; Channels.Main]
      (Channels.init Scenario.write_fails) in
  Scenario.broken_pipe <> io_EOF /\
  (stderr (Channels.env c) = [] /\ Channels.pc_sink c = Channels.E_idle /\
   written (Channels.env c) `prefix_of` [to_bytes "a"] /\
   Channels.pc_main c <> Channels.M_go_inLoop) /\
  (Channels.pc_out c_end = Channels.O_send_err Scenario.broken_pipe /\
   Channels.pc_main c_end = Channels.M_send (to_bytes "b") /\
   Channels.stuck Scenario.interactive_flags Scenario.plain "wsd" "" c_end).
Proof.
  intros c c_end.
  destruct (write_error_jam_reachable sched)
    as (Hex & Hsink & Hin & Hshow & Herr & Hec & Hoc & Hm).
  fold c in Hex, Hsink, Hin, Hshow, Herr, Hec, Hoc, Hm.
  split; [done|]. split; [|split; [|split]].
  - repeat split; try done.
    + assert (Hw : written (Channels.env c) = [] \/
                   written (Channels.env c) = [to_bytes "a"]).
      { unfold Scenario.jammed_out, Scenario.before_write in Hm.
        destruct (Channels.pc_main c); try done.
        - rewrite Hm. by left.
        - tauto.
        - tauto.
        - tauto. }
      destruct Hw as [-> | ->]; [apply prefix_nil|done].
    + intros E. by rewrite E in Hm.
  - by vm_compute.
  - by vm_compute.
  - intros []; by vm_compute.
Qed.

(** C8 (the code does not do this): interactive mode of
    [src/unnamed/part_000], the operator types "a" and "b" and the write
    of "a" fails with a transient error.  The order of the lines is kept,
    as it is at every moment of every session: what was handed to
    [ws.Write] is a prefix of the lines typed.  But the second line never
    becomes a write: under every schedule the writes stay within "a",
    because [outLoop] blocks at its send to the error sink and [main] at
    its send of "b"; the runtime then ends the process.  When no write
    fails both lines are written, and [src/main.go] writes both lines
    after the failed write too. *)
Theorem C8_line_after_failed_write_is_never_written :
  let lines := ["a"; "b"] in
  let run_c sched :=
    Channels.run Scenario.interactive_flags Scenario.plain "wsd" "" sched
      (Channels.init Scenario.write_fails) in
  let c_end :=
    run_c [Channels.Main; Channels.Main; Channels.Main; Channels.OutLoop;
           Channels.Main; Channels.Main; Channels.Main] in
  let c_ok :=
    Channels.run Scenario.interactive_flags Scenario.plain "wsd" ""
      [Channels.Main; Channels.Main; Channels.Main; Channels.OutLoop;
       Channels.Main; Channels.Main; Channels.Main; Channels.OutLoop]
      (Channels.init Scenario.chat) in
  let s_end :=
    Direct.run Scenario.interactive_flags Scenario.plain "wsd" ""
      [Direct.Main; Direct.Main; Direct.Main; Direct.OutLoop;
       Direct.Main; Direct.Main; Direct.Main; Direct.OutLoop]
      (Direct.init Scenario.write_fails) in
  (raw Scenario.interactive_flags = false /\
   stdin Scenario.write_fails = lines /\
   wresults Scenario.write_fails = [Some Scenario.broken_pipe] /\
   Scenario.broken_pipe <> io_EOF) /\
  (forall cfg paint arg0 defaults_text w sched,
     written (Channels.env
                (Channels.run cfg paint arg0 defaults_text sched
                   (Channels.init w)))
     `prefix_of` written w ++ (to_bytes <$> stdin w)) /\
  (forall sched,
     written (Channels.env (run_c sched)) `prefix_of` [to_bytes "a"] /\
     written (Channels.env (run_c sched)) <> to_bytes <$> lines) /\
  (written (Channels.env c_end) = [to_bytes "a"] /\
   Channels.pc_main c_end = Channels.M_send (to_bytes "b") /\
   Channels.pc_out c_end = Channels.O_send_err Scenario.broken_pipe /\
   stdin (Channels.env c_end) = [] /\
   Channels.fate_of Scenario.interactive_flags Scenario.plain "wsd" "" c_end
   = Aborts) /\
  (stdin Scenario.chat = lines /\
   written (Channels.env c_ok) = to_bytes <$> lines) /\
  (written (Direct.env s_end) = to_bytes <$> lines /\
   stderr (Direct.env s_end)
   = to_bytes (error_report Scenario.plain Scenario.broken_pipe) /\
   Direct.exited s_end = None).
Proof.
  intros lines run_c c_end c_ok s_end.
  split; [by repeat split|].
  split; [|split; [|split; [|split]]].
  - intros cfg paint arg0 defaults_text w sched.
    destruct (channels_reachable cfg paint arg0 defaults_text w sched)
      as (_ & _ & _ & Hk & _).
    unfold Channels.lines_kept in Hk. rewrite Hk. by apply prefix_app_r.
  - intros sched.
    destruct (write_error_jam_reachable sched)
      as (_ & _ & _ & _ & _ & _ & _ & Hm).
    fold (run_c sched) in Hm.
    assert (Hw : written (Channels.env (run_c sched)) = [] \/
                 written (Channels.env (run_c sched)) = [to_bytes "a"]).
    { unfold Scenario.jammed_out, Scenario.before_write in Hm.
      destruct (Channels.pc_main (run_c sched)); try done.
      - rewrite Hm. by left.
      - tauto.
      - tauto.
      - tauto. }
    destruct Hw as [-> | ->]; split; try done.
    apply prefix_nil.
  - repeat split; by vm_compute.
  - split; by vm_compute.
  - repeat split; by vm_compute.
Qed.

(** ** The order in which [main] starts its tasks *)





(** ** The theorems at concrete sessions *)

Lemma C3_remote_close_exits_zero_witness :
  let s :=
    Direct.run Scenario.raw_flags Scenario.plain "wsd" ""
      Scenario.direct_to_read (Direct.init Scenario.remote_closes) in
  let c :=
    Channels.run Scenario.raw_flags Scenario.plain "wsd" ""
      Scenario.channels_to_handle (Channels.init Scenario.remote_closes) in
  (Direct.exited s = None /\
   Direct.pc_in s = Direct.I_read (replicate 1024 x00) /\
   inbound (Direct.env s) = [inr io_EOF] /\
   Channels.exited c = None /\
   Channels.pc_sink c = Channels.E_handle io_EOF) /\
  (exists s',
     Direct.step Scenario.raw_flags Scenario.plain "wsd" "" Direct.InLoop s
     = Some s' /\
     Direct.exited s' = Some (os_Exit 0)) /\
  (exists c',
     Channels.step Scenario.raw_flags Scenario.plain "wsd" ""
       Channels.PrintErrors c = Some c' /\
     Channels.exited c' = Some (os_Exit 0)).
Proof.
  intros s c.
  assert (H1 : Direct.exited s = None) by (by vm_compute).
  assert (H2 : Direct.pc_in s = Direct.I_read (replicate 1024 x00))
    by (by vm_compute).
  assert (H3 : inbound (Direct.env s) = [inr io_EOF]) by (by vm_compute).
  assert (H4 : Channels.exited c = None) by (by vm_compute).
  assert (H5 : Channels.pc_sink c = Channels.E_handle io_EOF)
    by (by vm_compute).
  split; [by repeat split|].
  destruct (C3_remote_close_exits_zero Scenario.raw_flags Scenario.plain
              "wsd" "" s c (replicate 1024 x00) [] H1 H2 H3 H4 H5)
    as ((s' & Hs & He & _) & (c' & Hc & Hce & _) & _).
  split; [by exists s'|by exists c'].
Defined.





(** * More of the program: whole sessions of [main], [dial], [inLoop] and [outLoop] *)

(** ** Before and after [main]'s first step *)

(** Once the process has ended no goroutine moves. *)
Lemma direct_exited_run cfg paint arg0 defaults_text sched s :
  Direct.exited s <> None ->
  Direct.run cfg paint arg0 defaults_text sched s = s.
Proof.
  intros He. induction sched as [|t sched IH]; [done|].
  cbn [Direct.run]. unfold Direct.step.
  destruct (Direct.exited s); [done|congruence].
Qed.

Lemma channels_exited_run cfg paint arg0 defaults_text sched c :
  Channels.exited c <> None ->
  Channels.run cfg paint arg0 defaults_text sched c = c.
Proof.
  intros He. induction sched as [|t sched IH]; [done|].
  cbn [Channels.run]. unfold Channels.step.
  destruct (Channels.exited c); [done|congruence].
Qed.

(** Until [main] has made its first step nothing else exists; a schedule
    either leaves the initial state as it is or goes through
    [main_start]. *)
Lemma direct_run_from_init cfg paint arg0 defaults_text w sched :
  (~ In Direct.Main sched /\
   Direct.run cfg paint arg0 defaults_text sched (Direct.init w) = Direct.init w) \/
  (In Direct.Main sched /\
   exists sched',
     Direct.run cfg paint arg0 defaults_text sched (Direct.init w)
     = Direct.run cfg paint arg0 defaults_text sched'
         (Direct.main_start cfg paint arg0 defaults_text (Direct.init w))).
Proof.
  induction sched as [|t sched IH].
  - left. split; [by intros []|done].
  - destruct t.
    + right. split; [by left|]. by exists sched.
    + destruct IH as [[Hn IH]|[Hi [sched' IH]]].
      * left. split; [by intros [|]|done].
      * right. split; [by right|]. by exists sched'.
    + destruct IH as [[Hn IH]|[Hi [sched' IH]]].
      * left. split; [by intros [|]|done].
      * right. split; [by right|]. by exists sched'.
Qed.

Lemma channels_run_from_init cfg paint arg0 defaults_text w sched :
  (~ In Channels.Main sched /\
   Channels.run cfg paint arg0 defaults_text sched (Channels.init w)
   = Channels.init w) \/
  (In Channels.Main sched /\
   exists sched',
     Channels.run cfg paint arg0 defaults_text sched (Channels.init w)
     = Channels.run cfg paint arg0 defaults_text sched'
         (Channels.main_start cfg paint arg0 defaults_text (Channels.init w))).
Proof.
  induction sched as [|t sched IH].
  - left. split; [by intros []|done].
  - destruct t.
    1: { right. split; [by left|]. by exists sched. }
    all: destruct IH as [[Hn IH]|[Hi [sched' IH]]];
      [ left; split; [by intros [|]|done]
      | right; split; [by right|]; by exists sched' ].
Qed.

(** A first step of [main] that ends the process is all that happens. *)
Lemma direct_run_early_exit cfg paint arg0 defaults_text w sched :
  Direct.exited (Direct.main_start cfg paint arg0 defaults_text (Direct.init w))
  <> None ->
  (~ In Direct.Main sched /\
   Direct.run cfg paint arg0 defaults_text sched (Direct.init w) = Direct.init w) \/
  (In Direct.Main sched /\
   Direct.run cfg paint arg0 defaults_text sched (Direct.init w)
   = Direct.main_start cfg paint arg0 defaults_text (Direct.init w)).
Proof.
  intros He.
  destruct (direct_run_from_init cfg paint arg0 defaults_text w sched)
    as [?|[Hi [sched' E]]]; [by left|right].
  split; [done|]. by rewrite E, direct_exited_run.
Qed.

Lemma channels_run_early_exit cfg paint arg0 defaults_text w sched :
  Channels.exited
    (Channels.main_start cfg paint arg0 defaults_text (Channels.init w))
  <> None ->
  (~ In Channels.Main sched /\
   Channels.run cfg paint arg0 defaults_text sched (Channels.init w)
   = Channels.init w) \/
  (In Channels.Main sched /\
   Channels.run cfg paint arg0 defaults_text sched (Channels.init w)
   = Channels.main_start cfg paint arg0 defaults_text (Channels.init w)).
Proof.
  intros He.
  destruct (channels_run_from_init cfg paint arg0 defaults_text w sched)
    as [?|[Hi [sched' E]]]; [by left|right].
  split; [done|]. by rewrite E, channels_exited_run.
Qed.

(** ** [-version] and [-help] *)

(** X1: with [-version] the program prints "<program> version 0.1.0" and a
    newline on standard output and ends with exit code 0, as [main]'s
    first step and whatever the other flags say.  It prints nothing on
    standard error, dials nothing, reads no input and starts no task,
    under every schedule. *)
Theorem X1_version_prints_and_exits cfg paint arg0 defaults_text
    w sched w' sched' :
  displayVersion cfg = true ->
  let s := Direct.run cfg paint arg0 defaults_text sched (Direct.init w) in
  let c := Channels.run cfg paint arg0 defaults_text sched' (Channels.init w') in
  let line := to_bytes (arg0 +:+ " version " +:+ "0.1.0" +:+ LF) in
  ((In Direct.Main sched ->
    Direct.exited s = Some (os_Exit 0) /\
    stdout (Direct.env s) = stdout w ++ line) /\
   (~ In Direct.Main sched -> s = Direct.init w) /\
   stderr (Direct.env s) = stderr w /\
   handshakes (Direct.env s) = handshakes w /\
   opened (Direct.env s) = opened w /\
   stdin (Direct.env s) = stdin w /\ inbound (Direct.env s) = inbound w /\
   Direct.started s = []) /\
  ((In Channels.Main sched' ->
    Channels.exited c = Some (os_Exit 0) /\
    stdout (Channels.env c) = stdout w' ++ line) /\
   (~ In Channels.Main sched' -> c = Channels.init w') /\
   stderr (Channels.env c) = stderr w' /\
   handshakes (Channels.env c) = handshakes w' /\
   opened (Channels.env c) = opened w' /\
   stdin (Channels.env c) = stdin w' /\ inbound (Channels.env c) = inbound w' /\
   Channels.started c = []).
Proof.
  intros HV s c line. split.
  - assert (E : Direct.main_start cfg paint arg0 defaults_text (Direct.init w)
                = Direct.with_exited (Some (os_Exit 0))
                    (Direct.with_env
                       (Printf (arg0 +:+ " version " +:+ Version +:+ LF) w)
                       (Direct.init w))).
    { unfold Direct.main_start. by rewrite HV. }
    destruct (direct_run_early_exit cfg paint arg0 defaults_text w sched)
      as [[Hn Hr]|[Hi Hr]].
    + by rewrite E.
    + subst s. rewrite Hr. by repeat split.
    + subst s. rewrite Hr, E. by repeat split.
  - assert (E : Channels.main_start cfg paint arg0 defaults_text (Channels.init w')
                = Channels.with_exited (Some (os_Exit 0))
                    (Channels.with_env
                       (Printf (arg0 +:+ " version " +:+ Version +:+ LF) w')
                       (Channels.init w'))).
    { unfold Channels.main_start. by rewrite HV. }
    destruct (channels_run_early_exit cfg paint arg0 defaults_text w' sched')
      as [[Hn Hr]|[Hi Hr]].
    + by rewrite E.
    + subst c. rewrite Hr. by repeat split.
    + subst c. rewrite Hr, E. by repeat split.
Qed.

(** X2: with [-help] and without [-version] the program prints
    "Usage of <program>:" and a newline on standard output, has
    [flag.PrintDefaults] list the flags on standard error, and ends with
    exit code 0.  It dials nothing, reads no input and starts no task. *)
Theorem X2_help_prints_usage_and_exits cfg paint arg0 defaults_text
    w sched w' sched' :
  displayVersion cfg = false -> displayHelp cfg = true ->
  let s := Direct.run cfg paint arg0 defaults_text sched (Direct.init w) in
  let c := Channels.run cfg paint arg0 defaults_text sched' (Channels.init w') in
  let usage := to_bytes ("Usage of " +:+ arg0 +:+ ":" +:+ LF) in
  ((In Direct.Main sched ->
    Direct.exited s = Some (os_Exit 0) /\
    stdout (Direct.env s) = stdout w ++ usage /\
    stderr (Direct.env s) = stderr w ++ to_bytes defaults_text) /\
   (~ In Direct.Main sched -> s = Direct.init w) /\
   handshakes (Direct.env s) = handshakes w /\
   opened (Direct.env s) = opened w /\
   stdin (Direct.env s) = stdin w /\ inbound (Direct.env s) = inbound w /\
   Direct.started s = []) /\
  ((In Channels.Main sched' ->
    Channels.exited c = Some (os_Exit 0) /\
    stdout (Channels.env c) = stdout w' ++ usage /\
    stderr (Channels.env c) = stderr w' ++ to_bytes defaults_text) /\
   (~ In Channels.Main sched' -> c = Channels.init w') /\
   handshakes (Channels.env c) = handshakes w' /\
   opened (Channels.env c) = opened w' /\
   stdin (Channels.env c) = stdin w' /\ inbound (Channels.env c) = inbound w' /\
   Channels.started c = []).
Proof.
  intros HV HH s c usage. split.
  - assert (E : Direct.main_start cfg paint arg0 defaults_text (Direct.init w)
                = Direct.with_exited (Some (os_Exit 0))
                    (Direct.with_env
                       (Fprintf_Stderr defaults_text
                          (Printf ("Usage of " +:+ arg0 +:+ ":" +:+ LF) w))
                       (Direct.init w))).
    { unfold Direct.main_start. by rewrite HV, HH. }
    destruct (direct_run_early_exit cfg paint arg0 defaults_text w sched)
      as [[Hn Hr]|[Hi Hr]].
    + by rewrite E.
    + subst s. rewrite Hr. by repeat split.
    + subst s. rewrite Hr, E. by repeat split.
  - assert (E : Channels.main_start cfg paint arg0 defaults_text (Channels.init w')
                = Channels.with_exited (Some (os_Exit 0))
                    (Channels.with_env
                       (Fprintf_Stderr defaults_text
                          (Printf ("Usage of " +:+ arg0 +:+ ":" +:+ LF) w'))
                       (Channels.init w'))).
    { unfold Channels.main_start. by rewrite HV, HH. }
    destruct (channels_run_early_exit cfg paint arg0 defaults_text w' sched')
      as [[Hn Hr]|[Hi Hr]].
    + by rewrite E.
    + subst c. rewrite Hr. by repeat split.
    + subst c. rewrite Hr, E. by repeat split.
Qed.

(** ** A dial that fails *)

(** X3: when [websocket.NewConfig] or [websocket.DialConfig] reports an
    error, [main] panics in its first step: the process ends with exit
    status 2.  Unless in raw mode the "connecting to" line is on standard
    output by then (it is printed after the dial), the "successfully
    connected" line is not.  No connection was opened or closed, no input
    read, nothing written, no task started. *)
Theorem X3_failed_dial_panics cfg paint arg0 defaults_text
    w sched e w' sched' e' :
  displayVersion cfg = false -> displayHelp cfg = false ->
  config_err w = Some e \/ dial_err w = Some e ->
  config_err w' = Some e' \/ dial_err w' = Some e' ->
  let s := Direct.run cfg paint arg0 defaults_text sched (Direct.init w) in
  let c := Channels.run cfg paint arg0 defaults_text sched' (Channels.init w') in
  ((In Direct.Main sched ->
    (exists p, Direct.exited s = Some (go_panic p) /\
               exit_code (go_panic p) = 2%Z) /\
    stdout (Direct.env s)
    = stdout w ++ (if raw cfg then []
                   else to_bytes (Direct.connecting_line cfg paint))) /\
   (~ In Direct.Main sched -> s = Direct.init w) /\
   opened (Direct.env s) = opened w /\ closed (Direct.env s) = closed w /\
   stdin (Direct.env s) = stdin w /\ inbound (Direct.env s) = inbound w /\
   written (Direct.env s) = written w /\
   Direct.started s = [] /\
   Direct.pc_out s = Direct.O_idle /\ Direct.pc_in s = Direct.I_idle) /\
  ((In Channels.Main sched' ->
    (exists p, Channels.exited c = Some (go_panic p) /\
               exit_code (go_panic p) = 2%Z) /\
    stdout (Channels.env c)
    = stdout w' ++ (if raw cfg then []
                    else to_bytes (Channels.connecting_line cfg paint))) /\
   (~ In Channels.Main sched' -> c = Channels.init w') /\
   opened (Channels.env c) = opened w' /\ closed (Channels.env c) = closed w' /\
   stdin (Channels.env c) = stdin w' /\ inbound (Channels.env c) = inbound w' /\
   written (Channels.env c) = written w' /\
   Channels.started c = [] /\
   Channels.pc_out c = Channels.O_idle /\ Channels.pc_in c = Channels.I_idle /\
   Channels.pc_show c = Channels.P_idle /\ Channels.pc_sink c = Channels.E_idle).
Proof.
  intros HV HH He He' s c. split.
  - pose proof (direct_run_early_exit cfg paint arg0 defaults_text w sched) as Hr.
    fold s in Hr.
    destruct (direct_main_start_cases cfg paint arg0 defaults_text
                (Direct.init w) eq_refl eq_refl)
      as [?|? ?|w1 e1 _ _ _ Hw Hop Her Hout|? ? ? Hc Hd|? ? ? Hc Hd];
      simpl in *; try congruence.
    2, 3: destruct He; congruence.
    destruct Hw as (?&?&?&?&?&?).
    destruct Hr as [[Hn ->]|[Hi ->]]; [done|..]; repeat split; try done.
    by eexists.
  - pose proof (channels_run_early_exit cfg paint arg0 defaults_text w' sched')
      as Hr.
    fold c in Hr.
    destruct (channels_main_start_cases cfg paint arg0 defaults_text
                (Channels.init w') eq_refl eq_refl)
      as [?|? ?|w1 e1 _ _ _ Hw Hop Her Hout|? ? ? Hc Hd|? ? ? Hc Hd];
      simpl in *; try congruence.
    2, 3: destruct He'; congruence.
    destruct Hw as (?&?&?&?&?&?).
    destruct Hr as [[Hn ->]|[Hi ->]]; [done|..]; repeat split; try done.
    by eexists.
Qed.

(** ** The handshake *)

(** What [main]'s first step adds to the log of handshakes: nothing for
    [-version], [-help] or a failing [websocket.NewConfig], else the
    configuration [dial] has built. *)
Lemma dial_handshakes cfg w ws err w' :
  dial cfg (url cfg) (protocol cfg) (origin cfg) w = (ws, err, w') ->
  handshakes w'
  = match config_err w with
    | Some _ => handshakes w
    | None =>
        handshakes w
          ++ [WsConfig (url cfg) (origin cfg)
                (if decide (protocol cfg = "") then [] else [protocol cfg])
                (if decide (userAgent cfg = "") then []
                 else [("User-Agent", userAgent cfg)])
                (insecureSkipVerify cfg)]
    end.
Proof.
  unfold dial, websocket_NewConfig, websocket_DialConfig.
  destruct (config_err w); [by intros [= <- <- <-]|].
  destruct (dial_err w); intros [= <- <- <-]; simpl.
  all: destruct (decide (protocol cfg = "")), (decide (protocol cfg ≠ ""));
    try done.
  all: destruct (decide (userAgent cfg = "")), (decide (userAgent cfg ≠ ""));
    done.
Qed.

Lemma direct_main_start_handshakes cfg paint arg0 defaults_text w :
  handshakes (Direct.env (Direct.main_start cfg paint arg0 defaults_text
                            (Direct.init w)))
  = if displayVersion cfg || displayHelp cfg then handshakes w
    else match config_err w with
         | Some _ => handshakes w
         | None =>
             handshakes w
               ++ [WsConfig (url cfg) (origin cfg)
                     (if decide (protocol cfg = "") then [] else [protocol cfg])
                     (if decide (userAgent cfg = "") then []
                      else [("User-Agent", userAgent cfg)])
                     (insecureSkipVerify cfg)]
         end.
Proof.
  unfold Direct.main_start.
  destruct (displayVersion cfg); [done|].
  destruct (displayHelp cfg); [done|]. cbn [orb Direct.init Direct.env].
  destruct (dial _ _ _ _ _) as [[ws err] w1] eqn:Hd.
  apply dial_handshakes in Hd. rewrite <- Hd.
  destruct err, ws, (raw cfg); done.
Qed.

Lemma channels_main_start_handshakes cfg paint arg0 defaults_text w :
  handshakes (Channels.env (Channels.main_start cfg paint arg0 defaults_text
                              (Channels.init w)))
  = if displayVersion cfg || displayHelp cfg then handshakes w
    else match config_err w with
         | Some _ => handshakes w
         | None =>
             handshakes w
               ++ [WsConfig (url cfg) (origin cfg)
                     (if decide (protocol cfg = "") then [] else [protocol cfg])
                     (if decide (userAgent cfg = "") then []
                      else [("User-Agent", userAgent cfg)])
                     (insecureSkipVerify cfg)]
         end.
Proof.
  unfold Channels.main_start.
  destruct (displayVersion cfg); [done|].
  destruct (displayHelp cfg); [done|]. cbn [orb Channels.init Channels.env].
  destruct (dial _ _ _ _ _) as [[ws err] w1] eqn:Hd.
  apply dial_handshakes in Hd. rewrite <- Hd.
  destruct err, ws, (raw cfg); done.
Qed.

(** After [main]'s first step nothing dials again. *)
Lemma direct_handshake_step cfg paint arg0 defaults_text w0 H t s s' :
  handshakes (Direct.env (Direct.main_start cfg paint arg0 defaults_text
                            (Direct.init w0))) = H ->
  Direct.fresh w0 s -> Direct.lifecycle w0 s ->
  s = Direct.init w0 \/ handshakes (Direct.env s) = H ->
  Direct.step cfg paint arg0 defaults_text t s = Some s' ->
  s' = Direct.init w0 \/ handshakes (Direct.env s') = H.
Proof.
  intros Hstart Hf Hl Hinv Hs. revert Hstart. unfold Direct.fresh in Hf.
  direct_inv w0 Hf Hs; intros Hstart; right;
    unfold Direct.lifecycle, Direct.init in *; simpl in *;
    try done; inv_facts; try lia.
  all: destruct Hinv as [?|?]; simplify_eq; done.
Qed.

Lemma channels_handshake_step cfg paint arg0 defaults_text w0 H t s s' :
  handshakes (Channels.env (Channels.main_start cfg paint arg0 defaults_text
                              (Channels.init w0))) = H ->
  Channels.fresh w0 s -> Channels.lifecycle w0 s ->
  s = Channels.init w0 \/ handshakes (Channels.env s) = H ->
  Channels.step cfg paint arg0 defaults_text t s = Some s' ->
  s' = Channels.init w0 \/ handshakes (Channels.env s') = H.
Proof.
  intros Hstart Hf Hl Hinv Hs. revert Hstart. unfold Channels.fresh in Hf.
  channels_inv w0 Hf Hs; intros Hstart; right;
    unfold Channels.lifecycle, Channels.init in *; simpl in *;
    try done; inv_facts; try lia.
  all: destruct Hinv as [?|?]; simplify_eq; done.
Qed.

Lemma direct_handshake_reachable cfg paint arg0 defaults_text w sched :
  let s := Direct.run cfg paint arg0 defaults_text sched (Direct.init w) in
  s = Direct.init w \/
  handshakes (Direct.env s)
  = handshakes (Direct.env (Direct.main_start cfg paint arg0 defaults_text
                              (Direct.init w))).
Proof.
  simpl.
  assert (Direct.fresh w (Direct.run cfg paint arg0 defaults_text sched (Direct.init w)) /\
          Direct.lifecycle w (Direct.run cfg paint arg0 defaults_text sched (Direct.init w)) /\
          (Direct.run cfg paint arg0 defaults_text sched (Direct.init w) = Direct.init w \/
           handshakes (Direct.env (Direct.run cfg paint arg0 defaults_text sched (Direct.init w)))
           = handshakes (Direct.env (Direct.main_start cfg paint arg0 defaults_text
                                       (Direct.init w))))) as (_ & _ & H); [|done].
  apply (direct_run_invariant cfg paint arg0 defaults_text
           (fun s => Direct.fresh w s /\ Direct.lifecycle w s /\
                     (s = Direct.init w \/
                      handshakes (Direct.env s)
                      = handshakes (Direct.env (Direct.main_start cfg paint arg0
                                                  defaults_text (Direct.init w)))))).
  - intros t s s' (Hf & Hl & Hh) Hs.
    eauto 10 using direct_fresh_step, direct_lifecycle_step,
      direct_handshake_step.
  - repeat split; simpl; try done; try lia. by left.
Qed.

Lemma channels_handshake_reachable cfg paint arg0 defaults_text w sched :
  let c := Channels.run cfg paint arg0 defaults_text sched (Channels.init w) in
  c = Channels.init w \/
  handshakes (Channels.env c)
  = handshakes (Channels.env (Channels.main_start cfg paint arg0 defaults_text
                                (Channels.init w))).
Proof.
  simpl.
  assert (Channels.fresh w (Channels.run cfg paint arg0 defaults_text sched (Channels.init w)) /\
          Channels.lifecycle w (Channels.run cfg paint arg0 defaults_text sched (Channels.init w)) /\
          (Channels.run cfg paint arg0 defaults_text sched (Channels.init w) = Channels.init w \/
           handshakes (Channels.env (Channels.run cfg paint arg0 defaults_text sched (Channels.init w)))
           = handshakes (Channels.env (Channels.main_start cfg paint arg0 defaults_text
                                         (Channels.init w))))) as (_ & _ & H); [|done].
  apply (channels_run_invariant cfg paint arg0 defaults_text
           (fun s => Channels.fresh w s /\ Channels.lifecycle w s /\
                     (s = Channels.init w \/
                      handshakes (Channels.env s)
                      = handshakes (Channels.env (Channels.main_start cfg paint arg0
                                                    defaults_text (Channels.init w)))))).
  - intros t s s' (Hf & Hl & Hh) Hs.
    eauto 10 using channels_fresh_step, channels_lifecycle_step,
      channels_handshake_step.
  - repeat split; simpl; try done; try lia. by left.
Qed.

(** Once [main] has made its first step it never stands at its entry
    again. *)
Lemma direct_moved_step cfg paint arg0 defaults_text w0 t s s' :
  Direct.fresh w0 s -> Direct.lifecycle w0 s ->
  Direct.pc_main s <> Direct.M_start \/ Direct.exited s <> None ->
  Direct.step cfg paint arg0 defaults_text t s = Some s' ->
  Direct.pc_main s' <> Direct.M_start \/ Direct.exited s' <> None.
Proof.
  intros Hf Hl Hinv Hs. unfold Direct.fresh in Hf.
  direct_inv w0 Hf Hs;
    unfold Direct.lifecycle, Direct.init in *; simpl in *;
    try (by destruct Hinv); inv_facts; try lia.
  all: try (by left). all: try (by right).
  all: destruct Hinv; [by left|done].
Qed.

Lemma channels_moved_step cfg paint arg0 defaults_text w0 t s s' :
  Channels.fresh w0 s -> Channels.lifecycle w0 s ->
  Channels.pc_main s <> Channels.M_start \/ Channels.exited s <> None ->
  Channels.step cfg paint arg0 defaults_text t s = Some s' ->
  Channels.pc_main s' <> Channels.M_start \/ Channels.exited s' <> None.
Proof.
  intros Hf Hl Hinv Hs. unfold Channels.fresh in Hf.
  channels_inv w0 Hf Hs;
    unfold Channels.lifecycle, Channels.init in *; simpl in *;
    try (by destruct Hinv); inv_facts; try lia.
  all: try (by left). all: try (by right).
  all: destruct Hinv; [by left|done].
Qed.

Lemma direct_moved cfg paint arg0 defaults_text w sched :
  let s := Direct.run cfg paint arg0 defaults_text sched (Direct.init w) in
  In Direct.Main sched ->
  Direct.pc_main s <> Direct.M_start \/ Direct.exited s <> None.
Proof.
  intros s Hi. subst s.
  destruct (direct_run_from_init cfg paint arg0 defaults_text w sched)
    as [[Hn _]|[_ [sched1 ->]]]; [done|].
  assert (Hs : Direct.step cfg paint arg0 defaults_text Direct.Main (Direct.init w)
               = Some (Direct.main_start cfg paint arg0 defaults_text
                         (Direct.init w))) by done.
  assert (Hf0 : Direct.fresh w (Direct.init w)) by done.
  assert (Hl0 : Direct.lifecycle w (Direct.init w)).
  { repeat split; simpl; try done; lia. }
  pose proof (direct_fresh_step cfg paint arg0 defaults_text w _ _ _ Hf0 Hs) as Hf1.
  pose proof (direct_lifecycle_step cfg paint arg0 defaults_text w _ _ _ Hf0 Hl0 Hs)
    as Hl1.
  assert (Hm1 : Direct.pc_main (Direct.main_start cfg paint arg0 defaults_text
                                  (Direct.init w)) <> Direct.M_start \/
                Direct.exited (Direct.main_start cfg paint arg0 defaults_text
                                 (Direct.init w)) <> None).
  { destruct (direct_main_start_cases cfg paint arg0 defaults_text
                (Direct.init w) eq_refl eq_refl); simpl; auto. }
  revert Hf1 Hl1 Hm1.
  generalize (Direct.main_start cfg paint arg0 defaults_text (Direct.init w)).
  intros s1 Hf1 Hl1 Hm1.
  assert (Direct.fresh w (Direct.run cfg paint arg0 defaults_text sched1 s1) /\
          Direct.lifecycle w (Direct.run cfg paint arg0 defaults_text sched1 s1) /\
          (Direct.pc_main (Direct.run cfg paint arg0 defaults_text sched1 s1)
           <> Direct.M_start \/
           Direct.exited (Direct.run cfg paint arg0 defaults_text sched1 s1)
           <> None)) as (_ & _ & H); [|done].
  apply (direct_run_invariant cfg paint arg0 defaults_text
           (fun s => Direct.fresh w s /\ Direct.lifecycle w s /\
                     (Direct.pc_main s <> Direct.M_start \/
                      Direct.exited s <> None))); [|done].
  intros t s s' (Hf & Hl & Hm) Hst.
  eauto 10 using direct_fresh_step, direct_lifecycle_step, direct_moved_step.
Qed.

Lemma channels_moved cfg paint arg0 defaults_text w sched :
  let c := Channels.run cfg paint arg0 defaults_text sched (Channels.init w) in
  In Channels.Main sched ->
  Channels.pc_main c <> Channels.M_start \/ Channels.exited c <> None.
Proof.
  intros c Hi. subst c.
  destruct (channels_run_from_init cfg paint arg0 defaults_text w sched)
    as [[Hn _]|[_ [sched1 ->]]]; [done|].
  assert (Hs : Channels.step cfg paint arg0 defaults_text Channels.Main
                 (Channels.init w)
               = Some (Channels.main_start cfg paint arg0 defaults_text
                         (Channels.init w))) by done.
  assert (Hf0 : Channels.fresh w (Channels.init w)) by done.
  assert (Hl0 : Channels.lifecycle w (Channels.init w)).
  { repeat split; simpl; try done; lia. }
  pose proof (channels_fresh_step cfg paint arg0 defaults_text w _ _ _ Hf0 Hs)
    as Hf1.
  pose proof (channels_lifecycle_step cfg paint arg0 defaults_text w _ _ _
                Hf0 Hl0 Hs) as Hl1.
  assert (Hm1 : Channels.pc_main (Channels.main_start cfg paint arg0 defaults_text
                                    (Channels.init w)) <> Channels.M_start \/
                Channels.exited (Channels.main_start cfg paint arg0 defaults_text
                                   (Channels.init w)) <> None).
  { destruct (channels_main_start_cases cfg paint arg0 defaults_text
                (Channels.init w) eq_refl eq_refl); simpl; auto. }
  revert Hf1 Hl1 Hm1.
  generalize (Channels.main_start cfg paint arg0 defaults_text (Channels.init w)).
  intros s1 Hf1 Hl1 Hm1.
  assert (Channels.fresh w (Channels.run cfg paint arg0 defaults_text sched1 s1) /\
          Channels.lifecycle w (Channels.run cfg paint arg0 defaults_text sched1 s1) /\
          (Channels.pc_main (Channels.run cfg paint arg0 defaults_text sched1 s1)
           <> Channels.M_start \/
           Channels.exited (Channels.run cfg paint arg0 defaults_text sched1 s1)
           <> None)) as (_ & _ & H); [|done].
  apply (channels_run_invariant cfg paint arg0 defaults_text
           (fun s => Channels.fresh w s /\ Channels.lifecycle w s /\
                     (Channels.pc_main s <> Channels.M_start \/
                      Channels.exited s <> None))); [|done].
  intros t s s' (Hf & Hl & Hm) Hst.
  eauto 10 using channels_fresh_step, channels_lifecycle_step,
    channels_moved_step.
Qed.

(** X4: the program dials at most once in its life, in [main]'s first
    step, and with the configuration [dial] builds from the flags: the
    address and the origin as given, the subprotocol list holding the
    [-protocol] value unless it is empty, a User-Agent header unless
    [-userAgent] is empty, and certificate verification skipped exactly
    when [-insecureSkipVerify] is set.  With [-version], [-help] or a
    failing [websocket.NewConfig] there is no handshake at all. *)
Theorem X4_one_handshake_built_from_flags cfg paint arg0 defaults_text
    w sched w' sched' :
  let s := Direct.run cfg paint arg0 defaults_text sched (Direct.init w) in
  let c := Channels.run cfg paint arg0 defaults_text sched' (Channels.init w') in
  let config :=
    WsConfig (url cfg) (origin cfg)
      (if decide (protocol cfg = "") then [] else [protocol cfg])
      (if decide (userAgent cfg = "") then []
       else [("User-Agent", userAgent cfg)])
      (insecureSkipVerify cfg) in
  let dials (w0 : world) :=
    displayVersion cfg = false /\ displayHelp cfg = false /\
    config_err w0 = None in
  ((handshakes (Direct.env s) = handshakes w \/
    handshakes (Direct.env s) = handshakes w ++ [config]) /\
   (In Direct.Main sched -> dials w ->
    handshakes (Direct.env s) = handshakes w ++ [config]) /\
   (~ dials w -> handshakes (Direct.env s) = handshakes w)) /\
  ((handshakes (Channels.env c) = handshakes w' \/
    handshakes (Channels.env c) = handshakes w' ++ [config]) /\
   (In Channels.Main sched' -> dials w' ->
    handshakes (Channels.env c) = handshakes w' ++ [config]) /\
   (~ dials w' -> handshakes (Channels.env c) = handshakes w')).
Proof.
  intros s c config dials. split.
  - pose proof (direct_handshake_reachable cfg paint arg0 defaults_text w sched)
      as Hh. simpl in Hh. fold s in Hh.
    rewrite direct_main_start_handshakes in Hh. fold config in Hh.
    pose proof (direct_moved cfg paint arg0 defaults_text w sched) as Hm.
    fold s in Hm.
    split; [|split].
    + destruct Hh as [->|Hh]; [by left|].
      destruct (displayVersion cfg || displayHelp cfg), (config_err w); auto.
    + intros Hi (HV & HH & Hc). destruct Hh as [E|Hh].
      * specialize (Hm Hi). rewrite E in Hm. by destruct Hm.
      * by rewrite HV, HH, Hc in Hh.
    + intros Hn. destruct Hh as [->|Hh]; [done|].
      destruct (displayVersion cfg) eqn:HV, (displayHelp cfg) eqn:HH,
        (config_err w) eqn:Hc; try done.
      destruct Hn. by repeat split.
  - pose proof (channels_handshake_reachable cfg paint arg0 defaults_text w' sched')
      as Hh. simpl in Hh. fold c in Hh.
    rewrite channels_main_start_handshakes in Hh. fold config in Hh.
    pose proof (channels_moved cfg paint arg0 defaults_text w' sched') as Hm.
    fold c in Hm.
    split; [|split].
    + destruct Hh as [->|Hh]; [by left|].
      destruct (displayVersion cfg || displayHelp cfg), (config_err w'); auto.
    + intros Hi (HV & HH & Hc). destruct Hh as [E|Hh].
      * specialize (Hm Hi). rewrite E in Hm. by destruct Hm.
      * by rewrite HV, HH, Hc in Hh.
    + intros Hn. destruct Hh as [->|Hh]; [done|].
      destruct (displayVersion cfg) eqn:HV, (displayHelp cfg) eqn:HH,
        (config_err w') eqn:Hc; try done.
      destruct Hn. by repeat split.
Qed.

(** ** What a session does and never does *)

(** X5: in an interactive session whose dial succeeded, from [main]'s
    first step on, standard output ends with the prompt "> " at every
    moment of every schedule: whatever the program prints there (the
    banner, a received message, the echo after an error), the prompt
    comes last. *)
Theorem X5_prompt_ends_standard_output cfg paint arg0 defaults_text
    w sched w' sched' :
  raw cfg = false -> displayVersion cfg = false -> displayHelp cfg = false ->
  config_err w = None -> dial_err w = None ->
  config_err w' = None -> dial_err w' = None ->
  In Direct.Main sched -> In Channels.Main sched' ->
  let s := Direct.run cfg paint arg0 defaults_text sched (Direct.init w) in
  let c := Channels.run cfg paint arg0 defaults_text sched' (Channels.init w') in
  to_bytes "> " `suffix_of` stdout (Direct.env s) /\
  to_bytes "> " `suffix_of` stdout (Channels.env c).
Proof.
  intros Hraw HV HH Hc Hd Hc' Hd' Hi Hi' s c. split.
  - destruct (direct_session_reachable cfg paint arg0 defaults_text w sched)
      as (_ & _ & _ & _ & Hp).
    destruct (Hp Hraw HV HH Hc Hd) as [E|Hs]; [|done].
    pose proof (direct_moved cfg paint arg0 defaults_text w sched Hi) as Hm.
    rewrite E in Hm. by destruct Hm.
  - destruct (channels_session_reachable cfg paint arg0 defaults_text w' sched')
      as (_ & _ & _ & _ & Hp).
    destruct (Hp Hraw HV HH Hc' Hd') as [E|Hs]; [|done].
    pose proof (channels_moved cfg paint arg0 defaults_text w' sched' Hi') as Hm.
    rewrite E in Hm. by destruct Hm.
Qed.

(** X6: in raw mode the program only listens.  Under every schedule the
    operator input is never read, nothing is written to the connection,
    and neither the outbound writer nor the input loop is started. *)
Theorem X6_raw_mode_only_listens cfg paint arg0 defaults_text
    w sched w' sched' :
  raw cfg = true ->
  let s := Direct.run cfg paint arg0 defaults_text sched (Direct.init w) in
  let c := Channels.run cfg paint arg0 defaults_text sched' (Channels.init w') in
  (stdin (Direct.env s) = stdin w /\ written (Direct.env s) = written w /\
   Direct.pc_out s = Direct.O_idle /\
   ~ In OutboundWriter (Direct.started s) /\
   ~ In OperatorInputLoop (Direct.started s)) /\
  (stdin (Channels.env c) = stdin w' /\ written (Channels.env c) = written w' /\
   Channels.pc_out c = Channels.O_idle /\
   ~ In OutboundWriter (Channels.started c) /\
   ~ In OperatorInputLoop (Channels.started c)).
Proof.
  intros Hraw s c. split.
  - destruct (direct_session_reachable cfg paint arg0 defaults_text w sched)
      as (_ & Hu & _).
    destruct (Hu Hraw) as (? & ? & _ & ?).
    destruct (direct_reachable cfg paint arg0 defaults_text w sched)
      as (_ & _ & _ & _ & Hst & Hph & _).
    fold s in Hst, Hph |- *. repeat split; try done.
    all: rewrite Hst; unfold Direct.start_order; rewrite Hraw.
    all: destruct (Direct.pc_main s); simpl; try congruence; intuition congruence.
  - destruct (channels_session_reachable cfg paint arg0 defaults_text w' sched')
      as (_ & Hu & _).
    destruct (Hu Hraw) as (? & ? & _ & ?).
    destruct (channels_reachable cfg paint arg0 defaults_text w' sched')
      as (_ & _ & _ & _ & Hst & Hph & _).
    fold c in Hst, Hph |- *. repeat split; try done.
    all: rewrite Hst; unfold Channels.start_order; rewrite Hraw.
    all: destruct (Channels.pc_main c); simpl; try congruence;
      intuition congruence.
Qed.

(** X7: in an interactive session nothing is received while operator
    input is left.  As long as a line is still to be scanned, under every
    schedule, the inbound reader has not been started (nor, in
    [src/unnamed/part_000], the presenter and the error sink), and no
    frame and no error has been taken from the connection. *)
Theorem X7_no_read_before_end_of_input cfg paint arg0 defaults_text
    w sched w' sched' :
  raw cfg = false ->
  let s := Direct.run cfg paint arg0 defaults_text sched (Direct.init w) in
  let c := Channels.run cfg paint arg0 defaults_text sched' (Channels.init w') in
  (stdin (Direct.env s) <> [] ->
   Direct.pc_in s = Direct.I_idle /\
   ~ In InboundReader (Direct.started s) /\
   inbound (Direct.env s) = inbound w /\
   delivered (Direct.env s) = delivered w) /\
  (stdin (Channels.env c) <> [] ->
   Channels.pc_in c = Channels.I_idle /\
   Channels.pc_show c = Channels.P_idle /\
   Channels.pc_sink c = Channels.E_idle /\
   ~ In InboundReader (Channels.started c) /\
   inbound (Channels.env c) = inbound w' /\
   delivered (Channels.env c) = delivered w').
Proof.
  intros Hraw s c. split.
  - intros Hin.
    destruct (direct_session_reachable cfg paint arg0 defaults_text w sched)
      as (_ & _ & Hw & _).
    specialize (Hw Hraw). fold s in Hw. unfold Direct.reader_waits in Hw.
    destruct (direct_reachable cfg paint arg0 defaults_text w sched)
      as (_ & _ & _ & _ & Hst & _ & _).
    fold s in Hst.
    destruct (Direct.pc_main s); try done; destruct Hw as (? & ? & ?);
      repeat split; try done; rewrite Hst; simpl; intuition congruence.
  - intros Hin.
    destruct (channels_session_reachable cfg paint arg0 defaults_text w' sched')
      as (_ & _ & Hw & _).
    specialize (Hw Hraw). fold c in Hw. unfold Channels.reader_waits in Hw.
    destruct (channels_reachable cfg paint arg0 defaults_text w' sched')
      as (_ & _ & _ & _ & Hst & _ & _).
    fold c in Hst.
    destruct (Channels.pc_main c); try done;
      destruct Hw as (? & ? & ? & ? & ?);
      repeat split; try done; rewrite Hst; simpl; intuition congruence.
Qed.

(** X8: with a negative [-bufSize] the inbound reader panics at its
    [make([]byte, bufSize)], before its first read: the step it takes
    once started ends the process with exit status 2, and under every
    schedule nothing is ever taken from the connection. *)
Theorem X8_negative_bufSize_panics_reader cfg paint arg0 defaults_text
    w sched w' sched' :
  (bufSize cfg < 0)%Z ->
  let s := Direct.run cfg paint arg0 defaults_text sched (Direct.init w) in
  let c := Channels.run cfg paint arg0 defaults_text sched' (Channels.init w') in
  (inbound (Direct.env s) = inbound w /\
   delivered (Direct.env s) = delivered w /\
   (Direct.pc_in s <> Direct.I_idle -> Direct.exited s = None ->
    exists s1,
      Direct.step cfg paint arg0 defaults_text Direct.InLoop s = Some s1 /\
      Direct.exited s1 = Some (go_panic MakesliceLenOutOfRange) /\
      exit_code (go_panic MakesliceLenOutOfRange) = 2%Z)) /\
  (inbound (Channels.env c) = inbound w' /\
   delivered (Channels.env c) = delivered w' /\
   (Channels.pc_in c <> Channels.I_idle -> Channels.exited c = None ->
    exists c1,
      Channels.step cfg paint arg0 defaults_text Channels.InLoop c = Some c1 /\
      Channels.exited c1 = Some (go_panic MakesliceLenOutOfRange) /\
      exit_code (go_panic MakesliceLenOutOfRange) = 2%Z)).
Proof.
  intros Hneg s c.
  assert (Hmk : make_bytes (bufSize cfg) = None).
  { apply make_bytes_refuses. by left. }
  split.
  - destruct (direct_session_reachable cfg paint arg0 defaults_text w sched)
      as (_ & _ & _ & Hn & _).
    destruct (Hn Hmk) as (Hpc & ? & ?). fold s in Hpc |- *.
    repeat split; try done. intros Hidle Hex.
    destruct Hpc as [Hpc|Hpc]; [done|].
    unfold Direct.step, Direct.finish. rewrite Hex, Hpc, Hmk.
    eexists. by repeat split.
  - destruct (channels_session_reachable cfg paint arg0 defaults_text w' sched')
      as (_ & _ & _ & Hn & _).
    destruct (Hn Hmk) as (Hpc & _ & _ & ? & ?). fold c in Hpc |- *.
    repeat split; try done. intros Hidle Hex.
    destruct Hpc as [Hpc|Hpc]; [done|].
    unfold Channels.step, Channels.finish. rewrite Hex, Hpc, Hmk.
    eexists. by repeat split.
Qed.


(** ** The reader, read by read *)

(** One read of frame data by [inLoop] of [src/main.go], with the call of
    [printReceivedMessage] that follows it *)
Lemma direct_step_read_data cfg paint arg0 defaults_text
    (s : Direct.state) msg data rest :
  Direct.exited s = None -> Direct.pc_in s = Direct.I_read msg ->
  inbound (Direct.env s) = inl data :: rest ->
  exists s',
    Direct.step cfg paint arg0 defaults_text Direct.InLoop s = Some s' /\
    Direct.exited s' = None /\
    (exists msg', Direct.pc_in s' = Direct.I_read msg' /\
                  length msg' = length msg) /\
    delivered (Direct.env s')
    = delivered (Direct.env s) ++ [take (length msg) data] /\
    inbound (Direct.env s')
    = match drop (length msg) data with
      | [] => rest
      | _ :: _ => inl (drop (length msg) data) :: rest
      end /\
    stdout (Direct.env s')
    = stdout (Direct.env s)
        ++ (if raw cfg then take (length msg) data
            else to_bytes (CR +:+ "< "
                             +:+ paint FgCyan (to_string (take (length msg) data))
                             +:+ LF +:+ "> ")) /\
    stderr (Direct.env s') = stderr (Direct.env s).
Proof.
  intros Hex Hpc Hin. unfold Direct.step, Direct.inLoop_turn. rewrite Hex, Hpc.
  destruct (ws_Read_data msg data rest _ Hin)
    as (w' & -> & Ho & He & _ & _ & _ & _ & _ & Hd & Hi).
  eexists. split; [done|].
  rewrite read_into_slice.
  destruct (direct_printReceivedMessage_out cfg paint (take (length msg) data) w')
    as (Hpo & Hpe & Hpi & Hpd).
  destruct s; simpl in *.
  rewrite Hpo, Hpe, Hpi, Hpd, Ho, He, Hd, Hi.
  repeat split; try done.
  eexists. split; [done|]. apply read_into_length.
Qed.

(** Reads of a pending frame into an empty buffer *)
Lemma direct_empty_reads cfg paint arg0 defaults_text n :
  forall (s : Direct.state) msg data rest,
  Direct.exited s = None -> Direct.pc_in s = Direct.I_read msg ->
  length msg = 0 ->
  inbound (Direct.env s) = inl data :: rest -> data <> [] ->
  let s' :=
    Direct.run cfg paint arg0 defaults_text (replicate n Direct.InLoop) s in
  Direct.exited s' = None /\
  inbound (Direct.env s') = inl data :: rest /\
  delivered (Direct.env s') = delivered (Direct.env s) ++ replicate n [] /\
  stdout (Direct.env s')
  = stdout (Direct.env s)
      ++ concat (replicate n
                   (if raw cfg then []
                    else to_bytes (CR +:+ "< " +:+ paint FgCyan "" +:+ LF
                                      +:+ "> "))) /\
  stderr (Direct.env s') = stderr (Direct.env s).
Proof.
  induction n as [|n IH]; intros s msg data rest Hex Hpc Hlen Hin Hne.
  { simpl. by rewrite !app_nil_r. }
  destruct (direct_step_read_data cfg paint arg0 defaults_text
              s msg data rest Hex Hpc Hin)
    as (s1 & Hs1 & Hex1 & (msg1 & Hpc1 & Hlen1) & Hd1 & Hi1 & Ho1 & He1).
  rewrite Hlen in *. rewrite take_0, drop_0 in *.
  assert (Hin1 : inbound (Direct.env s1) = inl data :: rest).
  { rewrite Hi1. by destruct data. }
  cbn [replicate Direct.run]. rewrite Hs1.
  destruct (IH s1 msg1 data rest Hex1 Hpc1 Hlen1 Hin1 Hne)
    as (Ha & Hb & Hc & Hd & He).
  rewrite Ha, Hb, Hc, Hd, He, Hd1, Ho1, He1.
  repeat split; try done.
  - by rewrite <- app_assoc.
  - rewrite <- app_assoc. simpl. by destruct (raw cfg).
Qed.

(** Reads of a pending frame into a buffer of [size > 0] bytes, until the
    frame is used up *)
Lemma direct_frame_reads cfg paint arg0 defaults_text size k :
  forall (s : Direct.state) msg data rest,
  0 < size -> length data <= k ->
  Direct.exited s = None -> Direct.pc_in s = Direct.I_read msg ->
  length msg = size ->
  inbound (Direct.env s) = inl data :: rest ->
  exists chunks,
    concat chunks = data /\ chunks <> [] /\
    Forall (fun chunk => length chunk <= size) chunks /\
    let s' :=
      Direct.run cfg paint arg0 defaults_text
        (replicate (length chunks) Direct.InLoop) s in
    Direct.exited s' = None /\
    inbound (Direct.env s') = rest /\
    delivered (Direct.env s') = delivered (Direct.env s) ++ chunks /\
    stdout (Direct.env s')
    = stdout (Direct.env s)
        ++ concat ((fun chunk =>
                      if raw cfg then chunk
                      else to_bytes (CR +:+ "< "
                                       +:+ paint FgCyan (to_string chunk)
                                       +:+ LF +:+ "> ")) <$> chunks) /\
    stderr (Direct.env s') = stderr (Direct.env s).
Proof.
  induction k as [|k IH]; intros s msg data rest Hsize Hk Hex Hpc Hlen Hin.
  all: destruct (direct_step_read_data cfg paint arg0 defaults_text
                   s msg data rest Hex Hpc Hin)
         as (s1 & Hs1 & Hex1 & (msg1 & Hpc1 & Hlen1) & Hd1 & Hi1 & Ho1 & He1).
  all: rewrite Hlen in *.
  - destruct data; [|simpl in Hk; lia].
    exists [[]]. rewrite take_nil, drop_nil in *.
    repeat split; try done; [by repeat constructor; simpl; lia|..];
      cbn [length replicate Direct.run]; rewrite Hs1; try done.
    rewrite Ho1. simpl. by rewrite app_nil_r.
  - destruct (drop size data) as [|b left] eqn:Hdrop.
    + exists [data].
      assert (Hfit : take size data = data).
      { rewrite <- (take_drop size data) at 2. by rewrite Hdrop, app_nil_r. }
      rewrite Hfit in *.
      repeat split; try done.
      * simpl. by rewrite app_nil_r.
      * repeat constructor. rewrite <- Hfit, length_take. lia.
      * cbn [length replicate Direct.run]. by rewrite Hs1.
      * cbn [length replicate Direct.run]. by rewrite Hs1.
      * cbn [length replicate Direct.run]. by rewrite Hs1.
      * cbn [length replicate Direct.run]. rewrite Hs1, Ho1. simpl.
        by rewrite app_nil_r.
      * cbn [length replicate Direct.run]. by rewrite Hs1.
    + assert (Hless : length (b :: left) <= k).
      { rewrite <- Hdrop, length_drop. lia. }
      destruct (IH s1 msg1 (b :: left) rest Hsize Hless Hex1 Hpc1
                  ltac:(congruence) Hi1)
        as (chunks & Hcat & Hne & Hall & Ha & Hb & Hc & Hd & He).
      exists (take size data :: chunks).
      repeat split; try done.
      * simpl. rewrite Hcat, <- Hdrop. apply take_drop.
      * constructor; [rewrite length_take; lia|done].
      * cbn [length replicate Direct.run]. by rewrite Hs1.
      * cbn [length replicate Direct.run]. by rewrite Hs1.
      * cbn [length replicate Direct.run]. rewrite Hs1, Hc, Hd1.
        by rewrite <- app_assoc.
      * cbn [length replicate Direct.run]. rewrite Hs1, Hd, Ho1.
        rewrite fmap_cons. simpl. by rewrite <- app_assoc.
      * cbn [length replicate Direct.run]. rewrite Hs1. congruence.
Qed.

(** The same in [src/unnamed/part_000], where a read is followed by the
    hand-over of the slice and the presenter's [fmt.Printf] *)
Lemma channels_step_read cfg paint arg0 defaults_text
    (c : Channels.state) data rest :
  Channels.exited c = None -> Channels.pc_in c = Channels.I_read ->
  inbound (Channels.env c) = inl data :: rest ->
  exists c1,
    Channels.step cfg paint arg0 defaults_text Channels.InLoop c = Some c1 /\
    Channels.exited c1 = None /\
    Channels.pc_in c1
    = Channels.I_send_msg (length (take (length (Channels.buf c)) data)) /\
    Channels.buf c1
    = take (length (Channels.buf c)) data
        ++ drop (length (take (length (Channels.buf c)) data)) (Channels.buf c) /\
    delivered (Channels.env c1)
    = delivered (Channels.env c) ++ [take (length (Channels.buf c)) data] /\
    inbound (Channels.env c1)
    = match drop (length (Channels.buf c)) data with
      | [] => rest
      | _ :: _ => inl (drop (length (Channels.buf c)) data) :: rest
      end /\
    stdout (Channels.env c1) = stdout (Channels.env c) /\
    stderr (Channels.env c1) = stderr (Channels.env c) /\
    Channels.pc_show c1 = Channels.pc_show c /\
    Channels.in_closed c1 = Channels.in_closed c.
Proof.
  intros Hex Hpc Hin. unfold Channels.step. rewrite Hex, Hpc.
  destruct (ws_Read_data (Channels.buf c) data rest _ Hin)
    as (w' & -> & Ho & He & _ & _ & _ & _ & _ & Hd & Hi).
  eexists. split; [done|]. destruct c; simpl in *. by repeat split.
Qed.

Lemma channels_step_print cfg paint arg0 defaults_text
    (c : Channels.state) n :
  Channels.exited c = None -> Channels.pc_show c = Channels.P_print n ->
  exists c1,
    Channels.step cfg paint arg0 defaults_text Channels.PrintReceivedMessages c
    = Some c1 /\
    Channels.exited c1 = None /\
    Channels.pc_show c1 = Channels.P_recv /\
    stdout (Channels.env c1)
    = stdout (Channels.env c)
        ++ (if raw cfg then Channels.view n c
            else to_bytes (CR +:+ "< "
                             +:+ paint FgCyan (to_string (Channels.view n c))
                             +:+ LF +:+ "> ")) /\
    stderr (Channels.env c1) = stderr (Channels.env c) /\
    inbound (Channels.env c1) = inbound (Channels.env c) /\
    delivered (Channels.env c1) = delivered (Channels.env c) /\
    Channels.buf c1 = Channels.buf c /\
    Channels.pc_in c1 = Channels.pc_in c /\
    Channels.in_closed c1 = Channels.in_closed c.
Proof.
  intros Hex Hpc. unfold Channels.step. rewrite Hex, Hpc.
  eexists. split; [done|].
  destruct (channels_printReceivedMessages_out cfg paint (Channels.view n c)
              (Channels.env c)) as (Hpo & Hpe & Hpi).
  assert (Hpd : delivered (Channels.printReceivedMessages_turn cfg paint
                             (Channels.view n c) (Channels.env c))
                = delivered (Channels.env c)).
  { unfold Channels.printReceivedMessages_turn. by destruct (raw cfg). }
  destruct c; simpl in *. rewrite Hpo, Hpe, Hpi, Hpd. by repeat split.
Qed.

(** One round: read, hand over, print *)
Lemma channels_round cfg paint arg0 defaults_text
    (c : Channels.state) data rest :
  Channels.exited c = None -> Channels.pc_in c = Channels.I_read ->
  Channels.pc_show c = Channels.P_recv -> Channels.in_closed c = false ->
  inbound (Channels.env c) = inl data :: rest ->
  let chunk := take (length (Channels.buf c)) data in
  let c' :=
    Channels.run cfg paint arg0 defaults_text
      [Channels.InLoop; Channels.InLoop; Channels.PrintReceivedMessages] c in
  Channels.exited c' = None /\ Channels.pc_in c' = Channels.I_read /\
  Channels.pc_show c' = Channels.P_recv /\ Channels.in_closed c' = false /\
  length (Channels.buf c') = length (Channels.buf c) /\
  delivered (Channels.env c') = delivered (Channels.env c) ++ [chunk] /\
  inbound (Channels.env c')
  = match drop (length (Channels.buf c)) data with
    | [] => rest
    | _ :: _ => inl (drop (length (Channels.buf c)) data) :: rest
    end /\
  stdout (Channels.env c')
  = stdout (Channels.env c)
      ++ (if raw cfg then chunk
          else to_bytes (CR +:+ "< " +:+ paint FgCyan (to_string chunk)
                            +:+ LF +:+ "> ")) /\
  stderr (Channels.env c') = stderr (Channels.env c).
Proof.
  intros Hex Hpc Hsh Hic Hin chunk c'.
  destruct (channels_step_read cfg paint arg0 defaults_text c data rest
              Hex Hpc Hin)
    as (c1 & Hs1 & Hx1 & Hp1 & Hb1 & Hd1 & Hi1 & Ho1 & He1 & Hsh1 & Hic1).
  rewrite Hsh in Hsh1. rewrite Hic in Hic1.
  destruct (channels_step_send_msg cfg paint arg0 defaults_text
              c1 _ Hx1 Hp1 Hic1 Hsh1)
    as (c2 & Hs2 & Hp2 & Hsh2 & Hen2 & Hb2 & Hx2).
  destruct (channels_step_print cfg paint arg0 defaults_text c2 _ Hx2 Hsh2)
    as (c3 & Hs3 & Hx3 & Hsh3 & Ho3 & He3 & Hi3 & Hd3 & Hb3 & Hp3 & Hic3).
  assert (Hic2 : Channels.in_closed c2 = false).
  { revert Hs2. unfold Channels.step.
    rewrite Hx1, Hp1, Hic1, Hsh1. intros [= <-]. by destruct c1. }
  assert (Hv : Channels.view (length chunk) c2 = chunk).
  { unfold Channels.view. rewrite Hb2, Hb1. apply read_into_slice. }
  subst c'. cbn [Channels.run]. rewrite Hs1, Hs2, Hs3.
  fold chunk in Hp1, Hb1, Hd1, Ho3, Hsh2 |- *.
  rewrite Hv in Ho3.
  repeat split; try congruence.
  rewrite Hb3, Hb2, Hb1. apply read_into_length.
Qed.

Lemma channels_empty_reads cfg paint arg0 defaults_text n :
  forall (c : Channels.state) data rest,
  Channels.exited c = None -> Channels.pc_in c = Channels.I_read ->
  Channels.pc_show c = Channels.P_recv -> Channels.in_closed c = false ->
  length (Channels.buf c) = 0 ->
  inbound (Channels.env c) = inl data :: rest -> data <> [] ->
  let c' :=
    Channels.run cfg paint arg0 defaults_text
      (concat (replicate n [Channels.InLoop; Channels.InLoop;
                            Channels.PrintReceivedMessages])) c in
  Channels.exited c' = None /\
  inbound (Channels.env c') = inl data :: rest /\
  delivered (Channels.env c') = delivered (Channels.env c) ++ replicate n [] /\
  stdout (Channels.env c')
  = stdout (Channels.env c)
      ++ concat (replicate n
                   (if raw cfg then []
                    else to_bytes (CR +:+ "< " +:+ paint FgCyan "" +:+ LF
                                      +:+ "> "))) /\
  stderr (Channels.env c') = stderr (Channels.env c).
Proof.
  induction n as [|n IH]; intros c data rest Hex Hpc Hsh Hic Hlen Hin Hne.
  { simpl. by rewrite !app_nil_r. }
  destruct (channels_round cfg paint arg0 defaults_text c data rest
              Hex Hpc Hsh Hic Hin)
    as (Hx1 & Hp1 & Hsh1 & Hic1 & Hl1 & Hd1 & Hi1 & Ho1 & He1).
  rewrite Hlen in *. rewrite take_0, drop_0 in *.
  assert (Hin1 : inbound (Channels.env
                   (Channels.run cfg paint arg0 defaults_text
                      [Channels.InLoop; Channels.InLoop;
                       Channels.PrintReceivedMessages] c)) = inl data :: rest).
  { rewrite Hi1. by destruct data. }
  cbn [replicate concat]. rewrite channels_run_app.
  destruct (IH _ data rest Hx1 Hp1 Hsh1 Hic1 Hl1 Hin1 Hne)
    as (Ha & Hb & Hc & Hd & He).
  rewrite Ha, Hb, Hc, Hd, He, Hd1, Ho1, He1.
  repeat split; try done.
  - by rewrite <- app_assoc.
  - rewrite <- app_assoc. simpl. by destruct (raw cfg).
Qed.

Lemma channels_frame_reads cfg paint arg0 defaults_text size k :
  forall (c : Channels.state) data rest,
  0 < size -> length data <= k ->
  Channels.exited c = None -> Channels.pc_in c = Channels.I_read ->
  Channels.pc_show c = Channels.P_recv -> Channels.in_closed c = false ->
  length (Channels.buf c) = size ->
  inbound (Channels.env c) = inl data :: rest ->
  exists chunks,
    concat chunks = data /\ chunks <> [] /\
    Forall (fun chunk => length chunk <= size) chunks /\
    let c' :=
      Channels.run cfg paint arg0 defaults_text
        (concat (replicate (length chunks)
                   [Channels.InLoop; Channels.InLoop;
                    Channels.PrintReceivedMessages])) c in
    Channels.exited c' = None /\
    inbound (Channels.env c') = rest /\
    delivered (Channels.env c') = delivered (Channels.env c) ++ chunks /\
    stdout (Channels.env c')
    = stdout (Channels.env c)
        ++ concat ((fun chunk =>
                      if raw cfg then chunk
                      else to_bytes (CR +:+ "< "
                                       +:+ paint FgCyan (to_string chunk)
                                       +:+ LF +:+ "> ")) <$> chunks) /\
    stderr (Channels.env c') = stderr (Channels.env c).
Proof.
  induction k as [|k IH]; intros c data rest Hsize Hk Hex Hpc Hsh Hic Hlen Hin.
  all: destruct (channels_round cfg paint arg0 defaults_text c data rest
                   Hex Hpc Hsh Hic Hin)
         as (Hx1 & Hp1 & Hsh1 & Hic1 & Hl1 & Hd1 & Hi1 & Ho1 & He1).
  all: rewrite Hlen in *.
  - destruct data; [|simpl in Hk; lia].
    exists [[]]. rewrite take_nil, drop_nil in *.
    repeat split; try done; [by repeat constructor; simpl; lia|..];
      cbn [length replicate concat]; rewrite app_nil_r; try done.
    rewrite Ho1. simpl. by rewrite app_nil_r.
  - destruct (drop size data) as [|b left] eqn:Hdrop.
    + exists [data].
      assert (Hfit : take size data = data).
      { rewrite <- (take_drop size data) at 2. by rewrite Hdrop, app_nil_r. }
      rewrite Hfit in *.
      repeat split; try done.
      all: try (simpl; by rewrite app_nil_r).
      all: try (repeat constructor; rewrite <- Hfit, length_take; lia).
      all: cbn [length replicate concat]; rewrite app_nil_r; try done.
      all: rewrite Ho1; simpl; by rewrite app_nil_r.
    + assert (Hless : length (b :: left) <= k).
      { rewrite <- Hdrop, length_drop. lia. }
      destruct (IH _ (b :: left) rest Hsize Hless Hx1 Hp1 Hsh1 Hic1
                  ltac:(congruence) Hi1)
        as (chunks & Hcat & Hne & Hall & Ha & Hb & Hc & Hd & He).
      exists (take size data :: chunks).
      split; [|split; [done|split; [|repeat split]]].
      * simpl. rewrite Hcat, <- Hdrop. apply take_drop.
      * constructor; [rewrite length_take; lia|done].
      * cbn [length replicate concat]. by rewrite channels_run_app.
      * cbn [length replicate concat]. by rewrite channels_run_app.
      * cbn [length replicate concat]. rewrite channels_run_app, Hc, Hd1.
        by rewrite <- app_assoc.
      * cbn [length replicate concat]. rewrite channels_run_app, Hd, Ho1.
        rewrite fmap_cons. simpl. by rewrite <- app_assoc.
      * cbn [length replicate concat]. rewrite channels_run_app. congruence.
Qed.

(** X10: with [-bufSize 0] the reader makes no progress.  Each read of a
    pending, non-empty frame delivers an empty message and takes nothing
    from the frame: after any number of turns the frame is still pending
    in full, nothing behind it has been seen, and in interactive mode
    every turn has printed an empty "< " line. *)
Theorem X10_zero_bufSize_never_consumes cfg paint arg0 defaults_text
    w0 sched w0' sched' msg data rest data' rest' (n : nat) :
  let s := Direct.run cfg paint arg0 defaults_text sched (Direct.init w0) in
  let c := Channels.run cfg paint arg0 defaults_text sched' (Channels.init w0') in
  bufSize cfg = 0%Z ->
  Direct.exited s = None -> Direct.pc_in s = Direct.I_read msg ->
  inbound (Direct.env s) = inl data :: rest -> data <> [] ->
  Channels.exited c = None -> Channels.pc_in c = Channels.I_read ->
  Channels.pc_show c = Channels.P_recv ->
  inbound (Channels.env c) = inl data' :: rest' -> data' <> [] ->
  let s' :=
    Direct.run cfg paint arg0 defaults_text (replicate n Direct.InLoop) s in
  let c' :=
    Channels.run cfg paint arg0 defaults_text
      (concat (replicate n [Channels.InLoop; Channels.InLoop;
                            Channels.PrintReceivedMessages])) c in
  let empty_line :=
    if raw cfg then []
    else to_bytes (CR +:+ "< " +:+ paint FgCyan "" +:+ LF +:+ "> ") in
  (Direct.exited s' = None /\
   inbound (Direct.env s') = inl data :: rest /\
   delivered (Direct.env s') = delivered (Direct.env s) ++ replicate n [] /\
   stdout (Direct.env s')
   = stdout (Direct.env s) ++ concat (replicate n empty_line)) /\
  (Channels.exited c' = None /\
   inbound (Channels.env c') = inl data' :: rest' /\
   delivered (Channels.env c') = delivered (Channels.env c) ++ replicate n [] /\
   stdout (Channels.env c')
   = stdout (Channels.env c) ++ concat (replicate n empty_line)).
Proof.
  intros s c Hzero Hex Hpc Hin Hne Hcex Hcpc Hcsh Hcin Hcne s' c' empty_line.
  destruct (direct_reachable cfg paint arg0 defaults_text w0 sched)
    as (_ & _ & Hb & _).
  fold s in Hb. unfold Direct.buffer_ok in Hb. rewrite Hpc in Hb.
  destruct Hb as [Hm _]. rewrite Hzero in Hm.
  destruct (channels_reachable cfg paint arg0 defaults_text w0' sched')
    as (_ & Hcl & Hcb & _).
  fold c in Hcl, Hcb. unfold Channels.buffer_ok in Hcb. rewrite Hcpc in Hcb.
  destruct Hcb as [Hcm _]. rewrite Hzero in Hcm. destruct Hcl as (Hic & _).
  split.
  - destruct (direct_empty_reads cfg paint arg0 defaults_text n
                s msg data rest Hex Hpc Hm Hin Hne) as (? & ? & ? & ? & _).
    by repeat split.
  - destruct (channels_empty_reads cfg paint arg0 defaults_text n
                c data' rest' Hcex Hcpc Hcsh Hic Hcm Hcin Hcne)
      as (? & ? & ? & ? & _).
    by repeat split.
Qed.

(** X11: with a positive [-bufSize] a frame of any length arrives in
    full.  The reader takes it in reads of at most [bufSize] bytes each;
    their concatenation is the frame, byte for byte and in order, and then
    the next item of the connection is pending.  In raw mode standard
    output has grown by exactly the frame; in interactive mode every read
    gets a "< " line of its own. *)
Theorem X11_long_frame_arrives_in_full cfg paint arg0 defaults_text
    w0 sched w0' sched' msg data rest data' rest' :
  let s := Direct.run cfg paint arg0 defaults_text sched (Direct.init w0) in
  let c := Channels.run cfg paint arg0 defaults_text sched' (Channels.init w0') in
  (0 < bufSize cfg)%Z ->
  Direct.exited s = None -> Direct.pc_in s = Direct.I_read msg ->
  inbound (Direct.env s) = inl data :: rest ->
  Channels.exited c = None -> Channels.pc_in c = Channels.I_read ->
  Channels.pc_show c = Channels.P_recv ->
  inbound (Channels.env c) = inl data' :: rest' ->
  let line (chunk : bytes) :=
    if raw cfg then chunk
    else to_bytes (CR +:+ "< " +:+ paint FgCyan (to_string chunk)
                      +:+ LF +:+ "> ") in
  (exists chunks,
     concat chunks = data /\
     Forall (fun chunk => (Z.of_nat (length chunk) <= bufSize cfg)%Z) chunks /\
     let s' :=
       Direct.run cfg paint arg0 defaults_text
         (replicate (length chunks) Direct.InLoop) s in
     Direct.exited s' = None /\
     inbound (Direct.env s') = rest /\
     delivered (Direct.env s') = delivered (Direct.env s) ++ chunks /\
     stdout (Direct.env s')
     = stdout (Direct.env s) ++ concat (line <$> chunks) /\
     (raw cfg = true -> stdout (Direct.env s') = stdout (Direct.env s) ++ data)) /\
  (exists chunks,
     concat chunks = data' /\
     Forall (fun chunk => (Z.of_nat (length chunk) <= bufSize cfg)%Z) chunks /\
     let c' :=
       Channels.run cfg paint arg0 defaults_text
         (concat (replicate (length chunks)
                    [Channels.InLoop; Channels.InLoop;
                     Channels.PrintReceivedMessages])) c in
     Channels.exited c' = None /\
     inbound (Channels.env c') = rest' /\
     delivered (Channels.env c') = delivered (Channels.env c) ++ chunks /\
     stdout (Channels.env c')
     = stdout (Channels.env c) ++ concat (line <$> chunks) /\
     (raw cfg = true ->
      stdout (Channels.env c') = stdout (Channels.env c) ++ data')).
Proof.
  intros s c Hpos Hex Hpc Hin Hcex Hcpc Hcsh Hcin line.
  destruct (direct_reachable cfg paint arg0 defaults_text w0 sched)
    as (_ & _ & Hb & _).
  fold s in Hb. unfold Direct.buffer_ok in Hb. rewrite Hpc in Hb.
  destruct Hb as [Hm _].
  destruct (channels_reachable cfg paint arg0 defaults_text w0' sched')
    as (_ & Hcl & Hcb & _).
  fold c in Hcl, Hcb. unfold Channels.buffer_ok in Hcb. rewrite Hcpc in Hcb.
  destruct Hcb as [Hcm _]. destruct Hcl as (Hic & _).
  assert (Hid : raw cfg = true -> forall chunks : list bytes,
                concat (line <$> chunks) = concat chunks).
  { intros Hraw chunks. unfold line. rewrite Hraw.
    by rewrite list_fmap_id. }
  split.
  - destruct (direct_frame_reads cfg paint arg0 defaults_text
                (Z.to_nat (bufSize cfg)) (length data) s msg data rest
                ltac:(lia) ltac:(lia) Hex Hpc Hm Hin)
      as (chunks & Hcat & _ & Hall & Ha & Hb & Hc & Hd & _).
    exists chunks. repeat split; try done.
    + eapply Forall_impl; [exact Hall|]. simpl. intros; lia.
    + intros Hraw. rewrite Hd. fold line. by rewrite Hid, Hcat.
  - destruct (channels_frame_reads cfg paint arg0 defaults_text
                (Z.to_nat (bufSize cfg)) (length data') c data' rest'
                ltac:(lia) ltac:(lia) Hcex Hcpc Hcsh Hic Hcm Hcin)
      as (chunks & Hcat & _ & Hall & Ha & Hb & Hc & Hd & _).
    exists chunks. repeat split; try done.
    + eapply Forall_impl; [exact Hall|]. simpl. intros; lia.
    + intros Hraw. rewrite Hd. fold line. by rewrite Hid, Hcat.
Qed.

(** ** The reused buffer, for any two frames *)

Lemma take_overwritten (d1 d2 tail : bytes) :
  take (length d1) (d2 ++ drop (length d2) (d1 ++ tail))
  = take (length d1) (d2 ++ drop (length d2) d1).
Proof.
  destruct (decide (length d2 <= length d1)) as [Hle|Hgt].
  - rewrite drop_app_le by done. rewrite app_assoc.
    rewrite take_app_le by (rewrite length_app, length_drop; lia).
    done.
  - rewrite !(take_app_le d2) by lia. done.
Qed.

Lemma channels_step_hand_over cfg paint arg0 defaults_text
    (c : Channels.state) n :
  Channels.exited c = None -> Channels.pc_in c = Channels.I_send_msg n ->
  Channels.in_closed c = false -> Channels.pc_show c = Channels.P_recv ->
  exists c1,
    Channels.step cfg paint arg0 defaults_text Channels.InLoop c = Some c1 /\
    Channels.pc_in c1 = Channels.I_read /\
    Channels.pc_show c1 = Channels.P_print n /\
    Channels.env c1 = Channels.env c /\
    Channels.buf c1 = Channels.buf c /\
    Channels.exited c1 = None /\ Channels.in_closed c1 = false.
Proof.
  intros Hex Hpc Hic Hsh. unfold Channels.step. rewrite Hex, Hpc, Hic, Hsh.
  eexists. split; [done|]. destruct c; simpl in *. by repeat split.
Qed.

(** X12: in [src/unnamed/part_000] what the presenter prints depends on
    the schedule.  Two frames that fit the buffer arrive back to back, in
    raw mode.  When the presenter prints each message before the reader
    reads again, standard output gets the two frames.  When the reader's
    second read comes before the presenter's first [fmt.Printf], the
    first message is printed as the buffer shows it by then: overwritten
    by the second frame as far as that reaches.  What was read from the
    connection is the same both times. *)
Theorem X12_reused_buffer_shows_later_frame cfg paint arg0 defaults_text
    w0 sched d1 d2 rest :
  let c := Channels.run cfg paint arg0 defaults_text sched (Channels.init w0) in
  raw cfg = true ->
  Channels.exited c = None -> Channels.pc_in c = Channels.I_read ->
  Channels.pc_show c = Channels.P_recv ->
  inbound (Channels.env c) = inl d1 :: inl d2 :: rest ->
  (Z.of_nat (length d1) <= bufSize cfg)%Z ->
  (Z.of_nat (length d2) <= bufSize cfg)%Z ->
  let in_turn :=
    Channels.run cfg paint arg0 defaults_text
      [Channels.InLoop; Channels.InLoop; Channels.PrintReceivedMessages;
       Channels.InLoop; Channels.InLoop; Channels.PrintReceivedMessages] c in
  let read_ahead :=
    Channels.run cfg paint arg0 defaults_text
      [Channels.InLoop; Channels.InLoop; Channels.InLoop;
       Channels.PrintReceivedMessages;
       Channels.InLoop; Channels.PrintReceivedMessages] c in
  (stdout (Channels.env in_turn) = stdout (Channels.env c) ++ d1 ++ d2 /\
   delivered (Channels.env in_turn) = delivered (Channels.env c) ++ [d1; d2]) /\
  (stdout (Channels.env read_ahead)
   = stdout (Channels.env c)
       ++ take (length d1) (d2 ++ drop (length d2) d1) ++ d2 /\
   delivered (Channels.env read_ahead)
   = delivered (Channels.env c) ++ [d1; d2]) /\
  (length d1 <= length d2 ->
   stdout (Channels.env read_ahead)
   = stdout (Channels.env c) ++ take (length d1) d2 ++ d2).
Proof.
  intros c Hraw Hex Hpc Hsh Hin Hl1 Hl2 in_turn read_ahead.
  destruct (channels_reachable cfg paint arg0 defaults_text w0 sched)
    as (_ & Hcl & Hcb & _).
  fold c in Hcl, Hcb. unfold Channels.buffer_ok in Hcb. rewrite Hpc in Hcb.
  destruct Hcb as [Hcm _]. destruct Hcl as (Hic & _).
  assert (Hf1 : take (length (Channels.buf c)) d1 = d1) by (apply take_ge; lia).
  assert (Hf2 : take (length (Channels.buf c)) d2 = d2) by (apply take_ge; lia).
  assert (Hn1 : drop (length (Channels.buf c)) d1 = []) by (apply drop_ge; lia).
  assert (Hn2 : drop (length (Channels.buf c)) d2 = []) by (apply drop_ge; lia).
  assert (Hahead :
    stdout (Channels.env read_ahead)
    = stdout (Channels.env c)
        ++ take (length d1) (d2 ++ drop (length d2) d1) ++ d2 /\
    delivered (Channels.env read_ahead)
    = delivered (Channels.env c) ++ [d1; d2]).
  { destruct (channels_step_read cfg paint arg0 defaults_text c d1 _
                Hex Hpc Hin)
      as (c1 & Hs1 & Hx1 & Hp1 & Hb1 & Hd1 & Hi1 & Ho1 & He1 & Hsh1 & Hic1).
    rewrite Hf1, Hn1 in *. rewrite Hsh in Hsh1. rewrite Hic in Hic1.
    destruct (channels_step_hand_over cfg paint arg0 defaults_text
                c1 _ Hx1 Hp1 Hic1 Hsh1)
      as (c2 & Hs2 & Hp2 & Hsh2 & Hen2 & Hb2 & Hx2 & Hic2).
    assert (Hin2 : inbound (Channels.env c2) = inl d2 :: rest) by congruence.
    destruct (channels_step_read cfg paint arg0 defaults_text c2 d2 _
                Hx2 Hp2 Hin2)
      as (c3 & Hs3 & Hx3 & Hp3 & Hb3 & Hd3 & Hi3 & Ho3 & He3 & Hsh3 & Hic3).
    assert (Hlen2 : length (Channels.buf c2) = length (Channels.buf c)).
    { rewrite Hb2, Hb1. apply (read_into_length (Channels.buf c) d1)
        || (rewrite length_app, length_drop; lia). }
    rewrite Hlen2, Hf2, Hn2 in *. rewrite Hsh2 in Hsh3.
    destruct (channels_step_print cfg paint arg0 defaults_text c3 _ Hx3 Hsh3)
      as (c4 & Hs4 & Hx4 & Hsh4 & Ho4 & He4 & Hi4 & Hd4 & Hb4 & Hp4 & Hic4).
    rewrite Hp3 in Hp4. rewrite Hic3, Hic2 in Hic4.
    destruct (channels_step_hand_over cfg paint arg0 defaults_text
                c4 _ Hx4 Hp4 Hic4 Hsh4)
      as (c5 & Hs5 & Hp5 & Hsh5 & Hen5 & Hb5 & Hx5 & Hic5).
    destruct (channels_step_print cfg paint arg0 defaults_text c5 _ Hx5 Hsh5)
      as (c6 & Hs6 & Hx6 & Hsh6 & Ho6 & He6 & Hi6 & Hd6 & Hb6 & Hp6 & Hic6).
    subst read_ahead. cbn [Channels.run].
    rewrite Hs1, Hs2, Hs3, Hs4, Hs5, Hs6.
    rewrite Hraw in Ho4, Ho6. unfold Channels.view in Ho4, Ho6.
    rewrite Hb5, Hb4, Hb3, Hb2, Hb1 in Ho6.
    rewrite Hb3, Hb2, Hb1 in Ho4.
    rewrite take_app_length in Ho6. rewrite take_overwritten in Ho4.
    split.
    - rewrite Ho6, Hen5, Ho4, Ho3, Hen2, Ho1. by rewrite <- !app_assoc.
    - rewrite Hd6, Hen5, Hd4, Hd3, Hen2, Hd1. by rewrite <- !app_assoc. }
  split; [|split; [done|]].
  - destruct (channels_round cfg paint arg0 defaults_text c d1 _
                Hex Hpc Hsh Hic Hin)
      as (Hx1 & Hp1 & Hsh1 & Hic1 & Hlen1 & Hd1 & Hi1 & Ho1 & He1).
    rewrite Hf1, Hn1 in *.
    destruct (channels_round cfg paint arg0 defaults_text _ d2 _
                Hx1 Hp1 Hsh1 Hic1 Hi1)
      as (Hx2 & Hp2 & Hsh2 & Hic2 & Hlen2 & Hd2 & Hi2 & Ho2 & He2).
    rewrite Hlen1, Hf2, Hn2 in *.
    subst in_turn.
    change [Channels.InLoop; Channels.InLoop; Channels.PrintReceivedMessages;
            Channels.InLoop; Channels.InLoop; Channels.PrintReceivedMessages]
      with ([Channels.InLoop; Channels.InLoop; Channels.PrintReceivedMessages]
            ++ [Channels.InLoop; Channels.InLoop;
                Channels.PrintReceivedMessages]).
    rewrite channels_run_app, Ho2, Ho1, Hd2, Hd1, Hraw.
    by rewrite <- !app_assoc.
  - intros Hle. destruct Hahead as [-> _].
    by rewrite (take_app_le d2) by lia.
Qed.

(** ** The outbound path, line by line *)

(** One line of a session of [src/main.go]: scanned, sent to [outLoop],
    written, and the prompt printed again.  A write error other than
    [io.EOF] is reported and changes nothing else. *)
Lemma direct_line_round cfg paint arg0 defaults_text
    (s : Direct.state) line lines :
  Direct.exited s = None -> Direct.pc_main s = Direct.M_scan ->
  Direct.pc_out s = Direct.O_recv -> Direct.out_closed s = false ->
  stdin (Direct.env s) = line :: lines ->
  hd None (wresults (Direct.env s)) <> Some io_EOF ->
  let s' :=
    Direct.run cfg paint arg0 defaults_text
      [Direct.Main; Direct.Main; Direct.OutLoop; Direct.Main] s in
  Direct.exited s' = None /\ Direct.pc_main s' = Direct.M_scan /\
  Direct.pc_out s' = Direct.O_recv /\ Direct.out_closed s' = false /\
  stdin (Direct.env s') = lines /\
  wresults (Direct.env s') = tail (wresults (Direct.env s)) /\
  written (Direct.env s') = written (Direct.env s) ++ [to_bytes line] /\
  stderr (Direct.env s')
  = stderr (Direct.env s)
      ++ match hd None (wresults (Direct.env s)) with
         | Some err => to_bytes (error_report paint err)
         | None => []
         end /\
  inbound (Direct.env s') = inbound (Direct.env s) /\
  Direct.pc_in s' = Direct.pc_in s.
Proof.
  intros Hex Hpm Hpo Hoc Hin Hne s'.
  assert (E : exists s1, s' = s1 /\
    Direct.exited s1 = None /\ Direct.pc_main s1 = Direct.M_scan /\
    Direct.pc_out s1 = Direct.O_recv /\ Direct.out_closed s1 = false /\
    stdin (Direct.env s1) = lines /\
    wresults (Direct.env s1) = tail (wresults (Direct.env s)) /\
    written (Direct.env s1) = written (Direct.env s) ++ [to_bytes line] /\
    stderr (Direct.env s1)
    = stderr (Direct.env s)
        ++ match hd None (wresults (Direct.env s)) with
           | Some err => to_bytes (error_report paint err)
           | None => []
           end /\
    inbound (Direct.env s1) = inbound (Direct.env s) /\
    Direct.pc_in s1 = Direct.pc_in s).
  { subst s'. destruct s as [w pm po pi n oc ds st ex]. simpl in *. subst.
    cbn [Direct.run]. unfold Direct.step, Scan. simpl. rewrite Hin. simpl.
    unfold Direct.outLoop_turn, ws_Write. simpl.
    destruct (wresults w) as [|[err|] results] eqn:Hw; simpl in *.
    - eexists. split; [reflexivity|]. simpl. rewrite app_nil_r.
      by repeat split.
    - unfold Direct.report. simpl.
      rewrite direct_printError_other by congruence.
      destruct (raw cfg); simpl; (eexists; split; [reflexivity|]); simpl;
        by repeat split.
    - eexists. split; [reflexivity|]. simpl. rewrite app_nil_r.
      by repeat split. }
  destruct E as (s1 & E & P). by rewrite E.
Qed.

Lemma direct_lines_written cfg paint arg0 defaults_text lines :
  forall (s : Direct.state),
  Direct.exited s = None -> Direct.pc_main s = Direct.M_scan ->
  Direct.pc_out s = Direct.O_recv -> Direct.out_closed s = false ->
  stdin (Direct.env s) = lines ->
  Forall (fun r => r <> Some io_EOF)
    (take (length lines) (wresults (Direct.env s))) ->
  let s' :=
    Direct.run cfg paint arg0 defaults_text
      (concat (replicate (length lines)
                 [Direct.Main; Direct.Main; Direct.OutLoop; Direct.Main])) s in
  Direct.exited s' = None /\ Direct.pc_main s' = Direct.M_scan /\
  stdin (Direct.env s') = [] /\
  written (Direct.env s') = written (Direct.env s) ++ (to_bytes <$> lines) /\
  stderr (Direct.env s')
  = stderr (Direct.env s)
      ++ concat ((fun err => to_bytes (error_report paint err))
                   <$> omap id (take (length lines) (wresults (Direct.env s)))) /\
  inbound (Direct.env s') = inbound (Direct.env s).
Proof.
  induction lines as [|line lines IH]; intros s Hex Hpm Hpo Hoc Hin Hq.
  { simpl. by rewrite !app_nil_r. }
  assert (Hne : hd None (wresults (Direct.env s)) <> Some io_EOF).
  { destruct (wresults (Direct.env s)); simpl in *; [done|].
    by apply Forall_cons in Hq as [? _]. }
  destruct (direct_line_round cfg paint arg0 defaults_text s line lines
              Hex Hpm Hpo Hoc Hin Hne)
    as (Hx1 & Hm1 & Ho1 & Hc1 & Hi1 & Hw1 & Hwr1 & He1 & Hib1 & _).
  cbn [length replicate concat]. rewrite direct_run_app.
  assert (Hq1 : Forall (fun r => r <> Some io_EOF)
                  (take (length lines) (tail (wresults (Direct.env s))))).
  { destruct (wresults (Direct.env s)); simpl in *; [by rewrite take_nil|].
    by apply Forall_cons in Hq as [_ ?]. }
  rewrite <- Hw1 in Hq1.
  destruct (IH _ Hx1 Hm1 Ho1 Hc1 Hi1 Hq1) as (Ha & Hb & Hc & Hd & He & Hf).
  rewrite Ha, Hb, Hc, Hd, He, Hf, Hwr1, He1, Hib1, Hw1.
  repeat split; try done.
  - rewrite fmap_cons. by rewrite <- app_assoc.
  - rewrite <- app_assoc. f_equal.
    destruct (wresults (Direct.env s)) as [|[err|] results]; simpl;
      by rewrite ?take_nil.
Qed.

(** One line of a session of [src/unnamed/part_000] when the write
    succeeds *)
Lemma channels_line_round cfg paint arg0 defaults_text
    (c : Channels.state) line lines :
  Channels.exited c = None -> Channels.pc_main c = Channels.M_scan ->
  Channels.pc_out c = Channels.O_recv -> Channels.out_closed c = false ->
  stdin (Channels.env c) = line :: lines ->
  hd None (wresults (Channels.env c)) = None ->
  let c' :=
    Channels.run cfg paint arg0 defaults_text
      [Channels.Main; Channels.Main; Channels.OutLoop; Channels.Main] c in
  Channels.exited c' = None /\ Channels.pc_main c' = Channels.M_scan /\
  Channels.pc_out c' = Channels.O_recv /\ Channels.out_closed c' = false /\
  stdin (Channels.env c') = lines /\
  wresults (Channels.env c') = tail (wresults (Channels.env c)) /\
  written (Channels.env c') = written (Channels.env c) ++ [to_bytes line] /\
  stderr (Channels.env c') = stderr (Channels.env c) /\
  inbound (Channels.env c') = inbound (Channels.env c).
Proof.
  intros Hex Hpm Hpo Hoc Hin Hok c'.
  assert (E : exists c1, c' = c1 /\
    Channels.exited c1 = None /\ Channels.pc_main c1 = Channels.M_scan /\
    Channels.pc_out c1 = Channels.O_recv /\ Channels.out_closed c1 = false /\
    stdin (Channels.env c1) = lines /\
    wresults (Channels.env c1) = tail (wresults (Channels.env c)) /\
    written (Channels.env c1) = written (Channels.env c) ++ [to_bytes line] /\
    stderr (Channels.env c1) = stderr (Channels.env c) /\
    inbound (Channels.env c1) = inbound (Channels.env c)).
  { subst c'. destruct c. simpl in *. subst.
    cbn [Channels.run]. unfold Channels.step, Scan. simpl. rewrite Hin. simpl.
    unfold ws_Write. simpl.
    destruct (wresults env) as [|[err|] results] eqn:Hw; simpl in *;
      try done.
    all: eexists; split; [reflexivity|]; simpl; by repeat split. }
  destruct E as (c1 & E & P). by rewrite E.
Qed.

Lemma channels_lines_written cfg paint arg0 defaults_text lines :
  forall (c : Channels.state),
  Channels.exited c = None -> Channels.pc_main c = Channels.M_scan ->
  Channels.pc_out c = Channels.O_recv -> Channels.out_closed c = false ->
  stdin (Channels.env c) = lines ->
  Forall (fun r => r = None)
    (take (length lines) (wresults (Channels.env c))) ->
  let c' :=
    Channels.run cfg paint arg0 defaults_text
      (concat (replicate (length lines)
                 [Channels.Main; Channels.Main; Channels.OutLoop;
                  Channels.Main])) c in
  Channels.exited c' = None /\ Channels.pc_main c' = Channels.M_scan /\
  stdin (Channels.env c') = [] /\
  written (Channels.env c') = written (Channels.env c) ++ (to_bytes <$> lines) /\
  stderr (Channels.env c') = stderr (Channels.env c) /\
  inbound (Channels.env c') = inbound (Channels.env c).
Proof.
  induction lines as [|line lines IH]; intros c Hex Hpm Hpo Hoc Hin Hq.
  { simpl. by rewrite !app_nil_r. }
  assert (Hok : hd None (wresults (Channels.env c)) = None).
  { destruct (wresults (Channels.env c)); simpl in *; [done|].
    by apply Forall_cons in Hq as [? _]. }
  destruct (channels_line_round cfg paint arg0 defaults_text c line lines
              Hex Hpm Hpo Hoc Hin Hok)
    as (Hx1 & Hm1 & Ho1 & Hc1 & Hi1 & Hw1 & Hwr1 & He1 & Hib1).
  cbn [length replicate concat]. rewrite channels_run_app.
  assert (Hq1 : Forall (fun r => r = None)
                  (take (length lines) (tail (wresults (Channels.env c))))).
  { destruct (wresults (Channels.env c)); simpl in *; [by rewrite take_nil|].
    by apply Forall_cons in Hq as [_ ?]. }
  rewrite <- Hw1 in Hq1.
  destruct (IH _ Hx1 Hm1 Ho1 Hc1 Hi1 Hq1) as (Ha & Hb & Hc & Hd & He & Hf).
  rewrite Ha, Hb, Hc, Hd, He, Hf, Hwr1, He1, Hib1.
  repeat split; try done.
  rewrite fmap_cons. by rewrite <- app_assoc.
Qed.

(** X13: every line typed is written to the connection.  In an
    interactive session, when [main] and [outLoop] take turns line by line
    (scan, send, write, prompt), every line of the operator input has been
    handed to [ws.Write], once and in order, by the time the input is
    used up.  In [src/main.go] that holds whatever the writes return short
    of [io.EOF]: each failed write is reported on standard error and the
    next line is written all the same.  In [src/unnamed/part_000] it
    holds when no write fails. *)
Theorem X13_every_typed_line_is_written cfg paint arg0 defaults_text w w' :
  raw cfg = false -> displayVersion cfg = false -> displayHelp cfg = false ->
  config_err w = None -> dial_err w = None ->
  config_err w' = None -> dial_err w' = None ->
  Forall (fun r => r <> Some io_EOF) (take (length (stdin w)) (wresults w)) ->
  Forall (fun r => r = None) (take (length (stdin w')) (wresults w')) ->
  let s :=
    Direct.run cfg paint arg0 defaults_text
      (Direct.Main
       :: concat (replicate (length (stdin w))
                    [Direct.Main; Direct.Main; Direct.OutLoop; Direct.Main]))
      (Direct.init w) in
  let c :=
    Channels.run cfg paint arg0 defaults_text
      (Channels.Main
       :: concat (replicate (length (stdin w'))
                    [Channels.Main; Channels.Main; Channels.OutLoop;
                     Channels.Main]))
      (Channels.init w') in
  (Direct.exited s = None /\ stdin (Direct.env s) = [] /\
   written (Direct.env s) = written w ++ (to_bytes <$> stdin w) /\
   stderr (Direct.env s)
   = stderr w
       ++ concat ((fun err => to_bytes (error_report paint err))
                    <$> omap id (take (length (stdin w)) (wresults w)))) /\
  (Channels.exited c = None /\ stdin (Channels.env c) = [] /\
   written (Channels.env c) = written w' ++ (to_bytes <$> stdin w') /\
   stderr (Channels.env c) = stderr w').
Proof.
  intros Hraw HV HH Hc Hd Hc' Hd' Hq Hq' s c. split.
  - subst s. cbn [Direct.run].
    assert (E : Direct.step cfg paint arg0 defaults_text Direct.Main (Direct.init w)
                = Some (Direct.main_start cfg paint arg0 defaults_text
                          (Direct.init w))) by done.
    rewrite E. clear E.
    destruct (direct_main_start_cases cfg paint arg0 defaults_text
                (Direct.init w) eq_refl eq_refl)
      as [?|? ?|? ? ? ? He Hw ? ? ?|w1 ? ? ? ? Hr Hw ? ? Ho|w1 ? ? ? ? Hr Hw ? Her Ho];
      simpl in *; try congruence.
    { destruct He; congruence. }
    destruct Hw as (Hin & _ & Hwr & Hwn & _).
    rewrite <- Hin, <- Hwr in Hq |- *. rewrite <- Hwn, <- Her.
    match goal with |- context [Direct.run _ _ _ _ _ ?s1] =>
      destruct (direct_lines_written cfg paint arg0 defaults_text (stdin w1) s1
                  eq_refl eq_refl eq_refl eq_refl eq_refl Hq)
        as (? & _ & ? & ? & ? & _)
    end.
    by repeat split.
  - subst c. cbn [Channels.run].
    assert (E : Channels.step cfg paint arg0 defaults_text Channels.Main
                  (Channels.init w')
                = Some (Channels.main_start cfg paint arg0 defaults_text
                          (Channels.init w'))) by done.
    rewrite E. clear E.
    destruct (channels_main_start_cases cfg paint arg0 defaults_text
                (Channels.init w') eq_refl eq_refl)
      as [?|? ?|? ? ? ? He Hw ? ? ?|w1 ? ? ? ? Hr Hw ? ? Ho|w1 ? ? ? ? Hr Hw ? Her Ho];
      simpl in *; try congruence.
    { destruct He; congruence. }
    destruct Hw as (Hin & _ & Hwr & Hwn & _).
    rewrite <- Hin in Hq' |- *. rewrite <- Hwr in Hq'. rewrite <- Hwn, <- Her.
    match goal with |- context [Channels.run _ _ _ _ _ ?c1] =>
      destruct (channels_lines_written cfg paint arg0 defaults_text (stdin w1) c1
                  eq_refl eq_refl eq_refl eq_refl eq_refl Hq')
        as (? & _ & ? & ? & ? & _)
    end.
    by repeat split.
Qed.

(** ** Read errors that are not the end *)

(** X14: a transport error other than [io.EOF] does not stop the reader.
    After any number of such errors in a row the frame behind them is
    read and delivered, the process goes on, and the errors have been
    reported on standard error one by one, in the order they came.  In
    [src/main.go] that takes one step of the reader per item; in
    [src/unnamed/part_000] an error takes the read, the hand-over to the
    sink and the sink's report. *)
Theorem X14_reader_survives_read_errors cfg paint arg0 defaults_text
    w0 sched w0' sched' msg errs data rest errs' data' rest' :
  let s := Direct.run cfg paint arg0 defaults_text sched (Direct.init w0) in
  let c := Channels.run cfg paint arg0 defaults_text sched' (Channels.init w0') in
  Forall (fun err => err <> io_EOF) errs ->
  Forall (fun err => err <> io_EOF) errs' ->
  Direct.exited s = None -> Direct.pc_in s = Direct.I_read msg ->
  inbound (Direct.env s) = (inr <$> errs) ++ inl data :: rest ->
  (Z.of_nat (length data) <= bufSize cfg)%Z ->
  Channels.exited c = None -> Channels.pc_in c = Channels.I_read ->
  Channels.pc_sink c = Channels.E_recv -> Channels.pc_show c = Channels.P_recv ->
  inbound (Channels.env c) = (inr <$> errs') ++ inl data' :: rest' ->
  (Z.of_nat (length data') <= bufSize cfg)%Z ->
  let s' :=
    Direct.run cfg paint arg0 defaults_text
      (replicate (S (length errs)) Direct.InLoop) s in
  let c' :=
    Channels.run cfg paint arg0 defaults_text
      (concat (replicate (length errs')
                 [Channels.InLoop; Channels.InLoop; Channels.PrintErrors])
         ++ [Channels.InLoop; Channels.InLoop]) c in
  (Direct.exited s' = None /\
   delivered (Direct.env s') = delivered (Direct.env s) ++ [data] /\
   stderr (Direct.env s')
   = stderr (Direct.env s)
       ++ concat ((fun err => to_bytes (error_report paint err)) <$> errs)) /\
  (Channels.exited c' = None /\
   Channels.pc_show c' = Channels.P_print (length data') /\
   Channels.view (length data') c' = data' /\
   delivered (Channels.env c') = delivered (Channels.env c) ++ [data'] /\
   stderr (Channels.env c')
   = stderr (Channels.env c)
       ++ concat ((fun err => to_bytes (error_report paint err)) <$> errs')).
Proof.
  intros s c Hq Hq' Hex Hpc Hin Hlen Hcex Hcpc Hcsk Hcsh Hcin Hclen s' c'.
  destruct (direct_reachable cfg paint arg0 defaults_text w0 sched)
    as (_ & _ & Hb & _).
  fold s in Hb. unfold Direct.buffer_ok in Hb. rewrite Hpc in Hb.
  destruct Hb as [Hm _].
  destruct (channels_reachable cfg paint arg0 defaults_text w0' sched')
    as (_ & Hcl & Hcb & _).
  fold c in Hcl, Hcb. unfold Channels.buffer_ok in Hcb. rewrite Hcpc in Hcb.
  destruct Hcb as [Hcm _]. destruct Hcl as (Hic & Hec & _).
  split.
  - apply (direct_reader_survives_errors cfg paint arg0 defaults_text errs
             s msg data rest); try done. lia.
  - apply (channels_reader_survives_errors cfg paint arg0 defaults_text errs'
             c data' rest'); try done. lia.
Qed.

(** ** Standing still *)

(** X15: when the program stands still.  A process is at rest when it has
    not ended and nothing moves until the outside does something; [main]
    standing at [scanner.Scan()] counts as waiting for the operator.  In
    [src/main.go] a process at rest is in one of two states: [main] waits
    for the operator with [outLoop] at its receive and no reader yet; or
    [main] is in [wg.Wait()] and the reader in a [ws.Read] with nothing
    pending.  Either way it waits for the outside and goes on running.
    In [src/unnamed/part_000] a process at rest is in one of three
    states: [main] waits for the operator, with [outLoop] at its receive
    or holding a write error for the sink that does not exist yet; or
    [main] is in [wg.Wait()] with the reader in a [ws.Read] with nothing
    pending and presenter and sink at their receives; or [main] is
    blocked at its send to [outLoop] while [outLoop] is blocked at its
    send to the sink.  In the first two it goes on running; in the third
    nobody waits for the outside and the Go runtime ends the process. *)
Theorem X15_standing_still_means_waiting cfg paint arg0 defaults_text
    w sched w' sched' :
  let s := Direct.run cfg paint arg0 defaults_text sched (Direct.init w) in
  let c := Channels.run cfg paint arg0 defaults_text sched' (Channels.init w') in
  (Direct.at_rest cfg paint arg0 defaults_text s ->
   Direct.fate_of cfg paint arg0 defaults_text s = Runs /\
   Direct.awaits_input s = true /\
   ((raw cfg = false /\ Direct.pc_main s = Direct.M_scan /\
     Direct.pc_out s = Direct.O_recv /\ Direct.pc_in s = Direct.I_idle) \/
    (Direct.pc_main s = Direct.M_wait /\
     (exists msg, Direct.pc_in s = Direct.I_read msg) /\
     inbound (Direct.env s) = [] /\
     (Direct.pc_out s = Direct.O_idle \/ Direct.pc_out s = Direct.O_recv)))) /\
  (Channels.at_rest cfg paint arg0 defaults_text c ->
   (Channels.fate_of cfg paint arg0 defaults_text c = Runs /\
    Channels.awaits_input c = true /\
    ((raw cfg = false /\ Channels.pc_main c = Channels.M_scan /\
      (Channels.pc_out c = Channels.O_recv \/
       exists err, Channels.pc_out c = Channels.O_send_err err) /\
      Channels.pc_in c = Channels.I_idle /\
      Channels.pc_show c = Channels.P_idle /\
      Channels.pc_sink c = Channels.E_idle) \/
     (Channels.pc_main c = Channels.M_wait /\
      Channels.pc_in c = Channels.I_read /\
      Channels.pc_show c = Channels.P_recv /\
      Channels.pc_sink c = Channels.E_recv /\
      inbound (Channels.env c) = [] /\
      (Channels.pc_out c = Channels.O_idle \/
       Channels.pc_out c = Channels.O_recv)))) \/
   (Channels.fate_of cfg paint arg0 defaults_text c = Aborts /\
    Channels.awaits_input c = false /\
    raw cfg = false /\
    exists msg err,
      Channels.pc_main c = Channels.M_send msg /\
      Channels.pc_out c = Channels.O_send_err err /\
      Channels.pc_in c = Channels.I_idle /\
      Channels.pc_show c = Channels.P_idle /\
      Channels.pc_sink c = Channels.E_idle)).
Proof.
  intros s c. split.
  - intros Hr. pose proof Hr as [Hex _].
    pose proof (direct_never_asleep cfg paint arg0 defaults_text w sched)
      as Ha.
    pose proof (direct_at_rest_cases cfg paint arg0 defaults_text w sched Hr)
      as Hc.
    fold s in Ha, Hc. unfold Direct.fate_of. rewrite Hex, Ha.
    split; [done|]. split; [|done]. unfold Direct.awaits_input.
    destruct Hc as [(_ & -> & _)|(-> & [m ->] & _)]; done.
  - intros Hr. pose proof Hr as [Hex _].
    pose proof (channels_asleep_iff_jam cfg paint arg0 defaults_text w' sched')
      as Ha.
    cbv zeta in Ha.
    pose proof (channels_at_rest_cases cfg paint arg0 defaults_text w' sched'
                  Hr) as Hc.
    fold c in Ha, Hc. unfold Channels.fate_of. rewrite Hex.
    destruct Hc as [Hc|[Hc|Hc]].
    + left. assert (Hw : Channels.awaits_input c = true).
      { unfold Channels.awaits_input. by destruct Hc as (_ & -> & _). }
      destruct (Channels.asleep cfg paint arg0 defaults_text c) eqn:Hs.
      * apply channels_asleep_at_rest in Hs as [_ Hs]. congruence.
      * split; [done|]. split; [done|]. by left.
    + left. assert (Hw : Channels.awaits_input c = true).
      { unfold Channels.awaits_input. by destruct Hc as (-> & -> & _). }
      destruct (Channels.asleep cfg paint arg0 defaults_text c) eqn:Hs.
      * apply channels_asleep_at_rest in Hs as [_ Hs]. congruence.
      * split; [done|]. split; [done|]. by right.
    + right. destruct Hc as (Hraw & m & e & Hm & Ho & Hi & Hp & Hk).
      assert (Hs : Channels.asleep cfg paint arg0 defaults_text c = true).
      { apply Ha. split; [done|]. by exists m, e. }
      rewrite Hs. split; [done|]. split.
      * unfold Channels.awaits_input. by rewrite Hm, Hi.
      * split; [done|]. by exists m, e.
Qed.

(** ** The further theorems at concrete sessions *)

Lemma X1_version_prints_and_exits_witness :
  displayVersion Scenario.version_flags = true /\
  (let s :=
     Direct.run Scenario.version_flags Scenario.plain "wsd" ""
       [Direct.InLoop; Direct.Main; Direct.OutLoop]
       (Direct.init Scenario.chat) in
   Direct.exited s = Some (os_Exit 0) /\
   stdout (Direct.env s) = to_bytes ("wsd version 0.1.0" +:+ LF) /\
   handshakes (Direct.env s) = []) /\
  (let c :=
     Channels.run Scenario.version_flags Scenario.plain "wsd" ""
       [Channels.Main; Channels.Main] (Channels.init Scenario.chat) in
   Channels.exited c = Some (os_Exit 0) /\
   stdout (Channels.env c) = to_bytes ("wsd version 0.1.0" +:+ LF)).
Proof.
  split; [done|].
  destruct (X1_version_prints_and_exits Scenario.version_flags Scenario.plain
              "wsd" "" Scenario.chat
              [Direct.InLoop; Direct.Main; Direct.OutLoop]
              Scenario.chat [Channels.Main; Channels.Main] eq_refl)
    as ((Hs & _ & _ & Hh & _) & (Hc & _)).
  destruct (Hs ltac:(simpl; auto)) as [He Ho].
  destruct (Hc ltac:(simpl; auto)) as [Hce Hco].
  cbv zeta. repeat split; try done.
  all: first [rewrite Ho|rewrite Hco]; by vm_compute.
Defined.

Lemma X2_help_prints_usage_and_exits_witness :
  (displayVersion Scenario.help_flags = false /\
   displayHelp Scenario.help_flags = true) /\
  (let s :=
     Direct.run Scenario.help_flags Scenario.plain "wsd" "  -raw" [Direct.Main]
       (Direct.init Scenario.chat) in
   Direct.exited s = Some (os_Exit 0) /\
   stdout (Direct.env s) = to_bytes ("Usage of wsd:" +:+ LF) /\
   stderr (Direct.env s) = to_bytes "  -raw") /\
  (let c :=
     Channels.run Scenario.help_flags Scenario.plain "wsd" "  -raw"
       [Channels.Main] (Channels.init Scenario.chat) in
   Channels.exited c = Some (os_Exit 0) /\
   stderr (Channels.env c) = to_bytes "  -raw").
Proof.
  split; [done|].
  destruct (X2_help_prints_usage_and_exits Scenario.help_flags Scenario.plain
              "wsd" "  -raw" Scenario.chat [Direct.Main]
              Scenario.chat [Channels.Main] eq_refl eq_refl)
    as ((Hs & _) & (Hc & _)).
  destruct (Hs ltac:(simpl; auto)) as (He & Ho & Her).
  destruct (Hc ltac:(simpl; auto)) as (Hce & Hco & Hcer).
  cbv zeta. repeat split; try done.
  all: first [rewrite Ho|rewrite Her|rewrite Hcer]; by vm_compute.
Defined.

Lemma X3_failed_dial_panics_witness :
  (displayVersion Scenario.interactive_flags = false /\
   displayHelp Scenario.interactive_flags = false /\
   dial_err Scenario.refused = Some (errors_New "connection refused")) /\
  (let s :=
     Direct.run Scenario.interactive_flags Scenario.plain "wsd" ""
       [Direct.Main; Direct.InLoop; Direct.Main] (Direct.init Scenario.refused) in
   (exists p, Direct.exited s = Some (go_panic p)) /\
   stdout (Direct.env s)
   = to_bytes ("connecting to ws://localhost:1337/ws from http://localhost/..."
                 +:+ LF) /\
   opened (Direct.env s) = 0) /\
  (let c :=
     Channels.run Scenario.interactive_flags Scenario.plain "wsd" ""
       [Channels.Main] (Channels.init Scenario.refused) in
   (exists p, Channels.exited c = Some (go_panic p)) /\
   opened (Channels.env c) = 0).
Proof.
  split; [done|].
  destruct (X3_failed_dial_panics Scenario.interactive_flags Scenario.plain
              "wsd" "" Scenario.refused
              [Direct.Main; Direct.InLoop; Direct.Main]
              (errors_New "connection refused")
              Scenario.refused [Channels.Main]
              (errors_New "connection refused")
              eq_refl eq_refl (or_intror eq_refl) (or_intror eq_refl))
    as ((Hs & _ & Hop & _) & (Hc & _ & Hcop & _)).
  destruct (Hs ltac:(simpl; auto)) as ((p & He & _) & Ho).
  destruct (Hc ltac:(simpl; auto)) as ((p' & Hce & _) & Hco).
  cbv zeta. repeat split; try done.
  all: try (by exists p). all: try (by exists p').
  all: rewrite Ho; by vm_compute.
Defined.

Lemma X5_prompt_ends_standard_output_witness :
  (raw Scenario.interactive_flags = false /\
   displayVersion Scenario.interactive_flags = false /\
   displayHelp Scenario.interactive_flags = false /\
   config_err Scenario.write_fails = None /\
   dial_err Scenario.write_fails = None /\
   config_err Scenario.chat = None /\ dial_err Scenario.chat = None) /\
  to_bytes "> "
    `suffix_of` stdout (Direct.env
                          (Direct.run Scenario.interactive_flags Scenario.plain
                             "wsd" ""
                             [Direct.Main; Direct.Main; Direct.Main;
                              Direct.OutLoop]
                             (Direct.init Scenario.write_fails))) /\
  to_bytes "> "
    `suffix_of` stdout (Channels.env
                          (Channels.run Scenario.interactive_flags
                             Scenario.plain "wsd" ""
                             [Channels.Main; Channels.Main]
                             (Channels.init Scenario.chat))).
Proof.
  split; [by repeat split|].
  apply (X5_prompt_ends_standard_output Scenario.interactive_flags
           Scenario.plain "wsd" "" Scenario.write_fails
           [Direct.Main; Direct.Main; Direct.Main; Direct.OutLoop]
           Scenario.chat [Channels.Main; Channels.Main]);
    try done; simpl; auto.
Defined.

Lemma X6_raw_mode_only_listens_witness :
  raw Scenario.raw_flags = true /\
  (let s :=
     Direct.run Scenario.raw_flags Scenario.plain "wsd" ""
       [Direct.Main; Direct.Main; Direct.OutLoop; Direct.InLoop; Direct.InLoop]
       (Direct.init Scenario.chat) in
   stdin (Direct.env s) = ["a"; "b"] /\ written (Direct.env s) = []) /\
  (let c :=
     Channels.run Scenario.raw_flags Scenario.plain "wsd" ""
       [Channels.Main; Channels.Main; Channels.OutLoop; Channels.InLoop]
       (Channels.init Scenario.chat) in
   stdin (Channels.env c) = ["a"; "b"] /\ written (Channels.env c) = []).
Proof.
  split; [done|].
  destruct (X6_raw_mode_only_listens Scenario.raw_flags Scenario.plain "wsd" ""
              Scenario.chat
              [Direct.Main; Direct.Main; Direct.OutLoop; Direct.InLoop;
               Direct.InLoop]
              Scenario.chat
              [Channels.Main; Channels.Main; Channels.OutLoop; Channels.InLoop]
              eq_refl)
    as ((Hi & Hw & _) & (Hci & Hcw & _)).
  by repeat split.
Defined.

Lemma X7_no_read_before_end_of_input_witness :
  raw Scenario.interactive_flags = false /\
  (let s :=
     Direct.run Scenario.interactive_flags Scenario.plain "wsd" ""
       [Direct.Main; Direct.InLoop; Direct.Main; Direct.InLoop]
       (Direct.init Scenario.chat) in
   stdin (Direct.env s) = ["b"] /\
   inbound (Direct.env s) = [inl (to_bytes "ping")] /\
   delivered (Direct.env s) = []) /\
  (let c :=
     Channels.run Scenario.interactive_flags Scenario.plain "wsd" ""
       [Channels.Main; Channels.InLoop; Channels.Main; Channels.PrintErrors]
       (Channels.init Scenario.chat) in
   stdin (Channels.env c) = ["b"] /\
   inbound (Channels.env c) = [inl (to_bytes "ping")] /\
   Channels.pc_sink c = Channels.E_idle).
Proof.
  split; [done|].
  destruct (X7_no_read_before_end_of_input Scenario.interactive_flags
              Scenario.plain "wsd" "" Scenario.chat
              [Direct.Main; Direct.InLoop; Direct.Main; Direct.InLoop]
              Scenario.chat
              [Channels.Main; Channels.InLoop; Channels.Main;
               Channels.PrintErrors]
              eq_refl)
    as (Hs & Hc).
  assert (H1 : stdin (Direct.env
                 (Direct.run Scenario.interactive_flags Scenario.plain "wsd" ""
                    [Direct.Main; Direct.InLoop; Direct.Main; Direct.InLoop]
                    (Direct.init Scenario.chat))) = ["b"]) by (by vm_compute).
  assert (H2 : stdin (Channels.env
                 (Channels.run Scenario.interactive_flags Scenario.plain "wsd" ""
                    [Channels.Main; Channels.InLoop; Channels.Main;
                     Channels.PrintErrors]
                    (Channels.init Scenario.chat))) = ["b"]) by (by vm_compute).
  destruct (Hs ltac:(by rewrite H1)) as (_ & _ & Hi & Hd).
  destruct (Hc ltac:(by rewrite H2)) as (_ & _ & Hsk & _ & Hci & _).
  by repeat split.
Defined.

Lemma X8_negative_bufSize_panics_reader_witness :
  (bufSize Scenario.negative_raw_flags < 0)%Z /\
  (let s :=
     Direct.run Scenario.negative_raw_flags Scenario.plain "wsd" ""
       [Direct.Main; Direct.Main] (Direct.init Scenario.ping_pong) in
   Direct.pc_in s = Direct.I_start /\
   exists s1,
     Direct.step Scenario.negative_raw_flags Scenario.plain "wsd" ""
       Direct.InLoop s = Some s1 /\
     Direct.exited s1 = Some (go_panic MakesliceLenOutOfRange)) /\
  (let c :=
     Channels.run Scenario.negative_raw_flags Scenario.plain "wsd" ""
       [Channels.Main; Channels.Main] (Channels.init Scenario.ping_pong) in
   Channels.pc_in c = Channels.I_start /\
   exists c1,
     Channels.step Scenario.negative_raw_flags Scenario.plain "wsd" ""
       Channels.InLoop c = Some c1 /\
     Channels.exited c1 = Some (go_panic MakesliceLenOutOfRange)).
Proof.
  split; [done|].
  destruct (X8_negative_bufSize_panics_reader Scenario.negative_raw_flags
              Scenario.plain "wsd" "" Scenario.ping_pong
              [Direct.Main; Direct.Main]
              Scenario.ping_pong [Channels.Main; Channels.Main]
              ltac:(done))
    as ((_ & _ & Hs) & (_ & _ & Hc)).
  split.
  - split; [by vm_compute|].
    destruct Hs as (s1 & ? & ? & _); [by vm_compute|by vm_compute|].
    by exists s1.
  - split; [by vm_compute|].
    destruct Hc as (c1 & ? & ? & _); [by vm_compute|by vm_compute|].
    by exists c1.
Defined.

Lemma X10_zero_bufSize_never_consumes_witness :
  let s :=
    Direct.run Scenario.zero_raw_flags Scenario.plain "wsd" ""
      Scenario.direct_to_read (Direct.init Scenario.ping_pong) in
  let c :=
    Channels.run Scenario.zero_raw_flags Scenario.plain "wsd" ""
      Scenario.channels_to_read (Channels.init Scenario.ping_pong) in
  (bufSize Scenario.zero_raw_flags = 0%Z /\
   Direct.exited s = None /\ Direct.pc_in s = Direct.I_read [] /\
   inbound (Direct.env s) = [inl (to_bytes "ping"); inl (to_bytes "pong")] /\
   Channels.exited c = None /\ Channels.pc_in c = Channels.I_read /\
   Channels.pc_show c = Channels.P_recv /\
   inbound (Channels.env c) = [inl (to_bytes "ping"); inl (to_bytes "pong")]) /\
  (let s' :=
     Direct.run Scenario.zero_raw_flags Scenario.plain "wsd" ""
       (replicate 3 Direct.InLoop) s in
   inbound (Direct.env s') = [inl (to_bytes "ping"); inl (to_bytes "pong")] /\
   delivered (Direct.env s') = [[]; []; []] /\
   stdout (Direct.env s') = []) /\
  (let c' :=
     Channels.run Scenario.zero_raw_flags Scenario.plain "wsd" ""
       (concat (replicate 3 [Channels.InLoop; Channels.InLoop;
                             Channels.PrintReceivedMessages])) c in
   inbound (Channels.env c') = [inl (to_bytes "ping"); inl (to_bytes "pong")] /\
   delivered (Channels.env c') = [[]; []; []]).
Proof.
  intros s c.
  assert (H1 : Direct.exited s = None) by (by vm_compute).
  assert (H2 : Direct.pc_in s = Direct.I_read []) by (by vm_compute).
  assert (H3 : inbound (Direct.env s)
               = [inl (to_bytes "ping"); inl (to_bytes "pong")])
    by (by vm_compute).
  assert (H4 : Channels.exited c = None) by (by vm_compute).
  assert (H5 : Channels.pc_in c = Channels.I_read) by (by vm_compute).
  assert (H6 : Channels.pc_show c = Channels.P_recv) by (by vm_compute).
  assert (H7 : inbound (Channels.env c)
               = [inl (to_bytes "ping"); inl (to_bytes "pong")])
    by (by vm_compute).
  assert (Hne : to_bytes "ping" <> []) by (by vm_compute).
  split; [by repeat split|].
  destruct (X10_zero_bufSize_never_consumes Scenario.zero_raw_flags
              Scenario.plain "wsd" "" Scenario.ping_pong Scenario.direct_to_read
              Scenario.ping_pong Scenario.channels_to_read
              [] (to_bytes "ping") [inl (to_bytes "pong")]
              (to_bytes "ping") [inl (to_bytes "pong")] 3
              eq_refl H1 H2 H3 Hne H4 H5 H6 H7 Hne)
    as ((_ & Hi & Hd & Ho) & (_ & Hci & Hcd & _)).
  cbv zeta. fold s c. repeat split; try done.
  all: first [rewrite Hd|rewrite Ho|rewrite Hcd]; by vm_compute.
Defined.

Lemma X11_long_frame_arrives_in_full_witness :
  let s :=
    Direct.run Scenario.small_raw_flags Scenario.plain "wsd" ""
      Scenario.direct_to_read (Direct.init Scenario.long_frame) in
  let c :=
    Channels.run Scenario.small_raw_flags Scenario.plain "wsd" ""
      Scenario.channels_to_read (Channels.init Scenario.long_frame) in
  ((0 < bufSize Scenario.small_raw_flags)%Z /\
   Direct.exited s = None /\
   Direct.pc_in s = Direct.I_read (replicate 4 x00) /\
   inbound (Direct.env s) = [inl (to_bytes "pingpong!")] /\
   Channels.exited c = None /\ Channels.pc_in c = Channels.I_read /\
   Channels.pc_show c = Channels.P_recv /\
   inbound (Channels.env c) = [inl (to_bytes "pingpong!")]) /\
  (exists chunks,
     concat chunks = to_bytes "pingpong!" /\
     stdout (Direct.env
               (Direct.run Scenario.small_raw_flags Scenario.plain "wsd" ""
                  (replicate (length chunks) Direct.InLoop) s))
     = to_bytes "pingpong!") /\
  (exists chunks,
     concat chunks = to_bytes "pingpong!" /\
     stdout (Channels.env
               (Channels.run Scenario.small_raw_flags Scenario.plain "wsd" ""
                  (concat (replicate (length chunks)
                             [Channels.InLoop; Channels.InLoop;
                              Channels.PrintReceivedMessages])) c))
     = to_bytes "pingpong!").
Proof.
  intros s c.
  assert (H1 : Direct.exited s = None) by (by vm_compute).
  assert (H2 : Direct.pc_in s = Direct.I_read (replicate 4 x00))
    by (by vm_compute).
  assert (H3 : inbound (Direct.env s) = [inl (to_bytes "pingpong!")])
    by (by vm_compute).
  assert (H4 : Channels.exited c = None) by (by vm_compute).
  assert (H5 : Channels.pc_in c = Channels.I_read) by (by vm_compute).
  assert (H6 : Channels.pc_show c = Channels.P_recv) by (by vm_compute).
  assert (H7 : inbound (Channels.env c) = [inl (to_bytes "pingpong!")])
    by (by vm_compute).
  assert (H8 : stdout (Direct.env s) = []) by (by vm_compute).
  assert (H9 : stdout (Channels.env c) = []) by (by vm_compute).
  split; [by repeat split|].
  destruct (X11_long_frame_arrives_in_full Scenario.small_raw_flags
              Scenario.plain "wsd" "" Scenario.long_frame Scenario.direct_to_read
              Scenario.long_frame Scenario.channels_to_read
              (replicate 4 x00) (to_bytes "pingpong!") []
              (to_bytes "pingpong!") []
              ltac:(done) H1 H2 H3 H4 H5 H6 H7)
    as ((chunks & Hcat & _ & _ & _ & _ & _ & Hraw) &
        (chunks' & Hcat' & _ & _ & _ & _ & _ & Hraw')).
  split.
  - exists chunks. split; [done|].
    etransitivity; [exact (Hraw eq_refl)|]. fold s. by rewrite H8.
  - exists chunks'. split; [done|].
    etransitivity; [exact (Hraw' eq_refl)|]. fold c. by rewrite H9.
Defined.

Lemma X12_reused_buffer_shows_later_frame_witness :
  let c :=
    Channels.run Scenario.raw_flags Scenario.plain "wsd" ""
      Scenario.channels_to_read (Channels.init Scenario.ping_pong) in
  (raw Scenario.raw_flags = true /\
   Channels.exited c = None /\ Channels.pc_in c = Channels.I_read /\
   Channels.pc_show c = Channels.P_recv /\
   inbound (Channels.env c) = [inl (to_bytes "ping"); inl (to_bytes "pong")] /\
   (Z.of_nat (length (to_bytes "ping")) <= bufSize Scenario.raw_flags)%Z /\
   (Z.of_nat (length (to_bytes "pong")) <= bufSize Scenario.raw_flags)%Z) /\
  stdout (Channels.env
            (Channels.run Scenario.raw_flags Scenario.plain "wsd" ""
               [Channels.InLoop; Channels.InLoop;
                Channels.PrintReceivedMessages;
                Channels.InLoop; Channels.InLoop;
                Channels.PrintReceivedMessages] c))
  = to_bytes "pingpong" /\
  stdout (Channels.env
            (Channels.run Scenario.raw_flags Scenario.plain "wsd" ""
               [Channels.InLoop; Channels.InLoop; Channels.InLoop;
                Channels.PrintReceivedMessages;
                Channels.InLoop; Channels.PrintReceivedMessages] c))
  = to_bytes "pongpong".
Proof.
  intros c.
  assert (H1 : Channels.exited c = None) by (by vm_compute).
  assert (H2 : Channels.pc_in c = Channels.I_read) by (by vm_compute).
  assert (H3 : Channels.pc_show c = Channels.P_recv) by (by vm_compute).
  assert (H4 : inbound (Channels.env c)
               = [inl (to_bytes "ping"); inl (to_bytes "pong")])
    by (by vm_compute).
  assert (H5 : (Z.of_nat (length (to_bytes "ping"))
                <= bufSize Scenario.raw_flags)%Z) by (by vm_compute).
  assert (H6 : (Z.of_nat (length (to_bytes "pong"))
                <= bufSize Scenario.raw_flags)%Z) by (by vm_compute).
  assert (H7 : stdout (Channels.env c) = []) by (by vm_compute).
  split; [by repeat split|].
  destruct (X12_reused_buffer_shows_later_frame Scenario.raw_flags
              Scenario.plain "wsd" "" Scenario.ping_pong
              Scenario.channels_to_read (to_bytes "ping") (to_bytes "pong") []
              eq_refl H1 H2 H3 H4 H5 H6)
    as ((Hturn & _) & (Hahead & _) & _).
  fold c in Hturn, Hahead. rewrite H7 in Hturn, Hahead.
  split.
  - rewrite Hturn. by vm_compute.
  - rewrite Hahead. by vm_compute.
Defined.

Lemma X13_every_typed_line_is_written_witness :
  (raw Scenario.interactive_flags = false /\
   displayVersion Scenario.interactive_flags = false /\
   displayHelp Scenario.interactive_flags = false /\
   config_err Scenario.write_fails = None /\
   dial_err Scenario.write_fails = None /\
   config_err Scenario.chat = None /\ dial_err Scenario.chat = None /\
   Forall (fun r => r <> Some io_EOF)
     (take (length (stdin Scenario.write_fails))
        (wresults Scenario.write_fails)) /\
   Forall (fun r : option error => r = None)
     (take (length (stdin Scenario.chat)) (wresults Scenario.chat))) /\
  (let s :=
     Direct.run Scenario.interactive_flags Scenario.plain "wsd" ""
       [Direct.Main;
        Direct.Main; Direct.Main; Direct.OutLoop; Direct.Main;
        Direct.Main; Direct.Main; Direct.OutLoop; Direct.Main]
       (Direct.init Scenario.write_fails) in
   written (Direct.env s) = [to_bytes "a"; to_bytes "b"] /\
   stderr (Direct.env s)
   = to_bytes (error_report Scenario.plain Scenario.broken_pipe)) /\
  (let c :=
     Channels.run Scenario.interactive_flags Scenario.plain "wsd" ""
       [Channels.Main;
        Channels.Main; Channels.Main; Channels.OutLoop; Channels.Main;
        Channels.Main; Channels.Main; Channels.OutLoop; Channels.Main]
       (Channels.init Scenario.chat) in
   written (Channels.env c) = [to_bytes "a"; to_bytes "b"]).
Proof.
  assert (Hq : Forall (fun r => r <> Some io_EOF)
                 (take (length (stdin Scenario.write_fails))
                    (wresults Scenario.write_fails))).
  { repeat constructor. done. }
  assert (Hq' : Forall (fun r : option error => r = None)
                  (take (length (stdin Scenario.chat))
                     (wresults Scenario.chat))).
  { constructor. }
  split; [by repeat split|].
  destruct (X13_every_typed_line_is_written Scenario.interactive_flags
              Scenario.plain "wsd" "" Scenario.write_fails Scenario.chat
              eq_refl eq_refl eq_refl eq_refl eq_refl eq_refl eq_refl Hq Hq')
    as ((_ & _ & Hw & He) & (_ & _ & Hcw & _)).
  cbv zeta. split; [split|].
  - etransitivity; [exact Hw|]. by vm_compute.
  - etransitivity; [exact He|]. by vm_compute.
  - etransitivity; [exact Hcw|]. by vm_compute.
Defined.

Lemma X14_reader_survives_read_errors_witness :
  let s :=
    Direct.run Scenario.raw_flags Scenario.plain "wsd" ""
      Scenario.direct_to_read (Direct.init Scenario.flaky) in
  let c :=
    Channels.run Scenario.raw_flags Scenario.plain "wsd" ""
      Scenario.channels_to_read (Channels.init Scenario.flaky) in
  (Forall (fun err => err <> io_EOF)
     [Scenario.broken_pipe; io_ErrUnexpectedEOF] /\
   Direct.exited s = None /\
   Direct.pc_in s = Direct.I_read (replicate 1024 x00) /\
   inbound (Direct.env s)
   = (inr <$> [Scenario.broken_pipe; io_ErrUnexpectedEOF])
       ++ [inl (to_bytes "ping")] /\
   (Z.of_nat (length (to_bytes "ping")) <= bufSize Scenario.raw_flags)%Z /\
   Channels.exited c = None /\ Channels.pc_in c = Channels.I_read /\
   Channels.pc_sink c = Channels.E_recv /\
   Channels.pc_show c = Channels.P_recv /\
   inbound (Channels.env c)
   = (inr <$> [Scenario.broken_pipe; io_ErrUnexpectedEOF])
       ++ [inl (to_bytes "ping")]) /\
  (let s' :=
     Direct.run Scenario.raw_flags Scenario.plain "wsd" ""
       [Direct.InLoop; Direct.InLoop; Direct.InLoop] s in
   Direct.exited s' = None /\
   delivered (Direct.env s') = [to_bytes "ping"]) /\
  (let c' :=
     Channels.run Scenario.raw_flags Scenario.plain "wsd" ""
       [Channels.InLoop; Channels.InLoop; Channels.PrintErrors;
        Channels.InLoop; Channels.InLoop; Channels.PrintErrors;
        Channels.InLoop; Channels.InLoop] c in
   Channels.exited c' = None /\
   delivered (Channels.env c') = [to_bytes "ping"]).
Proof.
  intros s c.
  assert (Hq : Forall (fun err => err <> io_EOF)
                 [Scenario.broken_pipe; io_ErrUnexpectedEOF]).
  { by repeat constructor. }
  assert (H1 : Direct.exited s = None) by (by vm_compute).
  assert (H2 : Direct.pc_in s = Direct.I_read (replicate 1024 x00))
    by (by vm_compute).
  assert (H3 : inbound (Direct.env s)
               = (inr <$> [Scenario.broken_pipe; io_ErrUnexpectedEOF])
                   ++ [inl (to_bytes "ping")]) by (by vm_compute).
  assert (H4 : (Z.of_nat (length (to_bytes "ping"))
                <= bufSize Scenario.raw_flags)%Z) by (by vm_compute).
  assert (H5 : Channels.exited c = None) by (by vm_compute).
  assert (H6 : Channels.pc_in c = Channels.I_read) by (by vm_compute).
  assert (H7 : Channels.pc_sink c = Channels.E_recv) by (by vm_compute).
  assert (H8 : Channels.pc_show c = Channels.P_recv) by (by vm_compute).
  assert (H9 : inbound (Channels.env c)
               = (inr <$> [Scenario.broken_pipe; io_ErrUnexpectedEOF])
                   ++ [inl (to_bytes "ping")]) by (by vm_compute).
  assert (H10 : delivered (Direct.env s) = []) by (by vm_compute).
  assert (H11 : delivered (Channels.env c) = []) by (by vm_compute).
  split; [by repeat split|].
  destruct (X14_reader_survives_read_errors Scenario.raw_flags Scenario.plain
              "wsd" "" Scenario.flaky Scenario.direct_to_read
              Scenario.flaky Scenario.channels_to_read
              (replicate 1024 x00)
              [Scenario.broken_pipe; io_ErrUnexpectedEOF] (to_bytes "ping") []
              [Scenario.broken_pipe; io_ErrUnexpectedEOF] (to_bytes "ping") []
              Hq Hq H1 H2 H3 H4 H5 H6 H7 H8 H9 H4)
    as ((He & Hd & _) & (Hce & _ & _ & Hcd & _)).
  fold s c in He, Hd, Hce, Hcd. rewrite H10 in Hd. rewrite H11 in Hcd.
  cbv zeta. by repeat split.
Defined.

Lemma X4_one_handshake_built_from_flags_witness :
  handshakes
    (Direct.env
       (Direct.run Scenario.interactive_flags Scenario.plain "wsd" ""
          [Direct.Main; Direct.Main; Direct.OutLoop] (Direct.init Scenario.chat)))
  = [WsConfig "ws://localhost:1337/ws" "http://localhost/" [] [] false] /\
  handshakes
    (Channels.env
       (Channels.run Scenario.custom_flags Scenario.plain "wsd" ""
          [Channels.Main; Channels.Main] (Channels.init Scenario.chat)))
  = [WsConfig "wss://example.org/ws" "https://example.org" ["chat"]
       [("User-Agent", "wsd/0.1.0")] true] /\
  handshakes
    (Direct.env
       (Direct.run Scenario.version_flags Scenario.plain "wsd" ""
          [Direct.Main; Direct.Main] (Direct.init Scenario.chat)))
  = [].
Proof.
  destruct (X4_one_handshake_built_from_flags Scenario.interactive_flags
              Scenario.plain "wsd" "" Scenario.chat
              [Direct.Main; Direct.Main; Direct.OutLoop] Scenario.chat [])
    as ((_ & Hd & _) & _).
  destruct (X4_one_handshake_built_from_flags Scenario.custom_flags
              Scenario.plain "wsd" "" Scenario.chat [] Scenario.chat
              [Channels.Main; Channels.Main])
    as (_ & (_ & Hc & _)).
  destruct (X4_one_handshake_built_from_flags Scenario.version_flags
              Scenario.plain "wsd" "" Scenario.chat
              [Direct.Main; Direct.Main] Scenario.chat [])
    as ((_ & _ & Hv) & _).
  split; [|split].
  - etransitivity; [apply Hd; [simpl; auto|by repeat split]|]. done.
  - etransitivity; [apply Hc; [simpl; auto|by repeat split]|]. done.
  - etransitivity; [apply Hv; by intros (? & _)|]. done.
Defined.


Lemma X15_standing_still_means_waiting_witness :
  let s_scan :=
    Direct.run Scenario.interactive_flags Scenario.plain "wsd" ""
      [Direct.Main] (Direct.init Scenario.silent) in
  let s :=
    Direct.run Scenario.interactive_flags Scenario.plain "wsd" ""
      [Direct.Main; Direct.Main; Direct.Main; Direct.InLoop]
      (Direct.init Scenario.silent) in
  let c :=
    Channels.run Scenario.interactive_flags Scenario.plain "wsd" ""
      [Channels.Main; Channels.Main; Channels.Main; Channels.OutLoop;
       Channels.Main; Channels.Main; Channels.Main]
      (Channels.init Scenario.write_fails) in
  (Direct.at_rest Scenario.interactive_flags Scenario.plain "wsd" "" s_scan /\
   Direct.at_rest Scenario.interactive_flags Scenario.plain "wsd" "" s /\
   Channels.at_rest Scenario.interactive_flags Scenario.plain "wsd" "" c) /\
  (Direct.pc_main s_scan = Direct.M_scan /\
   Direct.fate_of Scenario.interactive_flags Scenario.plain "wsd" "" s_scan
   = Runs) /\
  (Direct.pc_main s = Direct.M_wait /\ inbound (Direct.env s) = [] /\
   Direct.fate_of Scenario.interactive_flags Scenario.plain "wsd" "" s
   = Runs) /\
  (Channels.fate_of Scenario.interactive_flags Scenario.plain "wsd" "" c
   = Aborts /\
   exists msg err,
     Channels.pc_main c = Channels.M_send msg /\
     Channels.pc_out c = Channels.O_send_err err).
Proof.
  intros s_scan s c.
  assert (H1 : Direct.at_rest Scenario.interactive_flags Scenario.plain
                 "wsd" "" s_scan).
  { split; [by vm_compute|].
    intros []; first [by left; vm_compute|by right; vm_compute]. }
  assert (H2 : Direct.at_rest Scenario.interactive_flags Scenario.plain
                 "wsd" "" s).
  { split; [by vm_compute|]. intros []; left; by vm_compute. }
  assert (H3 : Channels.at_rest Scenario.interactive_flags Scenario.plain
                 "wsd" "" c).
  { split; [by vm_compute|]. intros []; left; by vm_compute. }
  split; [exact (conj H1 (conj H2 H3))|].
  destruct (X15_standing_still_means_waiting Scenario.interactive_flags
              Scenario.plain "wsd" "" Scenario.silent [Direct.Main]
              Scenario.silent [])
    as (Hscan & _).
  destruct (X15_standing_still_means_waiting Scenario.interactive_flags
              Scenario.plain "wsd" "" Scenario.silent
              [Direct.Main; Direct.Main; Direct.Main; Direct.InLoop]
              Scenario.write_fails
              [Channels.Main; Channels.Main; Channels.Main; Channels.OutLoop;
               Channels.Main; Channels.Main; Channels.Main])
    as (Hs & Hc).
  destruct (Hscan H1) as (Hf1 & _ & _).
  destruct (Hs H2) as (Hf2 & _ & _).
  split; [split; [by vm_compute|exact Hf1]|].
  split; [split; [by vm_compute|split; [by vm_compute|exact Hf2]]|].
  destruct (Hc H3) as [(_ & Hw & _)|(Hf3 & _ & _ & m & e & Hm & Ho & _)].
  - fold c in Hw. by vm_compute in Hw.
  - split; [exact Hf3|]. by exists m, e.
Defined.
